(** * js_to_ts: the type deducer and the annotation pass of [node_new.js]

    A shallow embedding of [src/node_new.js].  The Babel syntax tree is an
    inductive type, the functions of the file are Rocq functions with the
    source's names, a [throw] is an explicit completion, and the in-place
    assignments to [typeAnnotation] and [returnType] are slot updates on the
    tree that the pass returns.  Part I is the program, Part II the
    definitions the properties are stated with, Part III the properties. *)

From stdpp Require Import base option list gmap strings.
From Stdlib Require Import Ascii Lia.

Set Warnings "-register-all".


(** * Part I: the program *)

(** ** JavaScript values and completions *)

(** What the callback of [elements.map] in [deduceElementType] can return:
    a string, or [undefined] when control leaves the [switch] by [break]. *)
Inductive JSValue : Type :=
| JSUndefined
| JSString (s : string).

Global Instance JSValue_eq_dec : EqDecision JSValue.
Proof. solve_decision. Defined.

Global Instance JSValue_countable : Countable JSValue.
Proof.
  refine (inj_countable'
            (fun v => match v with JSUndefined => None | JSString s => Some s end)
            (fun o => match o with None => JSUndefined | Some s => JSString s end) _).
  by intros [].
Defined.

Inductive JSError : Type :=
| Error (message : string)
| TypeError (message : string)
| SyntaxError (message : string)
| SystemError (code : string).

(** The completion of a call that computes a value. *)
Inductive Result (A : Type) : Type :=
| Return (a : A)
| Raise (e : JSError).
Arguments Return {A} a.
Arguments Raise {A} e.

(** The completion of a statement run for its effect. *)
Inductive completion : Type :=
| Normal
| Throw (e : JSError).

(** ** The syntax tree *)

(** TypeScript type nodes: the keywords the builders of [@babel/types]
    produce, a reference to a named type, an array type, and whatever other
    type the parser read from an annotation of the input. *)
Inductive TSType : Type :=
| TSNumberKeyword
| TSStringKeyword
| TSBooleanKeyword
| TSNullKeyword
| TSUndefinedKeyword
| TSAnyKeyword
| TSVoidKeyword
| TSTypeReference (typeName : string)
| TSArrayType (elementType : TSType)
| TSOtherType (source : string).

Inductive TSTypeAnnotation : Type :=
| tsTypeAnnotation (typeAnnotation : TSType).

(** A property that holds a type annotation.  [value] is the property
    ([None] when it is absent or null); [writes] counts the assignments the
    pass has made to it and is [0] in a tree that comes from the parser. *)
Record Slot : Type := mkSlot { value : option TSTypeAnnotation; writes : nat }.

Definition parsed (v : option TSTypeAnnotation) : Slot := mkSlot v 0.

(** [slot = annotation] *)
Definition assign (annotation : TSTypeAnnotation) (s : Slot) : Slot :=
  mkSlot (Some annotation) (S (writes s)).

(** Node kinds that neither the deducer nor the annotator tells apart. *)
Inductive OtherKind : Type :=
| File | Program | VariableDeclaration | ExpressionStatement | IfStatement
| ForStatement | WhileStatement | ThrowStatement | TryStatement
| CallExpression | NewExpression | MemberExpression
| ObjectExpression | ObjectProperty | SpreadElement
| TemplateLiteral | TemplateElement | TaggedTemplateExpression
| BinaryExpression | LogicalExpression | UnaryExpression | UpdateExpression
| AssignmentExpression | ConditionalExpression | SequenceExpression
| AwaitExpression | YieldExpression | ThisExpression | RegExpLiteral
| BigIntLiteral | ClassExpression | JSXElement.

(** Statements and expressions are one type, as in Babel, where the code
    tells them apart by their [type] field.  Binding targets (the [id] of a
    declarator, the parameters of a function) are the [Pattern]s; each has
    the [typeAnnotation] property.  A hole of an array literal or pattern is
    [None].  The body of a function declaration or function expression is
    always a block: [body] is the statement list [node.body.body].  The body
    of an arrow function is a [BlockStatement] or an expression.  A numeric
    literal is given by its source text, which the program never reads.  A
    node of another kind is given by its kind and its children in the order
    of the traversal. *)
Inductive Node : Type :=
| NumericLiteral (raw : string)
| StringLiteral (value : string)
| BooleanLiteral (value : bool)
| NullLiteral
| Identifier (name : string)
| ArrayExpression (elements : list (option Node))
| VariableDeclarator (id : Pattern) (init : option Node)
| FunctionDeclaration (params : list Pattern) (returnType : Slot) (body : list Node)
| ArrowFunctionExpression (params : list Pattern) (returnType : Slot) (body : Node)
| FunctionExpression (params : list Pattern) (returnType : Slot) (body : list Node)
| BlockStatement (body : list Node)
| ReturnStatement (argument : option Node)
| OtherNode (kind : OtherKind) (children : list (option Node))
with Pattern : Type :=
| BindingIdentifier (name : string) (typeAnnotation : Slot)
| AssignmentPattern (left : Pattern) (right : Node) (typeAnnotation : Slot)
| RestElement (argument : Pattern) (typeAnnotation : Slot)
| ArrayPattern (elements : list (option Pattern)) (typeAnnotation : Slot)
| ObjectPattern (properties : list Pattern) (typeAnnotation : Slot).

Definition otherKindName (k : OtherKind) : string :=
  match k with
  | File => "File" | Program => "Program"
  | VariableDeclaration => "VariableDeclaration"
  | ExpressionStatement => "ExpressionStatement"
  | IfStatement => "IfStatement" | ForStatement => "ForStatement"
  | WhileStatement => "WhileStatement" | ThrowStatement => "ThrowStatement"
  | TryStatement => "TryStatement" | CallExpression => "CallExpression"
  | NewExpression => "NewExpression" | MemberExpression => "MemberExpression"
  | ObjectExpression => "ObjectExpression" | ObjectProperty => "ObjectProperty"
  | SpreadElement => "SpreadElement" | TemplateLiteral => "TemplateLiteral"
  | TemplateElement => "TemplateElement"
  | TaggedTemplateExpression => "TaggedTemplateExpression"
  | BinaryExpression => "BinaryExpression"
  | LogicalExpression => "LogicalExpression"
  | UnaryExpression => "UnaryExpression" | UpdateExpression => "UpdateExpression"
  | AssignmentExpression => "AssignmentExpression"
  | ConditionalExpression => "ConditionalExpression"
  | SequenceExpression => "SequenceExpression"
  | AwaitExpression => "AwaitExpression" | YieldExpression => "YieldExpression"
  | ThisExpression => "ThisExpression" | RegExpLiteral => "RegExpLiteral"
  | BigIntLiteral => "BigIntLiteral" | ClassExpression => "ClassExpression"
  | JSXElement => "JSXElement"
  end.

(** The [type] field of a node. *)
Definition nodeType (n : Node) : string :=
  match n with
  | NumericLiteral _ => "NumericLiteral"
  | StringLiteral _ => "StringLiteral"
  | BooleanLiteral _ => "BooleanLiteral"
  | NullLiteral => "NullLiteral"
  | Identifier _ => "Identifier"
  | ArrayExpression _ => "ArrayExpression"
  | VariableDeclarator _ _ => "VariableDeclarator"
  | FunctionDeclaration _ _ _ => "FunctionDeclaration"
  | ArrowFunctionExpression _ _ _ => "ArrowFunctionExpression"
  | FunctionExpression _ _ _ => "FunctionExpression"
  | BlockStatement _ => "BlockStatement"
  | ReturnStatement _ => "ReturnStatement"
  | OtherNode k _ => otherKindName k
  end.

(** [pattern.typeAnnotation] *)
Definition typeAnnotationOf (p : Pattern) : Slot :=
  match p with
  | BindingIdentifier _ s | AssignmentPattern _ _ s | RestElement _ s
  | ArrayPattern _ s | ObjectPattern _ s => s
  end.

(** [pattern.typeAnnotation = annotation] *)
Definition setTypeAnnotation (annotation : TSTypeAnnotation) (p : Pattern) : Pattern :=
  match p with
  | BindingIdentifier name s => BindingIdentifier name (assign annotation s)
  | AssignmentPattern l r s => AssignmentPattern l r (assign annotation s)
  | RestElement a s => RestElement a (assign annotation s)
  | ArrayPattern els s => ArrayPattern els (assign annotation s)
  | ObjectPattern ps s => ObjectPattern ps (assign annotation s)
  end.

(** ** Builders of [@babel/types] used by the source *)

(** [t.identifier(name)].  The builder validates its argument: a [name] that
    is not a string is rejected with a [TypeError]. *)
Definition t_identifier (name : JSValue) : Result string :=
  match name with
  | JSString s => Return s
  | JSUndefined =>
      Raise (TypeError "Property name of Identifier expected type of string but got undefined")
  end.

(** ** [deduceElementType] (lines 14-35) *)

(** The callback given to [elements.map]. *)
Definition elementTypeOf (el : option Node) : JSValue :=
  match el with
  | None => JSString "null"
  | Some (NumericLiteral _) => JSString "number"
  | Some (StringLiteral _) => JSString "string"
  | Some (BooleanLiteral _) => JSString "boolean"
  | Some NullLiteral => JSString "null"
  | Some (Identifier name) =>
      if String.eqb name "undefined" then JSString "undefined"
      else JSUndefined (* [break], and the callback ends without [return] *)
  | Some _ => JSString "any"
  end.

(** [Array.from(set)[0]] *)
Definition firstOf (s : gset JSValue) : JSValue :=
  match elements s with
  | v :: _ => v
  | [] => JSUndefined
  end.

Definition deduceElementType (elements : list (option Node)) : JSValue :=
  if Nat.eqb (length elements) 0 then JSString "any"
  else
    let elementTypes : gset JSValue := list_to_set (map elementTypeOf elements) in
    if Nat.eqb (size elementTypes) 1 then firstOf elementTypes
    else JSString "any".

(** ** [deduceExpressionType] (lines 38-54) *)

Definition deduceExpressionType (expression : option Node) : Result TSType :=
  match expression with
  | Some (NumericLiteral _) => Return TSNumberKeyword
  | Some (StringLiteral _) => Return TSStringKeyword
  | Some (BooleanLiteral _) => Return TSBooleanKeyword
  | Some NullLiteral => Return TSNullKeyword
  | Some (Identifier name) =>
      if String.eqb name "undefined" then Return TSUndefinedKeyword
      else Return TSAnyKeyword
  | Some (ArrayExpression elements) =>
      let elementType := deduceElementType elements in
      match t_identifier elementType with
      | Return name => Return (TSArrayType (TSTypeReference name))
      | Raise e => Raise e
      end
  | _ => Return TSAnyKeyword
  end.

(** ** The visitors of [addTypeAnnotations] (lines 57-102)

    A visitor mutates the node it is given.  It returns the node as the
    mutation leaves it, and how it completed: after a [Throw] the
    assignments made before the exception are in the node, the later ones
    are not. *)

Definition anyAnnotation : TSTypeAnnotation := tsTypeAnnotation TSAnyKeyword.

Definition VariableDeclarator_visitor (id : Pattern) (init : option Node) : Node * completion :=
  match init with
  | Some expression =>
      match deduceExpressionType (Some expression) with
      | Return inferredType =>
          (VariableDeclarator (setTypeAnnotation (tsTypeAnnotation inferredType) id) init, Normal)
      | Raise e => (VariableDeclarator id init, Throw e)
      end
  | None => (VariableDeclarator (setTypeAnnotation anyAnnotation id) init, Normal)
  end.

(** [params.forEach(param => { param.typeAnnotation = ... })] *)
Definition annotateParams (params : list Pattern) : list Pattern :=
  map (setTypeAnnotation anyAnnotation) params.

(** [body.forEach(statement => { if (t.isReturnStatement(statement) &&
    statement.argument != null) returnType = deduceExpressionType(...) })],
    started with the current value of the variable [returnType]. *)
Fixpoint scanReturns (statements : list Node) (returnType : TSType) : Result TSType :=
  match statements with
  | [] => Return returnType
  | ReturnStatement (Some argument) :: rest =>
      match deduceExpressionType (Some argument) with
      | Return deduced => scanReturns rest deduced
      | Raise e => Raise e
      end
  | _ :: rest => scanReturns rest returnType
  end.

Definition FunctionDeclaration_visitor
  (params : list Pattern) (returnType : Slot) (body : list Node) : Node * completion :=
  let params := annotateParams params in
  match value returnType with
  | None =>
      let scanned :=
        if Nat.ltb 0 (length body) then scanReturns body TSVoidKeyword
        else Return TSVoidKeyword in
      match scanned with
      | Return type =>
          (FunctionDeclaration params (assign (tsTypeAnnotation type) returnType) body, Normal)
      | Raise e => (FunctionDeclaration params returnType body, Throw e)
      end
  | Some _ => (FunctionDeclaration params returnType body, Normal)
  end.

Definition ArrowFunctionExpression_visitor
  (params : list Pattern) (returnType : Slot) (body : Node) : Node * completion :=
  let params := annotateParams params in
  match value returnType with
  | None =>
      let scanned :=
        match body with
        | BlockStatement statements => scanReturns statements TSVoidKeyword
        | expression => deduceExpressionType (Some expression)
        end in
      match scanned with
      | Return type =>
          (ArrowFunctionExpression params (assign (tsTypeAnnotation type) returnType) body, Normal)
      | Raise e => (ArrowFunctionExpression params returnType body, Throw e)
      end
  | Some _ => (ArrowFunctionExpression params returnType body, Normal)
  end.

(** The visitor object passed to [babelTraverse]: the three handlers by node
    type, nothing for any other type. *)
Definition enter (node : Node) : Node * completion :=
  match node with
  | VariableDeclarator id init => VariableDeclarator_visitor id init
  | FunctionDeclaration params returnType body =>
      FunctionDeclaration_visitor params returnType body
  | ArrowFunctionExpression params returnType body =>
      ArrowFunctionExpression_visitor params returnType body
  | _ => (node, Normal)
  end.

(** ** [babelTraverse]

    Depth first: the handler of a node runs when the node is entered, then
    the children are traversed in order.  An exception stops the traversal
    where it is.  The recursion goes through the node the handler returned,
    so it is driven by [fuel]; [traverse_enough_fuel] below shows that the
    height of the tree is enough. *)

Definition Pass (A : Type) : Type := A -> option (A * completion).

Definition passOption {A} (p : Pass A) : Pass (option A) :=
  fun o =>
    match o with
    | None => Some (None, Normal)
    | Some a =>
        match p a with
        | Some (a', k) => Some (Some a', k)
        | None => None
        end
    end.

Section PassList.
Context {A : Type} (p : Pass A).

Fixpoint passList (l : list A) : option (list A * completion) :=
  match l with
  | [] => Some ([], Normal)
  | a :: rest =>
      match p a with
      | None => None
      | Some (a', Throw e) => Some (a' :: rest, Throw e)
      | Some (a', Normal) =>
          match passList rest with
          | None => None
          | Some (rest', k) => Some (a' :: rest', k)
          end
      end
  end.
End PassList.

(** First [a], then, unless [a] threw, [b]. *)
Definition passBoth {A B} (pa : Pass A) (pb : Pass B) : Pass (A * B) :=
  fun ab =>
    match pa (fst ab) with
    | None => None
    | Some (a', Throw e) => Some ((a', snd ab), Throw e)
    | Some (a', Normal) =>
        match pb (snd ab) with
        | None => None
        | Some (b', k) => Some ((a', b'), k)
        end
    end.

Definition rebuild {A B} (f : A -> B) (r : option (A * completion)) : option (B * completion) :=
  match r with
  | Some (a, k) => Some (f a, k)
  | None => None
  end.

Fixpoint traverse (fuel : nat) (node : Node) : option (Node * completion) :=
  match fuel with
  | 0 => None
  | S fuel =>
      match enter node with
      | (node, Throw e) => Some (node, Throw e)
      | (node, Normal) =>
          match node with
          | ArrayExpression elements =>
              rebuild ArrayExpression (passList (passOption (traverse fuel)) elements)
          | VariableDeclarator id init =>
              rebuild (fun c => VariableDeclarator (fst c) (snd c))
                (passBoth (traversePattern fuel) (passOption (traverse fuel)) (id, init))
          | FunctionDeclaration params returnType body =>
              rebuild (fun c => FunctionDeclaration (fst c) returnType (snd c))
                (passBoth (passList (traversePattern fuel)) (passList (traverse fuel))
                   (params, body))
          | ArrowFunctionExpression params returnType body =>
              rebuild (fun c => ArrowFunctionExpression (fst c) returnType (snd c))
                (passBoth (passList (traversePattern fuel)) (traverse fuel) (params, body))
          | FunctionExpression params returnType body =>
              rebuild (fun c => FunctionExpression (fst c) returnType (snd c))
                (passBoth (passList (traversePattern fuel)) (passList (traverse fuel))
                   (params, body))
          | BlockStatement body =>
              rebuild BlockStatement (passList (traverse fuel) body)
          | ReturnStatement argument =>
              rebuild ReturnStatement (passOption (traverse fuel) argument)
          | OtherNode kind children =>
              rebuild (OtherNode kind) (passList (passOption (traverse fuel)) children)
          | leaf => Some (leaf, Normal)
          end
      end
  end
with traversePattern (fuel : nat) (pattern : Pattern) : option (Pattern * completion) :=
  match fuel with
  | 0 => None
  | S fuel =>
      match pattern with
      | BindingIdentifier _ _ => Some (pattern, Normal)
      | AssignmentPattern target default annotation =>
          rebuild (fun c => AssignmentPattern (fst c) (snd c) annotation)
            (passBoth (traversePattern fuel) (traverse fuel) (target, default))
      | RestElement argument annotation =>
          rebuild (fun a => RestElement a annotation) (traversePattern fuel argument)
      | ArrayPattern elements annotation =>
          rebuild (fun els => ArrayPattern els annotation)
            (passList (passOption (traversePattern fuel)) elements)
      | ObjectPattern properties annotation =>
          rebuild (fun ps => ObjectPattern ps annotation)
            (passList (traversePattern fuel) properties)
      end
  end.

(** The height of a tree, counted in nodes and patterns. *)
Section MaxOf.
Context {A : Type} (f : A -> nat).

Definition maxOf (l : list A) : nat := fold_right (fun a m => Nat.max (f a) m) 0 l.

Definition maxOfOption (o : option A) : nat :=
  match o with Some a => f a | None => 0 end.
End MaxOf.

Fixpoint height (node : Node) : nat :=
  match node with
  | ArrayExpression elements => S (maxOf (maxOfOption height) elements)
  | VariableDeclarator id init => S (Nat.max (heightPattern id) (maxOfOption height init))
  | FunctionDeclaration params _ body
  | FunctionExpression params _ body =>
      S (Nat.max (maxOf heightPattern params) (maxOf height body))
  | ArrowFunctionExpression params _ body =>
      S (Nat.max (maxOf heightPattern params) (height body))
  | BlockStatement body => S (maxOf height body)
  | ReturnStatement argument => S (maxOfOption height argument)
  | OtherNode _ children => S (maxOf (maxOfOption height) children)
  | _ => 1
  end
with heightPattern (pattern : Pattern) : nat :=
  match pattern with
  | BindingIdentifier _ _ => 1
  | AssignmentPattern target default _ => S (Nat.max (heightPattern target) (height default))
  | RestElement argument _ => S (heightPattern argument)
  | ArrayPattern elements _ => S (maxOf (maxOfOption heightPattern) elements)
  | ObjectPattern properties _ => S (maxOf heightPattern properties)
  end.

(** [addTypeAnnotations(ast)].  [babelTraverse] without a scope accepts only
    a [File] or a [Program] as its root and throws on any other node.  The
    traversal gets the height of the tree as fuel, with which it returns
    ([addTypeAnnotations_traverse] below). *)
Definition addTypeAnnotations (ast : Node) : Node * completion :=
  match ast with
  | OtherNode File _ | OtherNode Program _ =>
      match traverse (height ast) ast with
      | Some result => result
      | None => (ast, Normal)
      end
  | _ =>
      (ast, Throw (Error "You must pass a scope and parentPath unless traversing a Program/File"))
  end.

(** ** Files (lines 111-130)

    The methods of strings and the functions of Node's [path] and [fs]
    modules that the source calls are written out as the language and Node
    document them; the parser and the generator are parameters. *)

(** A string as its characters, and back. *)
Definition chars (s : string) : list Ascii.ascii := String.list_ascii_of_string s.

Definition text (l : list Ascii.ascii) : string := String.string_of_list_ascii l.

(** [s.endsWith(suffix)] *)
Definition endsWith (s suffix : string) : bool :=
  bool_decide (chars suffix `suffix_of` chars s).

(** [s.includes(pattern)] *)
Fixpoint occursIn (pattern s : list Ascii.ascii) : bool :=
  bool_decide (pattern `prefix_of` s)
  || match s with
     | [] => false
     | _ :: rest => occursIn pattern rest
     end.

Definition includes (s pattern : string) : bool := occursIn (chars pattern) (chars s).

(** [s.replace(pattern, replacement)] for a string [pattern] and a
    [replacement] without [$]: the first occurrence is replaced. *)
Fixpoint replaceFirst (pattern replacement s : list Ascii.ascii) : list Ascii.ascii :=
  if bool_decide (pattern `prefix_of` s) then replacement ++ drop (length pattern) s
  else match s with
       | [] => []
       | c :: rest => c :: replaceFirst pattern replacement rest
       end.

Definition replace (s pattern replacement : string) : string :=
  text (replaceFirst (chars pattern) (chars replacement) (chars s)).

(** [path.join(dirPath, file)] of Node on POSIX, for an entry name and a
    directory path that [path.normalize] leaves as it is, up to a trailing
    separator (so not ".", and without "." or ".." segments). *)
Definition path_join (dirPath file : string) : string :=
  if bool_decide (dirPath = "") then file
  else if endsWith dirPath "/" then dirPath +:+ file
  else dirPath +:+ "/" +:+ file.

(** The path up to its last separator, and the name after it. *)
Fixpoint splitPath (path : list Ascii.ascii) : option (list Ascii.ascii * list Ascii.ascii) :=
  match path with
  | [] => None
  | c :: rest =>
      match splitPath rest with
      | Some (directory, name) => Some (c :: directory, name)
      | None => if Ascii.eqb c "/"%char then Some ([], rest) else None
      end
  end.

Definition parentOf (path : string) : string * string :=
  match splitPath (chars path) with
  | Some ([], name) => ("/", text name)
  | Some (directory, name) => (text directory, text name)
  | None => (".", path)
  end.

(** The file system: what is at a path, a regular file with its content or
    a directory with the names it lists. *)
Inductive Entry : Type :=
| RegularFile (content : string)
| Directory (names : list string).

(** [stats.isFile()] *)
Definition isFile (stats : Entry) : bool :=
  match stats with
  | RegularFile _ => true
  | Directory _ => false
  end.

(** [fs.readdirSync(path)], [fs.statSync(path)] and
    [fs.readFileSync(path, 'utf8')] *)
Definition readdirSync (files : gmap string Entry) (path : string) : Result (list string) :=
  match files !! path with
  | Some (Directory names) => Return names
  | Some (RegularFile _) => Raise (SystemError "ENOTDIR")
  | None => Raise (SystemError "ENOENT")
  end.

Definition statSync (files : gmap string Entry) (path : string) : Result Entry :=
  match files !! path with
  | Some stats => Return stats
  | None => Raise (SystemError "ENOENT")
  end.

Definition readFileSync (files : gmap string Entry) (path : string) : Result string :=
  match files !! path with
  | Some (RegularFile content) => Return content
  | Some (Directory _) => Raise (SystemError "EISDIR")
  | None => Raise (SystemError "ENOENT")
  end.

(** [fs.writeFileSync(path, data)]: a file that is there is replaced; a new
    file is entered in its directory, which has to be there. *)
Definition writeFileSync (files : gmap string Entry) (path data : string)
  : Result (gmap string Entry) :=
  match files !! path with
  | Some (Directory _) => Raise (SystemError "EISDIR")
  | Some (RegularFile _) => Return (<[path := RegularFile data]> files)
  | None =>
      match files !! (fst (parentOf path)) with
      | Some (Directory names) =>
          Return (<[path := RegularFile data]>
                    (<[fst (parentOf path) := Directory (names ++ [snd (parentOf path)])]> files))
      | Some (RegularFile _) => Raise (SystemError "ENOTDIR")
      | None => Raise (SystemError "ENOENT")
      end
  end.

(** What the program acts on: the files, and the lines written by
    [console.log], each given by the two paths of its message. *)
Record World : Type := mkWorld { files : gmap string Entry; console : list (string * string) }.

Section Transform.
(** [babelParser.parse] with the options of [parseJavaScript], and
    [generate(ast, {}, '').code]. *)
Variable parse : string -> Result Node.
Variable generate : Node -> string.

Definition parseJavaScript (code : string) : Result Node := parse code.

Definition generateTypeScript (ast : Node) : string := generate ast.

Definition transformJsFileToTsFile (jsFilePath : string) (w : World) : World * completion :=
  match readFileSync (files w) jsFilePath with
  | Raise e => (w, Throw e)
  | Return jsCode =>
      match parseJavaScript jsCode with
      | Raise e => (w, Throw e)
      | Return ast =>
          match addTypeAnnotations ast with
          | (_, Throw e) => (w, Throw e)
          | (ast, Normal) =>
              let tsCode := generateTypeScript ast in
              let tsFilePath := replace jsFilePath ".js" ".ts" in
              match writeFileSync (files w) tsFilePath tsCode with
              | Raise e => (w, Throw e)
              | Return files' =>
                  (mkWorld files' (console w ++ [(jsFilePath, tsFilePath)]), Normal)
              end
          end
      end
  end.

(** The callback of [files.forEach] in [transformJsFilesInDir]. *)
Definition transformEntry (dirPath file : string) (w : World) : World * completion :=
  let filePath := path_join dirPath file in
  match statSync (files w) filePath with
  | Raise e => (w, Throw e)
  | Return stats =>
      if isFile stats && endsWith filePath ".js" then transformJsFileToTsFile filePath w
      else (w, Normal)
  end.

Fixpoint forEachEntry (dirPath : string) (names : list string) (w : World)
  : World * completion :=
  match names with
  | [] => (w, Normal)
  | file :: rest =>
      match transformEntry dirPath file w with
      | (w, Normal) => forEachEntry dirPath rest w
      | (w, Throw e) => (w, Throw e)
      end
  end.

Definition transformJsFilesInDir (dirPath : string) (w : World) : World * completion :=
  match readdirSync (files w) dirPath with
  | Raise e => (w, Throw e)
  | Return names => forEachEntry dirPath names w
  end.
End Transform.

(** * Part II: what the properties are stated with *)

(** ** Shapes of expressions *)

Definition scalarShapes : list string :=
  ["NumericLiteral"; "StringLiteral"; "BooleanLiteral"; "NullLiteral"; "Identifier";
   "ArrayExpression"].

(** The element of an array literal that [deduceElementType] mishandles: an
    identifier with a name other than "undefined". *)
Definition escapes (el : option Node) : bool :=
  match el with
  | Some (Identifier name) => negb (String.eqb name "undefined")
  | _ => false
  end.

(** ** The unification rule of the specification

    The rule in the specification's words, to compare [deduceElementType]
    with: every element has a scalar tag, and the element type is the tag
    when exactly one distinct tag occurs, [any] otherwise. *)

Inductive ScalarTag : Type :=
| TagNull | TagNumber | TagString | TagBoolean | TagUndefined | TagAny.

Global Instance ScalarTag_eq_dec : EqDecision ScalarTag.
Proof. solve_decision. Defined.

Definition tagName (tag : ScalarTag) : string :=
  match tag with
  | TagNull => "null" | TagNumber => "number" | TagString => "string"
  | TagBoolean => "boolean" | TagUndefined => "undefined" | TagAny => "any"
  end.

Definition specElementTag (el : option Node) : ScalarTag :=
  match el with
  | None => TagNull
  | Some (NumericLiteral _) => TagNumber
  | Some (StringLiteral _) => TagString
  | Some (BooleanLiteral _) => TagBoolean
  | Some NullLiteral => TagNull
  | Some (Identifier name) => if String.eqb name "undefined" then TagUndefined else TagAny
  | Some _ => TagAny
  end.

Definition specElementType (elements : list (option Node)) : ScalarTag :=
  match remove_dups (map specElementTag elements) with
  | [tag] => tag
  | _ => TagAny
  end.

(** ** Reading the tree *)

(** [node.id.typeAnnotation] of a declarator. *)
Definition declaredType (node : Node) : option TSTypeAnnotation :=
  match node with
  | VariableDeclarator id _ => value (typeAnnotationOf id)
  | _ => None
  end.

(** [node.params] and [node.returnType] of a function. *)
Definition paramsOf (node : Node) : list Pattern :=
  match node with
  | FunctionDeclaration params _ _ | ArrowFunctionExpression params _ _
  | FunctionExpression params _ _ => params
  | _ => []
  end.

Definition returnTypeOf (node : Node) : option Slot :=
  match node with
  | FunctionDeclaration _ returnType _ | ArrowFunctionExpression _ returnType _
  | FunctionExpression _ returnType _ => Some returnType
  | _ => None
  end.

(** [t.isReturnStatement(statement) && statement.argument != null] *)
Definition returnArgument (statement : Node) : option Node :=
  match statement with
  | ReturnStatement (Some argument) => Some argument
  | _ => None
  end.

(** The arguments of the top-level return statements of a body, in order. *)
Definition returnArguments (statements : list Node) : list Node :=
  omap returnArgument statements.

Definition deduces (expression : Node) : Prop :=
  exists type, deduceExpressionType (Some expression) = Return type.

(** [t.isBlockStatement(node)] *)
Definition isBlockStatement (node : Node) : bool :=
  match node with
  | BlockStatement _ => true
  | _ => false
  end.

(** The return type the specification asks for: [void], or the deducer's
    result on the argument of the last top-level return statement. *)
Definition lastReturnType (statements : list Node) : Result TSType :=
  match last (returnArguments statements) with
  | Some argument => deduceExpressionType (Some argument)
  | None => Return TSVoidKeyword
  end.

(** [t.isFile(ast) || t.isProgram(ast)] *)
Definition isRoot (ast : Node) : bool :=
  match ast with
  | OtherNode File _ | OtherNode Program _ => true
  | _ => false
  end.

(** The slots of a node itself: its return type and the annotations of its
    parameters, or the annotation of the identifier it declares. *)
Definition ownSlots (node : Node) : list Slot :=
  match node with
  | VariableDeclarator id _ => [typeAnnotationOf id]
  | FunctionDeclaration params returnType _ | ArrowFunctionExpression params returnType _
  | FunctionExpression params returnType _ => returnType :: map typeAnnotationOf params
  | _ => []
  end.

Definition visitedTypes : list string :=
  ["VariableDeclarator"; "FunctionDeclaration"; "ArrowFunctionExpression"].

(** Every result of [p] is a result of [p']. *)
Definition refines {A} (p p' : Pass A) : Prop :=
  forall a result, p a = Some result -> p' a = Some result.

(** ** What the pass leaves behind *)

Definition allOption {A} (f : A -> bool) (o : option A) : bool :=
  match o with
  | Some a => f a
  | None => true
  end.

(** The property is there. *)
Definition populated (s : Slot) : bool :=
  match value s with
  | Some _ => true
  | None => false
  end.

(** Every declarator and every function of the tree has its annotations:
    the identifier of a declarator, the parameters and the return type of a
    function declaration and of an arrow function and, when
    [functionExpressions] is set, those of a function expression too. *)
Fixpoint annotated (functionExpressions : bool) (node : Node) : bool :=
  match node with
  | ArrayExpression elements => forallb (allOption (annotated functionExpressions)) elements
  | VariableDeclarator id init =>
      populated (typeAnnotationOf id)
      && annotatedPattern functionExpressions id
      && allOption (annotated functionExpressions) init
  | FunctionDeclaration params returnType body =>
      forallb (fun p => populated (typeAnnotationOf p)) params
      && populated returnType
      && forallb (annotatedPattern functionExpressions) params
      && forallb (annotated functionExpressions) body
  | ArrowFunctionExpression params returnType body =>
      forallb (fun p => populated (typeAnnotationOf p)) params
      && populated returnType
      && forallb (annotatedPattern functionExpressions) params
      && annotated functionExpressions body
  | FunctionExpression params returnType body =>
      (if functionExpressions
       then forallb (fun p => populated (typeAnnotationOf p)) params && populated returnType
       else true)
      && forallb (annotatedPattern functionExpressions) params
      && forallb (annotated functionExpressions) body
  | BlockStatement body => forallb (annotated functionExpressions) body
  | ReturnStatement argument => allOption (annotated functionExpressions) argument
  | OtherNode _ children => forallb (allOption (annotated functionExpressions)) children
  | _ => true
  end
with annotatedPattern (functionExpressions : bool) (pattern : Pattern) : bool :=
  match pattern with
  | BindingIdentifier _ _ => true
  | AssignmentPattern target default _ =>
      annotatedPattern functionExpressions target && annotated functionExpressions default
  | RestElement argument _ => annotatedPattern functionExpressions argument
  | ArrayPattern elements _ =>
      forallb (allOption (annotatedPattern functionExpressions)) elements
  | ObjectPattern properties _ => forallb (annotatedPattern functionExpressions) properties
  end.

(** No slot of the tree has been written more than [bound] times. *)
Fixpoint maxWrites (bound : nat) (node : Node) : bool :=
  match node with
  | ArrayExpression elements => forallb (allOption (maxWrites bound)) elements
  | VariableDeclarator id init =>
      maxWritesPattern bound id && allOption (maxWrites bound) init
  | FunctionDeclaration params returnType body
  | FunctionExpression params returnType body =>
      Nat.leb (writes returnType) bound
      && forallb (maxWritesPattern bound) params
      && forallb (maxWrites bound) body
  | ArrowFunctionExpression params returnType body =>
      Nat.leb (writes returnType) bound
      && forallb (maxWritesPattern bound) params
      && maxWrites bound body
  | BlockStatement body => forallb (maxWrites bound) body
  | ReturnStatement argument => allOption (maxWrites bound) argument
  | OtherNode _ children => forallb (allOption (maxWrites bound)) children
  | _ => true
  end
with maxWritesPattern (bound : nat) (pattern : Pattern) : bool :=
  Nat.leb (writes (typeAnnotationOf pattern)) bound
  && match pattern with
     | BindingIdentifier _ _ => true
     | AssignmentPattern target default _ =>
         maxWritesPattern bound target && maxWrites bound default
     | RestElement argument _ => maxWritesPattern bound argument
     | ArrayPattern elements _ => forallb (allOption (maxWritesPattern bound)) elements
     | ObjectPattern properties _ => forallb (maxWritesPattern bound) properties
     end.

(** The same below the pattern itself. *)
Definition innerWrites (bound : nat) (pattern : Pattern) : bool :=
  match pattern with
  | BindingIdentifier _ _ => true
  | AssignmentPattern target default _ =>
      maxWritesPattern bound target && maxWrites bound default
  | RestElement argument _ => maxWritesPattern bound argument
  | ArrayPattern elements _ => forallb (allOption (maxWritesPattern bound)) elements
  | ObjectPattern properties _ => forallb (maxWritesPattern bound) properties
  end.

(** A tree as the parser gives it: the pass has written nothing yet. *)
Definition fresh (node : Node) : bool := maxWrites 0 node.

(** A pattern the visitor may have written once, with nothing written below
    it. *)
Definition writtenOnce (pattern : Pattern) : bool :=
  Nat.leb (writes (typeAnnotationOf pattern)) 1 && innerWrites 0 pattern.

(** ** Paths and files *)

(** What [path.join] puts in front of the name. *)
Definition joinPrefix (dirPath : string) : list ascii :=
  if bool_decide (dirPath = "") then []
  else if endsWith dirPath "/" then chars dirPath
  else chars dirPath ++ ["/"%char].

(** What is at a path stays there, as a file or as a directory. *)
Definition extends (before after : gmap string Entry) : Prop :=
  forall path entry, before !! path = Some entry ->
    exists entry', after !! path = Some entry' /\ isFile entry' = isFile entry.

(** The regular files directly inside the directory whose names end in
    ".js": the entries of the listing the specification takes as input. *)
Definition inputFiles (fs : gmap string Entry) (dirPath : string) (names : list string)
  : list string :=
  List.filter
    (fun file =>
       match fs !! path_join dirPath file with
       | Some (RegularFile _) => endsWith file ".js"
       | _ => false
       end)
    names.

(** The line logged for an input: its path and the path written. *)
Definition logged (dirPath file : string) : string * string :=
  (path_join dirPath file, replace (path_join dirPath file) ".js" ".ts").

(** ** Sample inputs *)

(** [const a = [x];] *)
Definition unknownArrayProgram : Node :=
  OtherNode File
    [Some (OtherNode Program
       [Some (OtherNode VariableDeclaration
          [Some (VariableDeclarator (BindingIdentifier "a" (parsed None))
                   (Some (ArrayExpression [Some (Identifier "x")])))])])].

(** [const f = function (a) { return 1; };] *)
Definition functionExpressionProgram : Node :=
  OtherNode File
    [Some (OtherNode Program
       [Some (OtherNode VariableDeclaration
          [Some (VariableDeclarator (BindingIdentifier "f" (parsed None))
             (Some (FunctionExpression [BindingIdentifier "a" (parsed None)] (parsed None)
                [ReturnStatement (Some (NumericLiteral "1"))])))])])].

(** [const x = 5; let y; function f(a, b) { return 1; }
     const g = (x) => [x, 1]; const h = function (a) { return 1; };] *)
Definition sampleProgram : Node :=
  OtherNode File
    [Some (OtherNode Program
       [Some (OtherNode VariableDeclaration
          [Some (VariableDeclarator (BindingIdentifier "x" (parsed None))
                   (Some (NumericLiteral "5")))]);
        Some (OtherNode VariableDeclaration
          [Some (VariableDeclarator (BindingIdentifier "y" (parsed None)) None)]);
        Some (FunctionDeclaration
                [BindingIdentifier "a" (parsed None); BindingIdentifier "b" (parsed None)]
                (parsed None) [ReturnStatement (Some (NumericLiteral "1"))]);
        Some (OtherNode VariableDeclaration
          [Some (VariableDeclarator (BindingIdentifier "g" (parsed None))
             (Some (ArrowFunctionExpression [BindingIdentifier "x" (parsed None)] (parsed None)
                (ArrayExpression [Some (Identifier "x"); Some (NumericLiteral "1")]))))]);
        Some (OtherNode VariableDeclaration
          [Some (VariableDeclarator (BindingIdentifier "h" (parsed None))
             (Some (FunctionExpression [BindingIdentifier "a" (parsed None)] (parsed None)
                [ReturnStatement (Some (NumericLiteral "1"))])))])])].

(** A directory [vendor/chart.js] with the file [a.js], next to a directory
    [vendor/chart.ts]. *)
Definition chartFiles : gmap string Entry :=
  <["vendor" := Directory ["chart.js"; "chart.ts"]]>
    (<["vendor/chart.js" := Directory ["a.js"]]>
       (<["vendor/chart.js/a.js" := RegularFile "const x = 5;"]>
          (<["vendor/chart.ts" := Directory []]> ∅))).

(** A directory [src] with [a.js], [notes.txt], a directory [lib.js] and an
    older [a.ts]. *)
Definition srcFiles : gmap string Entry :=
  <["src" := Directory ["a.js"; "notes.txt"; "lib.js"; "a.ts"]]>
    (<["src/a.js" := RegularFile "const x = 5;"]>
       (<["src/notes.txt" := RegularFile "hello"]>
          (<["src/lib.js" := Directory []]>
             (<["src/a.ts" := RegularFile "old"]> ∅)))).

(** The same without the directory [vendor/chart.ts]. *)
Definition chartFilesAlone : gmap string Entry :=
  <["vendor" := Directory ["chart.js"]]>
    (<["vendor/chart.js" := Directory ["a.js"]]>
       (<["vendor/chart.js/a.js" := RegularFile "const x = 5;"]> ∅)).

(** Stand-ins for the parser and the generator in the examples. *)
Definition sampleParse (code : string) : Result Node :=
  if String.eqb code "const x = 5;"
  then Return (OtherNode File
                 [Some (OtherNode Program
                    [Some (OtherNode VariableDeclaration
                       [Some (VariableDeclarator (BindingIdentifier "x" (parsed None))
                                (Some (NumericLiteral "5")))])])])
  else Raise (SyntaxError "Unexpected token").

Definition sampleGenerate (ast : Node) : string :=
  match ast with
  | OtherNode File
      [Some (OtherNode Program
         [Some (OtherNode VariableDeclaration
            [Some (VariableDeclarator
                     (BindingIdentifier "x" {| value := Some (tsTypeAnnotation TSNumberKeyword) |})
                     (Some (NumericLiteral "5")))])])] => "const x: number = 5;"
  | _ => ""
  end.

(** ** The results of the callback of [deduceElementType] *)

(** The strings the callback and [deduceElementType] return. *)
Definition tagNames : list string :=
  ["any"; "null"; "number"; "string"; "boolean"; "undefined"].

(** ** The tree with its slots changed *)

(** The tree with [f] applied to every annotation slot, and nothing else
    changed. *)
Fixpoint mapSlots (f : Slot -> Slot) (node : Node) : Node :=
  match node with
  | ArrayExpression elements => ArrayExpression (map (option_map (mapSlots f)) elements)
  | VariableDeclarator id init =>
      VariableDeclarator (mapSlotsPattern f id) (option_map (mapSlots f) init)
  | FunctionDeclaration params returnType body =>
      FunctionDeclaration (map (mapSlotsPattern f) params) (f returnType)
        (map (mapSlots f) body)
  | ArrowFunctionExpression params returnType body =>
      ArrowFunctionExpression (map (mapSlotsPattern f) params) (f returnType)
        (mapSlots f body)
  | FunctionExpression params returnType body =>
      FunctionExpression (map (mapSlotsPattern f) params) (f returnType)
        (map (mapSlots f) body)
  | BlockStatement body => BlockStatement (map (mapSlots f) body)
  | ReturnStatement argument => ReturnStatement (option_map (mapSlots f) argument)
  | OtherNode kind children => OtherNode kind (map (option_map (mapSlots f)) children)
  | leaf => leaf
  end
with mapSlotsPattern (f : Slot -> Slot) (pattern : Pattern) : Pattern :=
  match pattern with
  | BindingIdentifier name annotation => BindingIdentifier name (f annotation)
  | AssignmentPattern target default annotation =>
      AssignmentPattern (mapSlotsPattern f target) (mapSlots f default) (f annotation)
  | RestElement argument annotation =>
      RestElement (mapSlotsPattern f argument) (f annotation)
  | ArrayPattern elements annotation =>
      ArrayPattern (map (option_map (mapSlotsPattern f)) elements) (f annotation)
  | ObjectPattern properties annotation =>
      ObjectPattern (map (mapSlotsPattern f) properties) (f annotation)
  end.

(** The tree without any annotation: what the parser would give for the
    same program text with the annotations left out. *)
Definition unannotated (node : Node) : Node := mapSlots (fun _ => mkSlot None 0) node.

(** The tree with its annotations and the write counters back at zero: the
    tree as the generator sees it. *)
Definition resetWrites (s : Slot) : Slot := mkSlot (value s) 0.

Definition annotations (node : Node) : Node := mapSlots resetWrites node.

(** ** When the pass completes *)

(** The traversal returned, with a normal completion. *)
Definition completes {X} (r : option (X * completion)) : Prop :=
  exists x, r = Some (x, Normal).

(** The deducer returns on the expression. *)
Definition deducesb (expression : Node) : bool :=
  match deduceExpressionType (Some expression) with
  | Return _ => true
  | Raise _ => false
  end.

(** No handler of the pass throws anywhere in the tree: the deducer returns
    on the initializer of every declarator and, for every function
    declaration and arrow function without a return type, on the argument
    of every top-level return statement of its body, or on its body when
    that is an expression. *)
Fixpoint safe (node : Node) : bool :=
  match node with
  | ArrayExpression elements => forallb (allOption safe) elements
  | VariableDeclarator id init =>
      allOption deducesb init && safePattern id && allOption safe init
  | FunctionDeclaration params returnType body =>
      (populated returnType || forallb deducesb (returnArguments body))
      && forallb safePattern params && forallb safe body
  | ArrowFunctionExpression params returnType body =>
      (populated returnType
       || match body with
          | BlockStatement statements => forallb deducesb (returnArguments statements)
          | expression => deducesb expression
          end)
      && forallb safePattern params && safe body
  | FunctionExpression params _ body => forallb safePattern params && forallb safe body
  | BlockStatement body => forallb safe body
  | ReturnStatement argument => allOption safe argument
  | OtherNode _ children => forallb (allOption safe) children
  | _ => true
  end
with safePattern (pattern : Pattern) : bool :=
  match pattern with
  | BindingIdentifier _ _ => true
  | AssignmentPattern target default _ => safePattern target && safe default
  | RestElement argument _ => safePattern argument
  | ArrayPattern elements _ => forallb (allOption safePattern) elements
  | ObjectPattern properties _ => forallb safePattern properties
  end.

(** ** The annotations of the tree the pass returns *)

Global Instance TSType_eq_dec : EqDecision TSType.
Proof. solve_decision. Defined.

Global Instance TSTypeAnnotation_eq_dec : EqDecision TSTypeAnnotation.
Proof. solve_decision. Defined.

(** The annotation the declarator visitor writes beside the initializer. *)
Definition declaration (init : option Node) : option TSTypeAnnotation :=
  match init with
  | None => Some (tsTypeAnnotation TSAnyKeyword)
  | Some expression =>
      match deduceExpressionType (Some expression) with
      | Return type => Some (tsTypeAnnotation type)
      | Raise _ => None
      end
  end.

Definition isAny (pattern : Pattern) : bool :=
  bool_decide (value (typeAnnotationOf pattern) = Some (tsTypeAnnotation TSAnyKeyword)).

(** Everywhere in the tree, the identifier of a declarator carries the type
    the deducer gives for the initializer beside it, and the parameters of
    a function declaration or arrow function carry [any]. *)
Fixpoint declaredAsDeduced (node : Node) : bool :=
  match node with
  | ArrayExpression elements => forallb (allOption declaredAsDeduced) elements
  | VariableDeclarator id init =>
      bool_decide (value (typeAnnotationOf id) = declaration init)
      && declaredInPattern id && allOption declaredAsDeduced init
  | FunctionDeclaration params _ body =>
      forallb isAny params && forallb declaredInPattern params
      && forallb declaredAsDeduced body
  | ArrowFunctionExpression params _ body =>
      forallb isAny params && forallb declaredInPattern params && declaredAsDeduced body
  | FunctionExpression params _ body =>
      forallb declaredInPattern params && forallb declaredAsDeduced body
  | BlockStatement body => forallb declaredAsDeduced body
  | ReturnStatement argument => allOption declaredAsDeduced argument
  | OtherNode _ children => forallb (allOption declaredAsDeduced) children
  | _ => true
  end
with declaredInPattern (pattern : Pattern) : bool :=
  match pattern with
  | BindingIdentifier _ _ => true
  | AssignmentPattern target default _ => declaredInPattern target && declaredAsDeduced default
  | RestElement argument _ => declaredInPattern argument
  | ArrayPattern elements _ => forallb (allOption declaredInPattern) elements
  | ObjectPattern properties _ => forallb declaredInPattern properties
  end.

(** A directory [src] whose second file does not parse. *)
Definition brokenFiles : gmap string Entry :=
  <["src" := Directory ["a.js"; "b.js"; "c.js"]]>
    (<["src/a.js" := RegularFile "const x = 5;"]>
       (<["src/b.js" := RegularFile "const = ;"]>
          (<["src/c.js" := RegularFile "const x = 5;"]> ∅))).

(** A file [notes] with no extension, and a directory [docs] with no
    JavaScript file. *)
Definition notesFiles : gmap string Entry :=
  <["notes" := RegularFile "const x = 5;"]>
    (<["docs" := Directory ["readme.md"; "img"]]>
       (<["docs/readme.md" := RegularFile "const = ;"]>
          (<["docs/img" := Directory []]> ∅))).

(** * Part III: properties *)

(** ** The expression type deducer *)

Example deduce_empty_array :
  deduceExpressionType (Some (ArrayExpression [])) = Return (TSArrayType (TSTypeReference "any")).
Proof. reflexivity. Qed.

Example deduce_numbers :
  deduceExpressionType
    (Some (ArrayExpression [Some (NumericLiteral "1"); Some (NumericLiteral "2"); Some (NumericLiteral "3")]))
  = Return (TSArrayType (TSTypeReference "number")).
Proof. vm_compute. reflexivity. Qed.

Example deduce_unknown_identifier :
  deduceExpressionType (Some (ArrayExpression [Some (Identifier "x")]))
  = Raise (TypeError "Property name of Identifier expected type of string but got undefined").
Proof. vm_compute. reflexivity. Qed.

Lemma otherKindName_not_scalar (k : OtherKind) : otherKindName k ∉ scalarShapes.
Proof.
  unfold scalarShapes. rewrite !not_elem_of_cons. destruct k; cbn; repeat split; try discriminate.
  all: apply not_elem_of_nil.
Qed.

(** C1. On every expression that is not an array literal the deducer
    returns the documented tag: [number], [string], [boolean] and [null] for
    the four literals, [undefined] for the identifier named "undefined", and
    [any] for every other shape, among them identifiers of another name,
    call expressions, object literals, template literals and binary
    expressions. *)
Theorem deduceExpressionType_non_array :
  (forall raw, deduceExpressionType (Some (NumericLiteral raw)) = Return TSNumberKeyword) /\
  (forall s, deduceExpressionType (Some (StringLiteral s)) = Return TSStringKeyword) /\
  (forall b, deduceExpressionType (Some (BooleanLiteral b)) = Return TSBooleanKeyword) /\
  deduceExpressionType (Some NullLiteral) = Return TSNullKeyword /\
  deduceExpressionType (Some (Identifier "undefined")) = Return TSUndefinedKeyword /\
  (forall name, name <> "undefined" ->
     deduceExpressionType (Some (Identifier name)) = Return TSAnyKeyword) /\
  (forall expression, nodeType expression ∉ scalarShapes ->
     deduceExpressionType (Some expression) = Return TSAnyKeyword) /\
  (forall kind children,
     kind ∈ [CallExpression; ObjectExpression; TemplateLiteral; BinaryExpression] ->
     deduceExpressionType (Some (OtherNode kind children)) = Return TSAnyKeyword).
Proof.
  repeat split; try reflexivity.
  - intros name Hname. cbn.
    destruct (String.eqb_spec name "undefined"); [contradiction | reflexivity].
  - intros expression Hshape.
    destruct expression; cbn in *; try reflexivity;
      exfalso; apply Hshape; unfold scalarShapes; set_solver.
Qed.

Lemma deduceExpressionType_non_array_witness :
  deduceExpressionType (Some (Identifier "total")) = Return TSAnyKeyword /\
  deduceExpressionType (Some (ReturnStatement None)) = Return TSAnyKeyword /\
  deduceExpressionType
    (Some (OtherNode CallExpression [Some (Identifier "f"); Some (NumericLiteral "1")]))
  = Return TSAnyKeyword.
Proof.
  destruct deduceExpressionType_non_array as (_ & _ & _ & _ & _ & Hid & Hother & Hnamed).
  split; [apply Hid; discriminate |].
  split; [apply Hother; cbn; unfold scalarShapes; rewrite !not_elem_of_cons;
          repeat split; try discriminate; apply not_elem_of_nil |].
  apply Hnamed. apply list_elem_of_here.
Defined.

(** The deducer with no expression at all. *)
Lemma deduceExpressionType_absent : deduceExpressionType None = Return TSAnyKeyword.
Proof. reflexivity. Qed.

(** *** Array literals *)

Lemma elementTypeOf_escapes (el : option Node) :
  elementTypeOf el = JSUndefined <-> escapes el = true.
Proof.
  destruct el as [[]|]; cbn; try (split; discriminate).
  destruct (String.eqb name "undefined"); cbn; split; (discriminate || reflexivity).
Qed.

Lemma list_to_set_constant (l : list JSValue) (v : JSValue) :
  l <> [] -> (forall w, w ∈ l -> w = v) -> list_to_set (C := gset JSValue) l = {[ v ]}.
Proof.
  intros Hne Hall. apply set_eq. intros w. rewrite elem_of_list_to_set, elem_of_singleton.
  split; [apply Hall |].
  intros ->. destruct l as [|w l]; [contradiction |].
  rewrite (Hall w); [apply list_elem_of_here | apply list_elem_of_here].
Qed.

Lemma firstOf_singleton (v : JSValue) : firstOf {[ v ]} = v.
Proof. unfold firstOf. rewrite elements_singleton. reflexivity. Qed.

(** When every element of a non-empty array literal is such an identifier,
    [deduceElementType] returns [undefined], not a string. *)
Lemma deduceElementType_all_escape (elements : list (option Node)) :
  elements <> [] -> forallb escapes elements = true ->
  deduceElementType elements = JSUndefined.
Proof.
  intros Hne Hall. unfold deduceElementType.
  destruct elements as [|el rest]; [contradiction |]. cbn [length Nat.eqb].
  rewrite (list_to_set_constant _ JSUndefined).
  - rewrite size_singleton. cbn. apply firstOf_singleton.
  - discriminate.
  - intros w Hw. apply list_elem_of_fmap in Hw as (x & -> & Hx).
    apply elementTypeOf_escapes.
    apply Is_true_true in Hall. apply forallb_True in Hall.
    rewrite Forall_forall in Hall. apply Is_true_true. apply Hall, Hx.
Qed.

(** C2, at the failing input [[x]].  The callback maps the identifier [x]
    to [undefined], the set has one member, and [deduceElementType] returns
    [undefined] where the rule gives "any"; [t.identifier] rejects it, so
    [deduceExpressionType] raises instead of returning an array of [any]. *)
Theorem deduceElementType_unknown_identifier :
  elementTypeOf (Some (Identifier "x")) = JSUndefined /\
  deduceElementType [Some (Identifier "x")] = JSUndefined /\
  deduceExpressionType (Some (ArrayExpression [Some (Identifier "x")]))
    <> Return (TSArrayType (TSTypeReference "any")).
Proof.
  split; [reflexivity |]. split.
  - apply deduceElementType_all_escape; [discriminate | reflexivity].
  - cbn [deduceExpressionType].
    rewrite deduceElementType_all_escape; [discriminate | discriminate | reflexivity].
Qed.

(** At the input [[x]] the deducer throws a [TypeError]. *)
Lemma deduceExpressionType_raises :
  deduceExpressionType (Some (ArrayExpression [Some (Identifier "x")]))
  = Raise (TypeError "Property name of Identifier expected type of string but got undefined").
Proof.
  cbn [deduceExpressionType].
  rewrite deduceElementType_all_escape; [reflexivity | discriminate | reflexivity].
Qed.

(** C4, at the failing input [const a = [x];]: the deducer does not return
    a type tag for the initializer, it throws, and the exception ends the
    annotation pass with nothing annotated. *)
Theorem inference_raises :
  (forall type,
     deduceExpressionType (Some (ArrayExpression [Some (Identifier "x")])) <> Return type) /\
  addTypeAnnotations unknownArrayProgram
  = (unknownArrayProgram,
     Throw (TypeError "Property name of Identifier expected type of string but got undefined")).
Proof.
  split.
  - intros type. rewrite deduceExpressionType_raises. discriminate.
  - unfold addTypeAnnotations, unknownArrayProgram.
    cbn [height maxOf maxOfOption fold_right heightPattern Nat.max traverse enter passList
           passOption rebuild].
    unfold VariableDeclarator_visitor. rewrite deduceExpressionType_raises. reflexivity.
Qed.

Lemma tagName_inj (s t : ScalarTag) : tagName s = tagName t -> s = t.
Proof. destruct s, t; cbn; (reflexivity || discriminate). Qed.

Lemma elementTypeOf_spec (el : option Node) :
  escapes el = false -> elementTypeOf el = JSString (tagName (specElementTag el)).
Proof.
  destruct el as [[]|]; cbn; try reflexivity.
  destruct (String.eqb name "undefined"); cbn; [reflexivity | discriminate].
Qed.

Lemma existsb_escapes_false (elements : list (option Node)) (el : option Node) :
  existsb escapes elements = false -> el ∈ elements -> escapes el = false.
Proof.
  intros Hnone Hel. destruct (escapes el) eqn:E; [| reflexivity].
  assert (existsb escapes elements = true) as Hsome; [| congruence].
  apply existsb_exists. exists el. split; [apply list_elem_of_In, Hel | exact E].
Qed.

(** Away from the identifiers that escape the [switch], the code computes
    the rule of the specification. *)
Lemma deduceElementType_refines_unification (elements : list (option Node)) :
  existsb escapes elements = false ->
  deduceElementType elements = JSString (tagName (specElementType elements)).
Proof.
  intros Hnone. unfold deduceElementType, specElementType.
  destruct elements as [|el0 rest0]; [reflexivity |].
  cbn [length Nat.eqb]. set (els := el0 :: rest0) in *.
  set (f := fun tag => JSString (tagName tag)).
  assert (Hmap : forall v, v ∈ map elementTypeOf els <->
                           exists tag, tag ∈ map specElementTag els /\ v = f tag).
  { intros v. split.
    - intros (el & -> & Hel)%list_elem_of_fmap. exists (specElementTag el). split.
      + apply list_elem_of_fmap. eauto.
      + apply elementTypeOf_spec. eapply existsb_escapes_false; eauto.
    - intros (tag & (el & -> & Hel)%list_elem_of_fmap & ->).
      apply list_elem_of_fmap. exists el. split; [| exact Hel].
      symmetry. apply elementTypeOf_spec. eapply existsb_escapes_false; eauto. }
  destruct (remove_dups (map specElementTag els)) as [|t1 [|t2 more]] eqn:Hdups.
  - assert (specElementTag el0 ∈ remove_dups (map specElementTag els)) as Hin.
    { apply elem_of_remove_dups. apply list_elem_of_here. }
    rewrite Hdups in Hin. inversion Hin.
  - rewrite (list_to_set_constant _ (f t1)).
    + rewrite size_singleton. cbn [Nat.eqb]. apply firstOf_singleton.
    + discriminate.
    + intros w (tag & Htag & ->)%Hmap. f_equal.
      apply elem_of_remove_dups in Htag. rewrite Hdups in Htag.
      apply list_elem_of_singleton in Htag. congruence.
  - destruct (Nat.eqb_spec (size (list_to_set (C := gset JSValue) (map elementTypeOf els))) 1)
      as [Hsize|]; [exfalso | reflexivity].
    assert (f t1 = f t2) as Heq.
    { apply (size_singleton_inv _ _ _ Hsize); apply elem_of_list_to_set, Hmap.
      - exists t1. split; [| reflexivity]. apply elem_of_remove_dups. rewrite Hdups.
        apply list_elem_of_here.
      - exists t2. split; [| reflexivity]. apply elem_of_remove_dups. rewrite Hdups.
        apply list_elem_of_further, list_elem_of_here. }
    injection Heq as Heq. apply tagName_inj in Heq. subst t2.
    pose proof (NoDup_remove_dups (map specElementTag els)) as Hnd. rewrite Hdups in Hnd.
    apply NoDup_cons in Hnd as [Hnot _]. apply Hnot, list_elem_of_here.
Qed.

(** The examples of the specification. *)
Example deduce_array_examples :
  deduceExpressionType (Some (ArrayExpression []))
    = Return (TSArrayType (TSTypeReference "any")) /\
  deduceExpressionType
    (Some (ArrayExpression
             [Some (NumericLiteral "1"); Some (NumericLiteral "2"); Some (NumericLiteral "3")]))
    = Return (TSArrayType (TSTypeReference "number")) /\
  deduceExpressionType
    (Some (ArrayExpression [Some (StringLiteral "a"); Some (NumericLiteral "1")]))
    = Return (TSArrayType (TSTypeReference "any")) /\
  deduceExpressionType (Some (ArrayExpression [Some NullLiteral; Some NullLiteral]))
    = Return (TSArrayType (TSTypeReference "null")) /\
  deduceExpressionType (Some (ArrayExpression [Some (Identifier "undefined")]))
    = Return (TSArrayType (TSTypeReference "undefined")).
Proof.
  repeat split; cbn [deduceExpressionType];
    (rewrite deduceElementType_refines_unification; [reflexivity | reflexivity]).
Qed.

(** When the deducer throws: exactly on the non-empty array literals all of
    whose elements are identifiers with a name other than "undefined". *)
Lemma deduceElementType_undefined (elements : list (option Node)) :
  deduceElementType elements = JSUndefined ->
  elements <> [] /\ forallb escapes elements = true.
Proof.
  unfold deduceElementType. destruct elements as [|el0 rest0]; [discriminate |].
  cbn [length Nat.eqb]. set (els := el0 :: rest0).
  destruct (Nat.eqb_spec (size (list_to_set (C := gset JSValue) (map elementTypeOf els))) 1)
    as [Hsize|]; [| discriminate].
  intros Hfirst. split; [discriminate |].
  destruct (size_1_elem_of _ Hsize) as [v Hv]. apply leibniz_equiv in Hv.
  rewrite Hv, firstOf_singleton in Hfirst. subst v.
  apply Is_true_true, forallb_True, Forall_forall. intros el Hel.
  apply Is_true_true, elementTypeOf_escapes.
  assert (elementTypeOf el ∈ (list_to_set (map elementTypeOf els) : gset JSValue)) as Hin.
  { apply elem_of_list_to_set, list_elem_of_fmap. eauto. }
  rewrite Hv in Hin. apply elem_of_singleton in Hin. exact Hin.
Qed.

Lemma deduceExpressionType_raise_iff (expression : option Node) :
  (exists e, deduceExpressionType expression = Raise e) <->
  (exists elements, expression = Some (ArrayExpression elements) /\
                    elements <> [] /\ forallb escapes elements = true).
Proof.
  split.
  - intros [e He]. destruct expression as [[]|]; cbn in He; try discriminate.
    + destruct (String.eqb name "undefined"); discriminate.
    + exists elements. split; [reflexivity |].
      apply deduceElementType_undefined.
      destruct (deduceElementType elements); [reflexivity | discriminate].
  - intros (elements & -> & Hne & Hall). cbn [deduceExpressionType].
    rewrite deduceElementType_all_escape by assumption. cbn. eauto.
Qed.

(** ** The visitors *)

Lemma typeAnnotationOf_set (annotation : TSTypeAnnotation) (p : Pattern) :
  typeAnnotationOf (setTypeAnnotation annotation p) = assign annotation (typeAnnotationOf p).
Proof. destruct p; reflexivity. Qed.

(** C5. A declarator with an initializer on which the deducer returns a
    type gets that type on its identifier; a declarator without an
    initializer gets [any]. So [const x = 5;] declares [x] a [number] and
    [let y;] declares [y] as [any]. *)
Theorem VariableDeclarator_visitor_declares (id : Pattern) :
  (forall expression inferredType,
     deduceExpressionType (Some expression) = Return inferredType ->
     VariableDeclarator_visitor id (Some expression)
     = (VariableDeclarator (setTypeAnnotation (tsTypeAnnotation inferredType) id)
          (Some expression), Normal) /\
     declaredType (fst (VariableDeclarator_visitor id (Some expression)))
     = Some (tsTypeAnnotation inferredType)) /\
  VariableDeclarator_visitor id None
  = (VariableDeclarator (setTypeAnnotation (tsTypeAnnotation TSAnyKeyword) id) None, Normal) /\
  declaredType (fst (VariableDeclarator_visitor id None)) = Some (tsTypeAnnotation TSAnyKeyword) /\
  declaredType (fst (VariableDeclarator_visitor id (Some (NumericLiteral "5"))))
  = Some (tsTypeAnnotation TSNumberKeyword).
Proof.
  split; [| repeat split; cbn; rewrite typeAnnotationOf_set; reflexivity].
  intros expression inferredType Hdeduce. unfold VariableDeclarator_visitor.
  rewrite Hdeduce. split; [reflexivity |]. cbn. rewrite typeAnnotationOf_set. reflexivity.
Qed.

Lemma VariableDeclarator_visitor_declares_witness :
  declaredType
    (fst (VariableDeclarator_visitor (BindingIdentifier "names" (parsed None))
            (Some (ArrayExpression [Some (StringLiteral "a"); Some (StringLiteral "b")]))))
  = Some (tsTypeAnnotation (TSArrayType (TSTypeReference "string"))).
Proof.
  apply (VariableDeclarator_visitor_declares (BindingIdentifier "names" (parsed None))).
  cbn [deduceExpressionType].
  rewrite deduceElementType_refines_unification; reflexivity.
Defined.

(** C10. The write to the declared identifier is not guarded: whatever
    annotation the identifier carried, the visitor replaces it with the
    deduced type (or [any] without an initializer) and counts one more
    write. *)
Theorem VariableDeclarator_visitor_overwrites
  (id : Pattern) (init : option Node) (old : TSTypeAnnotation) (inferredType : TSType) :
  value (typeAnnotationOf id) = Some old ->
  match init with
  | Some expression => deduceExpressionType (Some expression)
  | None => Return TSAnyKeyword
  end = Return inferredType ->
  exists id',
    VariableDeclarator_visitor id init = (VariableDeclarator id' init, Normal) /\
    typeAnnotationOf id'
    = mkSlot (Some (tsTypeAnnotation inferredType)) (S (writes (typeAnnotationOf id))).
Proof.
  intros _ Hdeduce. unfold VariableDeclarator_visitor.
  destruct init as [expression|].
  - rewrite Hdeduce. eexists. split; [reflexivity |]. apply typeAnnotationOf_set.
  - injection Hdeduce as <-. eexists. split; [reflexivity |]. apply typeAnnotationOf_set.
Qed.

Lemma VariableDeclarator_visitor_overwrites_witness :
  exists id',
    VariableDeclarator_visitor
      (BindingIdentifier "x" (parsed (Some (tsTypeAnnotation TSStringKeyword))))
      (Some (NumericLiteral "5"))
    = (VariableDeclarator id' (Some (NumericLiteral "5")), Normal) /\
    typeAnnotationOf id' = mkSlot (Some (tsTypeAnnotation TSNumberKeyword)) 1.
Proof.
  apply (VariableDeclarator_visitor_overwrites
           (BindingIdentifier "x" (parsed (Some (tsTypeAnnotation TSStringKeyword))))
           (Some (NumericLiteral "5")) (tsTypeAnnotation TSStringKeyword) TSNumberKeyword);
    reflexivity.
Defined.

(** *** Return types *)

Lemma scanReturns_step (statement : Node) (rest : list Node) (returnType : TSType) :
  scanReturns (statement :: rest) returnType
  = match returnArgument statement with
    | Some argument =>
        match deduceExpressionType (Some argument) with
        | Return deduced => scanReturns rest deduced
        | Raise e => Raise e
        end
    | None => scanReturns rest returnType
    end.
Proof. destruct statement as [| | | | | | | | | | |[argument|]|]; reflexivity. Qed.

(** The loop keeps the result of the last return statement it meets. *)
Lemma scanReturns_last (statements : list Node) (returnType : TSType) :
  Forall deduces (returnArguments statements) ->
  scanReturns statements returnType
  = match last (returnArguments statements) with
    | Some argument => deduceExpressionType (Some argument)
    | None => Return returnType
    end.
Proof.
  revert returnType. induction statements as [|statement rest IH]; intros returnType Hall.
  - reflexivity.
  - rewrite scanReturns_step. unfold returnArguments in *. cbn [omap list_omap] in *.
    destruct (returnArgument statement) as [argument|].
    + apply Forall_cons in Hall as [[deduced Hdeduced] Hrest].
      rewrite Hdeduced, (IH deduced Hrest).
      change (omap returnArgument rest) with (returnArguments rest).
      destruct (returnArguments rest) as [|next more] eqn:Hargs.
      * cbn. symmetry. exact Hdeduced.
      * rewrite last_cons_cons.
        destruct (last (next :: more)) eqn:Hlast; [reflexivity |].
        apply last_None in Hlast. discriminate.
    + apply IH, Hall.
Qed.

(** A throw of the deducer on any of the scanned arguments ends the loop. *)
Lemma scanReturns_raise (statements : list Node) (returnType : TSType) :
  (exists e, scanReturns statements returnType = Raise e) <->
  Exists (fun argument => ~ deduces argument) (returnArguments statements).
Proof.
  revert returnType. induction statements as [|statement rest IH]; intros returnType.
  - cbn. split; [intros [e He]; discriminate | intros H; inversion H].
  - rewrite scanReturns_step. unfold returnArguments in *. cbn [omap list_omap].
    destruct (returnArgument statement) as [argument|]; [| apply IH].
    rewrite Exists_cons. unfold deduces at 1.
    destruct (deduceExpressionType (Some argument)) as [deduced|e].
    + rewrite IH. split; [tauto |]. intros [Hno|H]; [| exact H]. exfalso. apply Hno. eauto.
    + split; [| eauto]. intros _. left. intros [type Htype]. discriminate.
Qed.

(** C3. On a function declaration or arrow function without a return type,
    the visitor writes the deducer's result for the last top-level return
    statement that has an argument, [void] when there is none, and the
    deducer's result for the body of an arrow function whose body is an
    expression; the deducer is taken to return on the arguments it is given.
    A return type that is already there is left as it is. *)
Theorem visitor_return_type (params : list Pattern) (returnType : Slot) :
  (forall body,
     value returnType = None -> Forall deduces (returnArguments body) ->
     exists type,
       lastReturnType body = Return type /\
       FunctionDeclaration_visitor params returnType body
       = (FunctionDeclaration (annotateParams params)
            (assign (tsTypeAnnotation type) returnType) body, Normal)) /\
  (forall statements,
     value returnType = None -> Forall deduces (returnArguments statements) ->
     exists type,
       lastReturnType statements = Return type /\
       ArrowFunctionExpression_visitor params returnType (BlockStatement statements)
       = (ArrowFunctionExpression (annotateParams params)
            (assign (tsTypeAnnotation type) returnType) (BlockStatement statements), Normal)) /\
  (forall expression type,
     value returnType = None -> isBlockStatement expression = false ->
     deduceExpressionType (Some expression) = Return type ->
     ArrowFunctionExpression_visitor params returnType expression
     = (ArrowFunctionExpression (annotateParams params)
          (assign (tsTypeAnnotation type) returnType) expression, Normal)) /\
  (forall body,
     value returnType <> None ->
     FunctionDeclaration_visitor params returnType body
     = (FunctionDeclaration (annotateParams params) returnType body, Normal)) /\
  (forall body,
     value returnType <> None ->
     ArrowFunctionExpression_visitor params returnType body
     = (ArrowFunctionExpression (annotateParams params) returnType body, Normal)).
Proof.
  assert (Hscan : forall statements, Forall deduces (returnArguments statements) ->
            exists type, lastReturnType statements = Return type /\
                         scanReturns statements TSVoidKeyword = Return type).
  { intros statements Hall. rewrite (scanReturns_last _ _ Hall). unfold lastReturnType.
    destruct (last (returnArguments statements)) as [argument|] eqn:Hlast; [| eauto].
    assert (deduces argument) as [type Htype]; [| eauto].
    rewrite Forall_forall in Hall. apply Hall.
    apply last_Some_elem_of, Hlast. }
  repeat split.
  - intros body Hnone Hall. destruct (Hscan body Hall) as (type & Hlast & Hloop).
    exists type. split; [exact Hlast |]. unfold FunctionDeclaration_visitor.
    rewrite Hnone. destruct body; [| cbn [length Nat.ltb Nat.leb]; rewrite Hloop; reflexivity].
    cbn in *. injection Hloop as <-. reflexivity.
  - intros statements Hnone Hall.
    destruct (Hscan statements Hall) as (type & Hlast & Hloop).
    exists type. split; [exact Hlast |]. unfold ArrowFunctionExpression_visitor.
    rewrite Hnone, Hloop. reflexivity.
  - intros expression type Hnone Hblock Hdeduce. unfold ArrowFunctionExpression_visitor.
    rewrite Hnone. destruct expression; try discriminate Hblock; rewrite Hdeduce; reflexivity.
  - intros body Hsome. unfold FunctionDeclaration_visitor.
    destruct (value returnType); [reflexivity | contradiction].
  - intros body Hsome. unfold ArrowFunctionExpression_visitor.
    destruct (value returnType); [reflexivity | contradiction].
Qed.

(** [function g() { if (c) return "a"; return [1]; return 2; }] and
    [(x) => [true]], and a function that already says [: string]. *)
Lemma visitor_return_type_witness :
  (exists type,
     lastReturnType
       [OtherNode IfStatement
          [Some (Identifier "c"); Some (ReturnStatement (Some (StringLiteral "a"))); None];
        ReturnStatement (Some (ArrayExpression [Some (NumericLiteral "1")]));
        ReturnStatement (Some (NumericLiteral "2"))] = Return type /\
     FunctionDeclaration_visitor [] (parsed None)
       [OtherNode IfStatement
          [Some (Identifier "c"); Some (ReturnStatement (Some (StringLiteral "a"))); None];
        ReturnStatement (Some (ArrayExpression [Some (NumericLiteral "1")]));
        ReturnStatement (Some (NumericLiteral "2"))]
     = (FunctionDeclaration (annotateParams [])
          (assign (tsTypeAnnotation type) (parsed None))
          [OtherNode IfStatement
             [Some (Identifier "c"); Some (ReturnStatement (Some (StringLiteral "a"))); None];
           ReturnStatement (Some (ArrayExpression [Some (NumericLiteral "1")]));
           ReturnStatement (Some (NumericLiteral "2"))], Normal)) /\
  ArrowFunctionExpression_visitor [] (parsed None) (ArrayExpression [Some (BooleanLiteral true)])
  = (ArrowFunctionExpression (annotateParams [])
       (assign (tsTypeAnnotation (TSArrayType (TSTypeReference "boolean"))) (parsed None))
       (ArrayExpression [Some (BooleanLiteral true)]), Normal).
Proof.
  destruct (visitor_return_type [] (parsed None)) as (Hdeclaration & _ & Hexpression & _).
  split.
  - apply Hdeclaration; [reflexivity |].
    repeat constructor.
    + eexists. cbn [deduceExpressionType].
      rewrite deduceElementType_refines_unification; reflexivity.
    + eexists. reflexivity.
  - apply Hexpression; [reflexivity | reflexivity |].
    cbn [deduceExpressionType]. rewrite deduceElementType_refines_unification; reflexivity.
Defined.

(** The examples of the specification: [function f(a, b) { return 1; }],
    [function g() { if (c) return "a"; return 2; }], [(x) => 5] and
    [() => {}]. *)
Example visitor_examples :
  FunctionDeclaration_visitor
    [BindingIdentifier "a" (parsed None); BindingIdentifier "b" (parsed None)] (parsed None)
    [ReturnStatement (Some (NumericLiteral "1"))]
  = (FunctionDeclaration
       [BindingIdentifier "a" (mkSlot (Some (tsTypeAnnotation TSAnyKeyword)) 1);
        BindingIdentifier "b" (mkSlot (Some (tsTypeAnnotation TSAnyKeyword)) 1)]
       (mkSlot (Some (tsTypeAnnotation TSNumberKeyword)) 1)
       [ReturnStatement (Some (NumericLiteral "1"))], Normal) /\
  returnTypeOf
    (fst (FunctionDeclaration_visitor [] (parsed None)
            [OtherNode IfStatement
               [Some (Identifier "c"); Some (ReturnStatement (Some (StringLiteral "a"))); None];
             ReturnStatement (Some (NumericLiteral "2"))]))
  = Some (mkSlot (Some (tsTypeAnnotation TSNumberKeyword)) 1) /\
  returnTypeOf
    (fst (ArrowFunctionExpression_visitor [BindingIdentifier "x" (parsed None)] (parsed None)
            (NumericLiteral "5")))
  = Some (mkSlot (Some (tsTypeAnnotation TSNumberKeyword)) 1) /\
  returnTypeOf (fst (ArrowFunctionExpression_visitor [] (parsed None) (BlockStatement [])))
  = Some (mkSlot (Some (tsTypeAnnotation TSVoidKeyword)) 1).
Proof. repeat split. Qed.

(** The scan is over the whole body: a throw on an earlier return statement
    ends the visitor although the last one has a type.
    [function h() { return [x]; return 1; }] *)
Example visitor_throws_on_earlier_return :
  FunctionDeclaration_visitor [] (parsed None)
    [ReturnStatement (Some (ArrayExpression [Some (Identifier "x")]));
     ReturnStatement (Some (NumericLiteral "1"))]
  = (FunctionDeclaration [] (parsed None)
       [ReturnStatement (Some (ArrayExpression [Some (Identifier "x")]));
        ReturnStatement (Some (NumericLiteral "1"))],
     Throw (TypeError "Property name of Identifier expected type of string but got undefined")).
Proof.
  unfold FunctionDeclaration_visitor. cbn [value parsed length Nat.ltb Nat.leb scanReturns].
  rewrite deduceExpressionType_raises. reflexivity.
Qed.

(** C6. Both function visitors give every parameter the annotation [any],
    whatever the parameter is, whatever it carried and however the visitor
    completes; the write is counted on top of those already made, so a
    second run writes the parameters again. *)
Theorem visitor_params_any (params : list Pattern) (returnType : Slot) :
  (forall body,
     paramsOf (fst (FunctionDeclaration_visitor params returnType body))
     = map (setTypeAnnotation (tsTypeAnnotation TSAnyKeyword)) params) /\
  (forall body,
     paramsOf (fst (ArrowFunctionExpression_visitor params returnType body))
     = map (setTypeAnnotation (tsTypeAnnotation TSAnyKeyword)) params) /\
  Forall2 (fun before after =>
             typeAnnotationOf after
             = mkSlot (Some (tsTypeAnnotation TSAnyKeyword)) (S (writes (typeAnnotationOf before))))
    params (map (setTypeAnnotation (tsTypeAnnotation TSAnyKeyword)) params).
Proof.
  repeat split.
  - intros body. unfold FunctionDeclaration_visitor.
    destruct (value returnType); [reflexivity |].
    destruct (if Nat.ltb 0 (length body) then _ else _); reflexivity.
  - intros body. unfold ArrowFunctionExpression_visitor.
    destruct (value returnType); [reflexivity |].
    destruct (match body with BlockStatement _ => _ | _ => _ end); reflexivity.
  - apply Forall2_fmap_r, Forall_Forall2_diag, Forall_forall.
    intros p _. apply typeAnnotationOf_set.
Qed.

(** Running the visitor on its own output: the parameter is written a second
    time, the return type is not. *)
Example visitor_twice :
  let once := fst (FunctionDeclaration_visitor [BindingIdentifier "a" (parsed None)]
                     (parsed None) [ReturnStatement (Some (NumericLiteral "1"))]) in
  fst (enter once)
  = FunctionDeclaration [BindingIdentifier "a" (mkSlot (Some (tsTypeAnnotation TSAnyKeyword)) 2)]
      (mkSlot (Some (tsTypeAnnotation TSNumberKeyword)) 1)
      [ReturnStatement (Some (NumericLiteral "1"))].
Proof. reflexivity. Qed.

(** ** The traversal *)

Lemma VariableDeclarator_visitor_inv (id : Pattern) (init : option Node) :
  exists id' k,
    VariableDeclarator_visitor id init = (VariableDeclarator id' init, k) /\
    ((id' = id /\ exists e, k = Throw e) \/
     (k = Normal /\ exists annotation, id' = setTypeAnnotation annotation id)).
Proof.
  unfold VariableDeclarator_visitor. destruct init as [expression|].
  - destruct (deduceExpressionType (Some expression)); eauto 10.
  - eauto 10.
Qed.

Lemma FunctionDeclaration_visitor_inv
  (params : list Pattern) (returnType : Slot) (body : list Node) :
  exists returnType' k,
    FunctionDeclaration_visitor params returnType body
    = (FunctionDeclaration (annotateParams params) returnType' body, k) /\
    ((returnType' = returnType /\ (k = Normal -> value returnType <> None)) \/
     (k = Normal /\ value returnType = None /\
      exists annotation, returnType' = assign annotation returnType)).
Proof.
  unfold FunctionDeclaration_visitor. destruct (value returnType) eqn:Hvalue.
  - exists returnType, Normal. split; [reflexivity |]. left. split; [reflexivity |]. discriminate.
  - destruct (if Nat.ltb 0 (length body) then _ else _); eauto 10.
Qed.

Lemma ArrowFunctionExpression_visitor_inv
  (params : list Pattern) (returnType : Slot) (body : Node) :
  exists returnType' k,
    ArrowFunctionExpression_visitor params returnType body
    = (ArrowFunctionExpression (annotateParams params) returnType' body, k) /\
    ((returnType' = returnType /\ (k = Normal -> value returnType <> None)) \/
     (k = Normal /\ value returnType = None /\
      exists annotation, returnType' = assign annotation returnType)).
Proof.
  unfold ArrowFunctionExpression_visitor. destruct (value returnType) eqn:Hvalue.
  - exists returnType, Normal. split; [reflexivity |]. left. split; [reflexivity |]. discriminate.
  - destruct (match body with BlockStatement _ => _ | _ => _ end); eauto 10.
Qed.

(** *** The combinators *)

Section PassLemmas.
Context {A B : Type}.
Implicit Types (p : Pass A) (q : Pass B).

Lemma is_Some_rebuild (f : A -> B) (r : option (A * completion)) :
  is_Some r -> is_Some (rebuild f r).
Proof. intros [[a k] ->]. cbn. eauto. Qed.

Lemma rebuild_Some (f : A -> B) (r : option (A * completion)) b k :
  rebuild f r = Some (b, k) -> exists a, r = Some (a, k) /\ b = f a.
Proof. destruct r as [[a k']|]; cbn; [| discriminate]. intros [= <- <-]. eauto. Qed.

Lemma is_Some_passOption p (o : option A) :
  (forall a, o = Some a -> is_Some (p a)) -> is_Some (passOption p o).
Proof.
  destruct o as [a|]; cbn; [| eauto]. intros H.
  destruct (H a eq_refl) as [[a' k] ->]. eauto.
Qed.

Lemma is_Some_passList p (l : list A) :
  (forall a, a ∈ l -> is_Some (p a)) -> is_Some (passList p l).
Proof.
  induction l as [|a l IH]; intros H; cbn; [eauto |].
  destruct (H a) as [[a' [|e]] ->]; [apply list_elem_of_here | | eauto].
  destruct IH as [[l' k] ->]; [| eauto].
  intros b Hb. apply H, list_elem_of_further, Hb.
Qed.

Lemma is_Some_passBoth p q (a : A) (b : B) :
  is_Some (p a) -> is_Some (q b) -> is_Some (passBoth p q (a, b)).
Proof.
  intros [[a' [|e]] Ha] [[b' k] Hb]; unfold passBoth; cbn; rewrite Ha; [| eauto].
  rewrite Hb. eauto.
Qed.

(** What a result says about the elements: each was left alone or is the
    result of the pass on it, and after a normal completion each is the
    result of a pass that completed normally. *)
Lemma passOption_inv p (o o' : option A) k :
  passOption p o = Some (o', k) ->
  (o = None /\ o' = None /\ k = Normal) \/
  (exists a a', o = Some a /\ o' = Some a' /\ p a = Some (a', k)).
Proof.
  destruct o as [a|]; cbn.
  - destruct (p a) as [[a' k']|] eqn:Hp; [| discriminate]. intros [= <- <-]. eauto 10.
  - intros [= <- <-]. eauto.
Qed.

Lemma passList_inv p (l l' : list A) k :
  passList p l = Some (l', k) ->
  Forall2 (fun a a' => a' = a \/ exists k', p a = Some (a', k')) l l'.
Proof.
  revert l' k. induction l as [|a l IH]; intros l' k; cbn.
  - intros [= <- <-]. constructor.
  - destruct (p a) as [[a' [|e]]|] eqn:Hp; [| | discriminate].
    + destruct (passList p l) as [[rest' k']|] eqn:Hrest; [| discriminate].
      intros [= <- <-]. constructor; eauto.
    + intros [= <- <-]. constructor; [eauto |].
      apply Forall_Forall2_diag, Forall_forall. eauto.
Qed.

Lemma passList_normal p (l l' : list A) :
  passList p l = Some (l', Normal) -> Forall2 (fun a a' => p a = Some (a', Normal)) l l'.
Proof.
  revert l'. induction l as [|a l IH]; intros l'; cbn.
  - intros [= <-]. constructor.
  - destruct (p a) as [[a' [|e]]|] eqn:Hp; [| discriminate | discriminate].
    destruct (passList p l) as [[rest' k']|] eqn:Hrest; [| discriminate].
    intros [= <- ->]. constructor; eauto.
Qed.

Lemma passBoth_inv p q (a a' : A) (b b' : B) k :
  passBoth p q (a, b) = Some ((a', b'), k) ->
  (exists e, p a = Some (a', Throw e) /\ b' = b /\ k = Throw e) \/
  (p a = Some (a', Normal) /\ q b = Some (b', k)).
Proof.
  unfold passBoth. cbn.
  destruct (p a) as [[a1 [|e]]|]; [| | discriminate].
  - destruct (q b) as [[b1 k1]|]; [| discriminate]. intros [= <- <- <-]. eauto.
  - intros [= <- <- <-]. eauto.
Qed.
End PassLemmas.

(** *** Fuel *)

Lemma maxOf_le {A} (f : A -> nat) (l : list A) (a : A) : a ∈ l -> f a <= maxOf f l.
Proof.
  induction 1 as [a l|a b l _ IH]; cbn; [lia |]. unfold maxOf in IH. lia.
Qed.

Lemma maxOf_ext {A} (f g : A -> nat) (l : list A) :
  (forall a, f a = g a) -> maxOf f l = maxOf g l.
Proof. intros H. induction l as [|a l IH]; cbn; [reflexivity |]. unfold maxOf in IH. rewrite H, IH. reflexivity. Qed.

Lemma maxOf_map {A} (f : A -> nat) (g : A -> A) (l : list A) :
  maxOf f (map g l) = maxOf (fun a => f (g a)) l.
Proof. induction l as [|a l IH]; cbn; [reflexivity |]. unfold maxOf in IH. rewrite IH. reflexivity. Qed.

Lemma heightPattern_set (annotation : TSTypeAnnotation) (p : Pattern) :
  heightPattern (setTypeAnnotation annotation p) = heightPattern p.
Proof. destruct p; reflexivity. Qed.

Lemma height_annotateParams (params : list Pattern) :
  maxOf heightPattern (annotateParams params) = maxOf heightPattern params.
Proof.
  unfold annotateParams. rewrite maxOf_map. apply maxOf_ext. intros p. apply heightPattern_set.
Qed.

Lemma height_positive (node : Node) : 1 <= height node.
Proof. destruct node; cbn; lia. Qed.

Lemma heightPattern_positive (pattern : Pattern) : 1 <= heightPattern pattern.
Proof. destruct pattern; cbn; lia. Qed.

(** The traversal returns as soon as the fuel reaches the height of the
    tree. *)
Lemma traverse_enough_fuel (fuel : nat) :
  (forall node, height node <= fuel -> is_Some (traverse fuel node)) /\
  (forall pattern, heightPattern pattern <= fuel -> is_Some (traversePattern fuel pattern)).
Proof.
  induction fuel as [|fuel [IHnode IHpattern]].
  { split.
    - intros node. pose proof (height_positive node). lia.
    - intros pattern. pose proof (heightPattern_positive pattern). lia. }
  assert (Hoption : forall (o : option Node),
             maxOfOption height o <= fuel -> is_Some (passOption (traverse fuel) o)).
  { intros o Ho. apply is_Some_passOption. intros a ->. apply IHnode, Ho. }
  assert (Hnodes : forall l, maxOf height l <= fuel -> is_Some (passList (traverse fuel) l)).
  { intros l Hl. apply is_Some_passList. intros a Ha. apply IHnode.
    pose proof (maxOf_le height l a Ha). lia. }
  assert (Hoptions : forall l, maxOf (maxOfOption height) l <= fuel ->
                               is_Some (passList (passOption (traverse fuel)) l)).
  { intros l Hl. apply is_Some_passList. intros o Ho. apply Hoption.
    pose proof (maxOf_le (maxOfOption height) l o Ho). lia. }
  assert (Hpatterns : forall l, maxOf heightPattern l <= fuel ->
                                is_Some (passList (traversePattern fuel) l)).
  { intros l Hl. apply is_Some_passList. intros a Ha. apply IHpattern.
    pose proof (maxOf_le heightPattern l a Ha). lia. }
  split.
  - intros node Hheight. cbn [traverse].
    destruct node; cbn [enter]; try (eexists; reflexivity); cbn [height] in Hheight.
    + apply is_Some_rebuild, Hoptions. lia.
    + destruct (VariableDeclarator_visitor_inv id init) as (id' & k & -> & Hid).
      destruct k; [| eauto]. apply is_Some_rebuild, is_Some_passBoth.
      * apply IHpattern. destruct Hid as [[-> _]|[_ [annotation ->]]];
          rewrite ?heightPattern_set; lia.
      * apply Hoption. lia.
    + destruct (FunctionDeclaration_visitor_inv params returnType body)
        as (returnType' & k & -> & _).
      destruct k; [| eauto]. apply is_Some_rebuild, is_Some_passBoth.
      * apply Hpatterns. rewrite height_annotateParams. lia.
      * apply Hnodes. lia.
    + destruct (ArrowFunctionExpression_visitor_inv params returnType node)
        as (returnType' & k & -> & _).
      destruct k; [| eauto]. apply is_Some_rebuild, is_Some_passBoth.
      * apply Hpatterns. rewrite height_annotateParams. lia.
      * apply IHnode. lia.
    + apply is_Some_rebuild, is_Some_passBoth; [apply Hpatterns | apply Hnodes]; lia.
    + apply is_Some_rebuild, Hnodes. lia.
    + apply is_Some_rebuild, Hoption. lia.
    + apply is_Some_rebuild, Hoptions. lia.
  - intros pattern Hheight. cbn [traversePattern].
    destruct pattern; cbn [heightPattern] in Hheight; [eexists; reflexivity | ..].
    + apply is_Some_rebuild, is_Some_passBoth; [apply IHpattern | apply IHnode]; lia.
    + apply is_Some_rebuild, IHpattern. lia.
    + apply is_Some_rebuild, is_Some_passList. intros o Ho.
      apply is_Some_passOption. intros a ->. apply IHpattern.
      pose proof (maxOf_le (maxOfOption heightPattern) elements (Some a) Ho). cbn in *. lia.
    + apply is_Some_rebuild, Hpatterns. lia.
Qed.

(** On a [File] or a [Program] the pass is the traversal, which returns. *)
Lemma addTypeAnnotations_traverse (ast : Node) :
  isRoot ast = true -> traverse (height ast) ast = Some (addTypeAnnotations ast).
Proof.
  intros Hroot.
  destruct (proj1 (traverse_enough_fuel (height ast)) ast) as [result Hresult]; [lia |].
  unfold addTypeAnnotations.
  destruct ast; try discriminate Hroot. destruct kind; try discriminate Hroot;
    rewrite Hresult; reflexivity.
Qed.

(** More fuel changes nothing: a result, once there, is the result with any
    larger amount of fuel. *)
Lemma refines_passOption {A} (p p' : Pass A) :
  refines p p' -> refines (passOption p) (passOption p').
Proof.
  intros Hp [a|] result; cbn; [| auto].
  destruct (p a) as [[a' k]|] eqn:Ha; [| discriminate].
  rewrite (Hp _ _ Ha). auto.
Qed.

Lemma refines_passList {A} (p p' : Pass A) :
  refines p p' -> refines (passList p) (passList p').
Proof.
  intros Hp l. induction l as [|a l IH]; intros result; cbn; [auto |].
  destruct (p a) as [[a' [|e]]|] eqn:Ha; [| | discriminate]; rewrite (Hp _ _ Ha); [| auto].
  destruct (passList p l) as [[rest' k]|] eqn:Hrest; [| discriminate].
  rewrite (IH _ eq_refl). auto.
Qed.

Lemma refines_passBoth {A B} (p p' : Pass A) (q q' : Pass B) :
  refines p p' -> refines q q' -> refines (passBoth p q) (passBoth p' q').
Proof.
  intros Hp Hq [a b] result. unfold passBoth. cbn.
  destruct (p a) as [[a' [|e]]|] eqn:Ha; [| | discriminate]; rewrite (Hp _ _ Ha); [| auto].
  destruct (q b) as [[b' k]|] eqn:Hb; [| discriminate].
  rewrite (Hq _ _ Hb). auto.
Qed.

Lemma rebuild_refines {A B} (f : A -> B) (r r' : option (A * completion)) result :
  (forall x, r = Some x -> r' = Some x) -> rebuild f r = Some result -> rebuild f r' = Some result.
Proof. intros H. destruct r as [x|]; [| discriminate]. rewrite (H x eq_refl). auto. Qed.

Lemma traverse_more_fuel (fuel fuel' : nat) :
  fuel <= fuel' ->
  refines (traverse fuel) (traverse fuel') /\
  refines (traversePattern fuel) (traversePattern fuel').
Proof.
  revert fuel'. induction fuel as [|fuel IH]; intros fuel' Hle.
  { split; intros a result; discriminate. }
  destruct fuel' as [|fuel']; [lia |].
  destruct (IH fuel') as [IHnode IHpattern]; [lia |].
  pose proof (refines_passOption _ _ IHnode) as Hoption.
  pose proof (refines_passList _ _ IHnode) as Hnodes.
  pose proof (refines_passList _ _ Hoption) as Hoptions.
  pose proof (refines_passList _ _ IHpattern) as Hpatterns.
  split.
  - intros node result. cbn [traverse].
    destruct (enter node) as [node1 [|e]]; [| auto].
    destruct node1; auto; apply rebuild_refines; intros x Hx.
    + apply Hoptions, Hx.
    + apply (refines_passBoth _ _ _ _ IHpattern Hoption), Hx.
    + apply (refines_passBoth _ _ _ _ Hpatterns Hnodes), Hx.
    + apply (refines_passBoth _ _ _ _ Hpatterns IHnode), Hx.
    + apply (refines_passBoth _ _ _ _ Hpatterns Hnodes), Hx.
    + apply Hnodes, Hx.
    + apply Hoption, Hx.
    + apply Hoptions, Hx.
  - intros pattern result. cbn [traversePattern].
    destruct pattern; auto; apply rebuild_refines; intros x Hx.
    + apply (refines_passBoth _ _ _ _ IHpattern IHnode), Hx.
    + apply IHpattern, Hx.
    + apply (refines_passList _ _ (refines_passOption _ _ IHpattern)), Hx.
    + apply Hpatterns, Hx.
Qed.

(** The pass is the traversal with any amount of fuel that is enough. *)
Lemma addTypeAnnotations_any_fuel (ast : Node) (fuel : nat) :
  isRoot ast = true -> height ast <= fuel -> traverse fuel ast = Some (addTypeAnnotations ast).
Proof.
  intros Hroot Hfuel.
  apply (proj1 (traverse_more_fuel (height ast) fuel Hfuel)).
  apply addTypeAnnotations_traverse, Hroot.
Qed.

(** *** The traversal writes nothing itself *)

Lemma traversePattern_own (fuel : nat) (pattern pattern' : Pattern) (k : completion) :
  traversePattern fuel pattern = Some (pattern', k) ->
  typeAnnotationOf pattern' = typeAnnotationOf pattern.
Proof.
  destruct fuel as [|fuel]; [discriminate |]. cbn [traversePattern].
  destruct pattern; [intros [= <- <-]; reflexivity | ..];
    intros (c & _ & ->)%rebuild_Some; reflexivity.
Qed.

Lemma traversePatterns_own (fuel : nat) (patterns patterns' : list Pattern) (k : completion) :
  passList (traversePattern fuel) patterns = Some (patterns', k) ->
  map typeAnnotationOf patterns' = map typeAnnotationOf patterns.
Proof.
  intros H%passList_inv. induction H as [|p p' l l' Hp _ IH]; [reflexivity |].
  cbn. f_equal; [| exact IH].
  destruct Hp as [->|[k' Hp]]; [reflexivity | eapply traversePattern_own, Hp].
Qed.

(** After the traversal of a node, the node has the type it had and its own
    slots are as its visitor left them. *)
Lemma traverse_own (fuel : nat) (node node' : Node) (k : completion) :
  traverse fuel node = Some (node', k) ->
  nodeType node' = nodeType node /\ ownSlots node' = ownSlots (fst (enter node)).
Proof.
  destruct fuel as [|fuel]; [discriminate |]. cbn [traverse].
  destruct node; cbn [enter]; try (intros [= <- <-]; split; reflexivity);
    try (intros (c & _ & ->)%rebuild_Some; split; reflexivity).
  - destruct (VariableDeclarator_visitor_inv id init) as (id' & k' & -> & _).
    destruct k'; [| intros [= <- <-]; split; reflexivity].
    intros ([id'' init'] & Hboth & ->)%rebuild_Some. split; [reflexivity |]. cbn.
    apply passBoth_inv in Hboth as [(e & Hid & _)|[Hid _]];
      apply traversePattern_own in Hid; congruence.
  - destruct (FunctionDeclaration_visitor_inv params returnType body)
      as (returnType' & k' & -> & _).
    destruct k'; [| intros [= <- <-]; split; reflexivity].
    intros ([params' body'] & Hboth & ->)%rebuild_Some. split; [reflexivity |]. cbn.
    apply passBoth_inv in Hboth as [(e & Hparams & _)|[Hparams _]];
      apply traversePatterns_own in Hparams; congruence.
  - destruct (ArrowFunctionExpression_visitor_inv params returnType node)
      as (returnType' & k' & -> & _).
    destruct k'; [| intros [= <- <-]; split; reflexivity].
    intros ([params' body'] & Hboth & ->)%rebuild_Some. split; [reflexivity |]. cbn.
    apply passBoth_inv in Hboth as [(e & Hparams & _)|[Hparams _]];
      apply traversePatterns_own in Hparams; congruence.
  - intros ([params' body'] & Hboth & ->)%rebuild_Some. split; [reflexivity |]. cbn.
    apply passBoth_inv in Hboth as [(e & Hparams & _)|[Hparams _]];
      apply traversePatterns_own in Hparams; congruence.
Qed.

(** After the traversal of a function declaration or an arrow function,
    however it ended, each parameter carries the annotation [any]. *)
Lemma traverse_params_any (fuel : nat) (node node' : Node) (k : completion) :
  nodeType node = "FunctionDeclaration" \/ nodeType node = "ArrowFunctionExpression" ->
  traverse fuel node = Some (node', k) ->
  map (fun p => value (typeAnnotationOf p)) (paramsOf node')
  = map (fun _ => Some (tsTypeAnnotation TSAnyKeyword)) (paramsOf node).
Proof.
  intros Htype Htraverse.
  destruct (traverse_own _ _ _ _ Htraverse) as [Hsame Hown].
  assert (Hslots : forall params : list Pattern,
             map (fun s => value s) (map typeAnnotationOf (annotateParams params))
             = map (fun _ => Some (tsTypeAnnotation TSAnyKeyword)) params).
  { intros params. unfold annotateParams. rewrite !map_map. apply map_ext.
    intros p. rewrite typeAnnotationOf_set. reflexivity. }
  assert (Hnode' : forall params returnType,
             ownSlots node' = returnType :: map typeAnnotationOf params ->
             map typeAnnotationOf (paramsOf node') = map typeAnnotationOf params).
  { intros params returnType H.
    destruct node'; cbn in H; try discriminate H; injection H as _ H; exact H. }
  rewrite <- (map_map typeAnnotationOf (fun s => value s)).
  destruct node; cbn in Htype; destruct Htype as [Htype|Htype]; try discriminate Htype;
    try (destruct kind; discriminate Htype); cbn [enter paramsOf] in *.
  - destruct (FunctionDeclaration_visitor_inv params returnType body)
      as (returnType' & k' & Hvisit & _).
    rewrite Hvisit in Hown. cbn in Hown. rewrite (Hnode' _ _ Hown). apply Hslots.
  - destruct (ArrowFunctionExpression_visitor_inv params returnType node)
      as (returnType' & k' & Hvisit & _).
    rewrite Hvisit in Hown. cbn in Hown. rewrite (Hnode' _ _ Hown). apply Hslots.
Qed.

(** C9. The visitor object has a handler for three node types only.  On a
    node of any other type nothing runs, and the traversal leaves the type
    and the slots of the node as they were; so after the pass a function
    expression has the return type slot it had and its parameters have the
    annotation slots they had. *)
Theorem only_three_types_visited :
  (forall node, nodeType node ∉ visitedTypes -> enter node = (node, Normal)) /\
  (forall fuel node node' k,
     nodeType node ∉ visitedTypes -> traverse fuel node = Some (node', k) ->
     nodeType node' = nodeType node /\ ownSlots node' = ownSlots node) /\
  (forall fuel params returnType body node' k,
     traverse fuel (FunctionExpression params returnType body) = Some (node', k) ->
     exists params' body',
       node' = FunctionExpression params' returnType body' /\
       map typeAnnotationOf params' = map typeAnnotationOf params).
Proof.
  assert (Henter : forall node, nodeType node ∉ visitedTypes -> enter node = (node, Normal)).
  { intros node Htype. destruct node; try reflexivity;
      exfalso; apply Htype; unfold visitedTypes; cbn; set_solver. }
  split; [exact Henter |]. split.
  - intros fuel node node' k Htype Htraverse.
    apply traverse_own in Htraverse. rewrite (Henter node Htype) in Htraverse. exact Htraverse.
  - intros fuel params returnType body node' k Htraverse.
    destruct fuel as [|fuel]; [discriminate |]. cbn [traverse enter] in Htraverse.
    apply rebuild_Some in Htraverse as ([params' body'] & Hboth & ->).
    exists params', body'. split; [reflexivity |]. cbn.
    apply passBoth_inv in Hboth as [(e & Hparams & _)|[Hparams _]];
      eapply traversePatterns_own, Hparams.
Qed.

Lemma only_three_types_visited_witness :
  enter (FunctionExpression [BindingIdentifier "a" (parsed None)] (parsed None)
           [ReturnStatement (Some (NumericLiteral "1"))])
  = (FunctionExpression [BindingIdentifier "a" (parsed None)] (parsed None)
       [ReturnStatement (Some (NumericLiteral "1"))], Normal) /\
  exists params' body',
    FunctionExpression [BindingIdentifier "a" (parsed None)] (parsed None)
      [ReturnStatement (Some (NumericLiteral "1"))]
    = FunctionExpression params' (parsed None) body' /\
    map typeAnnotationOf params' = map typeAnnotationOf [BindingIdentifier "a" (parsed None)].
Proof.
  destruct only_three_types_visited as (Henter & _ & Hfunction).
  split.
  - apply Henter. unfold visitedTypes. cbn. rewrite !not_elem_of_cons.
    repeat split; try discriminate. apply not_elem_of_nil.
  - apply (Hfunction 3 [BindingIdentifier "a" (parsed None)] (parsed None)
             [ReturnStatement (Some (NumericLiteral "1"))] _ Normal).
    reflexivity.
Defined.

(** *** What the pass leaves behind *)

Lemma maxWritesPattern_inner (bound : nat) (pattern : Pattern) :
  maxWritesPattern bound pattern
  = Nat.leb (writes (typeAnnotationOf pattern)) bound && innerWrites bound pattern.
Proof. destruct pattern; reflexivity. Qed.

Lemma innerWrites_set (bound : nat) (annotation : TSTypeAnnotation) (pattern : Pattern) :
  innerWrites bound (setTypeAnnotation annotation pattern) = innerWrites bound pattern.
Proof. destruct pattern; reflexivity. Qed.

Section NormalPass.
Context {A : Type} (p : Pass A) (f g : A -> bool).
Hypothesis step : forall a a', f a = true -> p a = Some (a', Normal) -> g a' = true.

Lemma passOption_normal_all (o o' : option A) :
  allOption f o = true -> passOption p o = Some (o', Normal) -> allOption g o' = true.
Proof.
  intros Hf [(_ & -> & _)|(a & a' & -> & -> & Hp)]%passOption_inv; [reflexivity |].
  cbn in *. eauto.
Qed.

Lemma passList_normal_all (l l' : list A) :
  forallb f l = true -> passList p l = Some (l', Normal) -> forallb g l' = true.
Proof.
  intros Hf H%passList_normal. induction H as [|a a' l l' Hp _ IH]; [reflexivity |].
  cbn in *. apply andb_true_iff in Hf as [Ha Hl]. apply andb_true_iff. eauto.
Qed.
End NormalPass.

Lemma forallb_const_true {A} (l : list A) : forallb (fun _ => true) l = true.
Proof. induction l; cbn; auto. Qed.

Lemma forallb_slots (f : Slot -> bool) (patterns patterns' : list Pattern) :
  map typeAnnotationOf patterns' = map typeAnnotationOf patterns ->
  forallb (fun p => f (typeAnnotationOf p)) patterns'
  = forallb (fun p => f (typeAnnotationOf p)) patterns.
Proof.
  revert patterns'. induction patterns as [|p l IH]; intros [|p' l']; cbn;
    try discriminate; [reflexivity |].
  intros [= -> Hl]. rewrite (IH l' Hl). reflexivity.
Qed.

Lemma populated_annotateParams (params : list Pattern) :
  forallb (fun p => populated (typeAnnotationOf p)) (annotateParams params) = true.
Proof.
  induction params as [|p l IH]; cbn; [reflexivity |].
  rewrite typeAnnotationOf_set. cbn. exact IH.
Qed.

(** After a normal completion every declarator, function declaration and
    arrow function below the node is annotated. *)
Lemma traverse_annotated (fuel : nat) :
  (forall node node', traverse fuel node = Some (node', Normal) ->
                      annotated false node' = true) /\
  (forall pattern pattern', traversePattern fuel pattern = Some (pattern', Normal) ->
                            annotatedPattern false pattern' = true).
Proof.
  induction fuel as [|fuel [IHnode IHpattern]]; [split; discriminate |].
  assert (Hoption : forall o o', passOption (traverse fuel) o = Some (o', Normal) ->
                                 allOption (annotated false) o' = true).
  { intros o o'. apply (passOption_normal_all _ (fun _ => true)); [eauto | by destruct o]. }
  assert (Hnodes : forall l l', passList (traverse fuel) l = Some (l', Normal) ->
                                forallb (annotated false) l' = true).
  { intros l l'. apply (passList_normal_all _ (fun _ => true)); [eauto |].
    apply forallb_const_true. }
  assert (Hoptions : forall l l', passList (passOption (traverse fuel)) l = Some (l', Normal) ->
                                  forallb (allOption (annotated false)) l' = true).
  { intros l l'. apply (passList_normal_all _ (fun _ => true)); [eauto |].
    apply forallb_const_true. }
  assert (Hpatterns : forall l l', passList (traversePattern fuel) l = Some (l', Normal) ->
                                   forallb (annotatedPattern false) l' = true).
  { intros l l'. apply (passList_normal_all _ (fun _ => true)); [eauto |].
    apply forallb_const_true. }
  split.
  - intros node node'. cbn [traverse].
    destruct node; cbn [enter]; try (intros [= <-]; reflexivity).
    + intros (c & Hc & ->)%rebuild_Some. cbn. eauto.
    + destruct (VariableDeclarator_visitor_inv id init) as (id' & k & -> & Hid).
      destruct k; [| discriminate].
      intros ([id'' init'] & Hboth & ->)%rebuild_Some.
      apply passBoth_inv in Hboth as [(e & _ & _ & [=])|[Hpattern Hinit]].
      cbn. rewrite (traversePattern_own _ _ _ _ Hpattern).
      destruct Hid as [(_ & e & [=])|(_ & annotation & ->)].
      rewrite typeAnnotationOf_set. cbn. rewrite (IHpattern _ _ Hpattern). eauto.
    + destruct (FunctionDeclaration_visitor_inv params returnType body)
        as (returnType' & k & -> & Hreturn).
      destruct k; [| discriminate].
      intros ([params' body'] & Hboth & ->)%rebuild_Some.
      apply passBoth_inv in Hboth as [(e & _ & _ & [=])|[Hparams Hbody]].
      cbn. rewrite (forallb_slots populated _ _ (traversePatterns_own _ _ _ _ Hparams)).
      rewrite populated_annotateParams, (Hpatterns _ _ Hparams), (Hnodes _ _ Hbody).
      rewrite !andb_true_r. unfold populated.
      destruct Hreturn as [[-> Hvalue]|(_ & _ & annotation & ->)]; [| reflexivity].
      destruct (value returnType); [reflexivity |]. by destruct Hvalue.
    + destruct (ArrowFunctionExpression_visitor_inv params returnType node)
        as (returnType' & k & -> & Hreturn).
      destruct k; [| discriminate].
      intros ([params' body'] & Hboth & ->)%rebuild_Some.
      apply passBoth_inv in Hboth as [(e & _ & _ & [=])|[Hparams Hbody]].
      cbn. rewrite (forallb_slots populated _ _ (traversePatterns_own _ _ _ _ Hparams)).
      rewrite populated_annotateParams, (Hpatterns _ _ Hparams), (IHnode _ _ Hbody).
      rewrite !andb_true_r. unfold populated.
      destruct Hreturn as [[-> Hvalue]|(_ & _ & annotation & ->)]; [| reflexivity].
      destruct (value returnType); [reflexivity |]. by destruct Hvalue.
    + intros ([params' body'] & Hboth & ->)%rebuild_Some.
      apply passBoth_inv in Hboth as [(e & _ & _ & [=])|[Hparams Hbody]].
      cbn. rewrite (Hpatterns _ _ Hparams), (Hnodes _ _ Hbody). reflexivity.
    + intros (c & Hc & ->)%rebuild_Some. cbn. eauto.
    + intros (c & Hc & ->)%rebuild_Some. cbn. eauto.
    + intros (c & Hc & ->)%rebuild_Some. cbn. eauto.
  - intros pattern pattern'. cbn [traversePattern].
    destruct pattern; [intros [= <-]; reflexivity | ..].
    + intros ([target' default'] & Hboth & ->)%rebuild_Some.
      apply passBoth_inv in Hboth as [(e & _ & _ & [=])|[Htarget Hdefault]].
      cbn. rewrite (IHpattern _ _ Htarget), (IHnode _ _ Hdefault). reflexivity.
    + intros (c & Hc & ->)%rebuild_Some. cbn. eauto.
    + intros (c & Hc & ->)%rebuild_Some. cbn.
      revert Hc. apply (passList_normal_all _ (fun _ => true)); [| apply forallb_const_true].
      intros o o' _. apply (passOption_normal_all _ (fun _ => true)); [eauto | by destruct o].
    + intros (c & Hc & ->)%rebuild_Some. cbn. eauto.
Qed.

Lemma writtenOnce_fresh (pattern : Pattern) :
  maxWritesPattern 0 pattern = true -> writtenOnce pattern = true.
Proof.
  rewrite maxWritesPattern_inner. unfold writtenOnce.
  intros [Hown ->]%andb_true_iff. apply Nat.leb_le in Hown.
  rewrite andb_true_r. apply Nat.leb_le. lia.
Qed.

Lemma writtenOnce_set (annotation : TSTypeAnnotation) (pattern : Pattern) :
  maxWritesPattern 0 pattern = true ->
  writtenOnce (setTypeAnnotation annotation pattern) = true.
Proof.
  rewrite maxWritesPattern_inner. unfold writtenOnce.
  intros [Hown Hinner]%andb_true_iff. apply Nat.leb_le in Hown.
  rewrite innerWrites_set, Hinner, typeAnnotationOf_set, andb_true_r.
  apply Nat.leb_le. cbn. lia.
Qed.

Lemma writtenOnce_annotateParams (params : list Pattern) :
  forallb (maxWritesPattern 0) params = true ->
  forallb writtenOnce (annotateParams params) = true.
Proof.
  induction params as [|p l IH]; cbn; [reflexivity |].
  intros [Hp Hl]%andb_true_iff. rewrite (writtenOnce_set _ _ Hp). cbn. exact (IH Hl).
Qed.

(** After a normal completion on a tree in which nothing was written, no
    slot has been written twice. *)
Lemma traverse_writes (fuel : nat) :
  (forall node node', maxWrites 0 node = true -> traverse fuel node = Some (node', Normal) ->
                      maxWrites 1 node' = true) /\
  (forall pattern pattern', innerWrites 0 pattern = true ->
                            traversePattern fuel pattern = Some (pattern', Normal) ->
                            innerWrites 1 pattern' = true).
Proof.
  induction fuel as [|fuel [IHnode IHpattern]]; [split; discriminate |].
  assert (Honce : forall pattern pattern',
             writtenOnce pattern = true ->
             traversePattern fuel pattern = Some (pattern', Normal) ->
             maxWritesPattern 1 pattern' = true).
  { intros pattern pattern' [Hown Hinner]%andb_true_iff Htraverse.
    rewrite maxWritesPattern_inner, (traversePattern_own _ _ _ _ Htraverse), Hown.
    eapply IHpattern; eauto. }
  assert (Hfresh : forall pattern pattern',
             maxWritesPattern 0 pattern = true ->
             traversePattern fuel pattern = Some (pattern', Normal) ->
             maxWritesPattern 1 pattern' = true).
  { intros pattern pattern' H. apply Honce, writtenOnce_fresh, H. }
  assert (Hoption : forall o o', allOption (maxWrites 0) o = true ->
                                 passOption (traverse fuel) o = Some (o', Normal) ->
                                 allOption (maxWrites 1) o' = true).
  { intros o o'. apply passOption_normal_all. exact IHnode. }
  assert (Hnodes : forall l l', forallb (maxWrites 0) l = true ->
                                passList (traverse fuel) l = Some (l', Normal) ->
                                forallb (maxWrites 1) l' = true).
  { intros l l'. apply passList_normal_all. exact IHnode. }
  assert (Hoptions : forall l l', forallb (allOption (maxWrites 0)) l = true ->
                                  passList (passOption (traverse fuel)) l = Some (l', Normal) ->
                                  forallb (allOption (maxWrites 1)) l' = true).
  { intros l l'. apply passList_normal_all. exact Hoption. }
  assert (Hparams : forall l l', forallb writtenOnce l = true ->
                                 passList (traversePattern fuel) l = Some (l', Normal) ->
                                 forallb (maxWritesPattern 1) l' = true).
  { intros l l'. apply passList_normal_all. exact Honce. }
  assert (Hpatterns : forall l l', forallb (maxWritesPattern 0) l = true ->
                                   passList (traversePattern fuel) l = Some (l', Normal) ->
                                   forallb (maxWritesPattern 1) l' = true).
  { intros l l'. apply passList_normal_all. exact Hfresh. }
  assert (Hslot : forall returnType returnType' : Slot,
             Nat.leb (writes returnType) 0 = true ->
             returnType' = returnType \/
             (exists annotation, returnType' = assign annotation returnType) ->
             Nat.leb (writes returnType') 1 = true).
  { intros returnType returnType' Hle%Nat.leb_le H. apply Nat.leb_le.
    destruct H as [->|[annotation ->]]; cbn; lia. }
  split.
  - intros node node'. cbn [traverse].
    destruct node; cbn [enter]; try (intros _ [= <-]; reflexivity).
    + intros Hin (c & Hc & ->)%rebuild_Some. cbn in *. eauto.
    + destruct (VariableDeclarator_visitor_inv id init) as (id' & k & -> & Hid).
      destruct k; [| discriminate].
      intros [Hfid Hfinit]%andb_true_iff ([id'' init'] & Hboth & ->)%rebuild_Some.
      apply passBoth_inv in Hboth as [(e & _ & _ & [=])|[Hpattern Hinit]].
      destruct Hid as [(_ & e & [=])|(_ & annotation & ->)].
      cbn [maxWrites fst snd]. rewrite (Hoption _ _ Hfinit Hinit), andb_true_r.
      eapply Honce; [| exact Hpattern]. apply writtenOnce_set, Hfid.
    + destruct (FunctionDeclaration_visitor_inv params returnType body)
        as (returnType' & k & -> & Hreturn).
      destruct k; [| discriminate].
      cbn [maxWrites]. rewrite !andb_true_iff.
      intros [[Hfslot Hfparams] Hfbody] ([params' body'] & Hboth & ->)%rebuild_Some.
      apply passBoth_inv in Hboth as [(e & _ & _ & [=])|[Hps Hbody]].
      cbn [maxWrites fst snd].
      rewrite (Hparams _ _ (writtenOnce_annotateParams _ Hfparams) Hps).
      rewrite (Hnodes _ _ Hfbody Hbody), !andb_true_r.
      apply (Hslot returnType); [exact Hfslot |].
      destruct Hreturn as [[-> _]|(_ & _ & H)]; eauto.
    + destruct (ArrowFunctionExpression_visitor_inv params returnType node)
        as (returnType' & k & -> & Hreturn).
      destruct k; [| discriminate].
      cbn [maxWrites]. rewrite !andb_true_iff.
      intros [[Hfslot Hfparams] Hfbody] ([params' body'] & Hboth & ->)%rebuild_Some.
      apply passBoth_inv in Hboth as [(e & _ & _ & [=])|[Hps Hbody]].
      cbn [maxWrites fst snd].
      rewrite (Hparams _ _ (writtenOnce_annotateParams _ Hfparams) Hps).
      rewrite (IHnode _ _ Hfbody Hbody), !andb_true_r.
      apply (Hslot returnType); [exact Hfslot |].
      destruct Hreturn as [[-> _]|(_ & _ & H)]; eauto.
    + cbn [maxWrites]. rewrite !andb_true_iff.
      intros [[Hfslot Hfparams] Hfbody] ([params' body'] & Hboth & ->)%rebuild_Some.
      apply passBoth_inv in Hboth as [(e & _ & _ & [=])|[Hps Hbody]].
      cbn [maxWrites fst snd].
      rewrite (Hpatterns _ _ Hfparams Hps), (Hnodes _ _ Hfbody Hbody), !andb_true_r.
      apply (Hslot returnType); eauto.
    + intros Hin (c & Hc & ->)%rebuild_Some. cbn in *. eauto.
    + intros Hin (c & Hc & ->)%rebuild_Some. cbn in *. eauto.
    + intros Hin (c & Hc & ->)%rebuild_Some. cbn in *. eauto.
  - intros pattern pattern'. cbn [traversePattern].
    destruct pattern; [intros _ [= <-]; reflexivity | ..]; cbn [innerWrites].
    + intros [Hftarget Hfdefault]%andb_true_iff ([target' default'] & Hboth & ->)%rebuild_Some.
      apply passBoth_inv in Hboth as [(e & _ & _ & [=])|[Htarget Hdefault]].
      cbn. rewrite (Hfresh _ _ Hftarget Htarget), (IHnode _ _ Hfdefault Hdefault). reflexivity.
    + intros Hin (c & Hc & ->)%rebuild_Some. cbn. eauto.
    + intros Hin (c & Hc & ->)%rebuild_Some. cbn.
      revert Hin Hc. apply passList_normal_all.
      intros o o'. apply passOption_normal_all. exact Hfresh.
    + intros Hin (c & Hc & ->)%rebuild_Some. cbn. eauto.
Qed.

(** *** The whole pass *)

(** C7, as amended.  When the pass completes on a tree in which it has
    written nothing yet, every variable declarator, every parameter of a
    function declaration or arrow function and every function declaration
    and arrow function has its annotation, and no slot of the tree has been
    written twice. *)
Theorem pass_annotates_once (ast ast' : Node) :
  fresh ast = true ->
  addTypeAnnotations ast = (ast', Normal) ->
  annotated false ast' = true /\ maxWrites 1 ast' = true.
Proof.
  intros Hfresh Hpass.
  destruct (isRoot ast) eqn:Hroot.
  - pose proof (addTypeAnnotations_traverse ast Hroot) as Htraverse.
    rewrite Hpass in Htraverse. split.
    + eapply traverse_annotated, Htraverse.
    + eapply traverse_writes; [exact Hfresh | exact Htraverse].
  - unfold addTypeAnnotations in Hpass.
    destruct ast; try discriminate Hpass. destruct kind; discriminate.
Qed.

Lemma pass_annotates_once_witness :
  annotated false (fst (addTypeAnnotations sampleProgram)) = true /\
  maxWrites 1 (fst (addTypeAnnotations sampleProgram)) = true.
Proof.
  apply (pass_annotates_once sampleProgram).
  - reflexivity.
  - vm_compute. reflexivity.
Defined.

(** C7, as stated, fails on [const f = function (a) { return 1; };]: the
    pass completes, and the function expression has no return type and its
    parameter no annotation. *)
Lemma function_expression_not_annotated :
  fresh functionExpressionProgram = true /\
  snd (addTypeAnnotations functionExpressionProgram) = Normal /\
  annotated true (fst (addTypeAnnotations functionExpressionProgram)) = false /\
  fst (addTypeAnnotations functionExpressionProgram)
  = OtherNode File
      [Some (OtherNode Program
         [Some (OtherNode VariableDeclaration
            [Some (VariableDeclarator
               (BindingIdentifier "f" (mkSlot (Some (tsTypeAnnotation TSAnyKeyword)) 1))
               (Some (FunctionExpression [BindingIdentifier "a" (parsed None)] (parsed None)
                  [ReturnStatement (Some (NumericLiteral "1"))])))])])].
Proof. repeat split. Qed.

(** ** The directory pass *)

Example run_src :
  transformJsFilesInDir sampleParse sampleGenerate "src" (mkWorld srcFiles [])
  = (mkWorld (<["src/a.ts" := RegularFile "const x: number = 5;"]> srcFiles)
       [("src/a.js", "src/a.ts")], Normal).
Proof. vm_compute. reflexivity. Qed.

(** Without a directory [vendor/chart.ts] the write fails and the run ends. *)
Example run_chart_alone :
  transformJsFilesInDir sampleParse sampleGenerate "vendor/chart.js"
    (mkWorld chartFilesAlone [])
  = (mkWorld chartFilesAlone [], Throw (SystemError "ENOENT")).
Proof. vm_compute. reflexivity. Qed.

(** *** Strings *)

Lemma chars_app (a b : string) : chars (a +:+ b) = chars a ++ chars b.
Proof.
  induction a as [|c a IH]; [reflexivity |].
  change (c :: chars (a +:+ b) = c :: (chars a ++ chars b)). rewrite IH. reflexivity.
Qed.

Lemma chars_text (l : list ascii) : chars (text l) = l.
Proof. apply String.list_ascii_of_string_of_list_ascii. Qed.

Lemma text_chars (s : string) : text (chars s) = s.
Proof. apply String.string_of_list_ascii_of_string. Qed.

(** A word without the separator starts a text exactly when it starts the
    part before the separator, and ends it exactly when it ends the part
    after the separator. *)
Lemma prefix_before_separator (sep : ascii) (q a b : list ascii) :
  sep ∉ q -> q `prefix_of` a ++ sep :: b <-> q `prefix_of` a.
Proof.
  intros Hsep. split; [| apply prefix_app_r].
  revert a Hsep. induction q as [|c q' IH]; intros a Hsep Hprefix; [apply prefix_nil |].
  apply not_elem_of_cons in Hsep as [Hc Hq'].
  destruct a as [|x a]; cbn in Hprefix.
  - apply prefix_cons_inv_1 in Hprefix. congruence.
  - pose proof (prefix_cons_inv_1 _ _ _ _ Hprefix) as ->.
    apply prefix_cons, IH; [exact Hq' |]. eapply prefix_cons_inv_2, Hprefix.
Qed.

Lemma suffix_after_separator (sep : ascii) (q a b : list ascii) :
  sep ∉ q -> q `suffix_of` a ++ sep :: b <-> q `suffix_of` b.
Proof.
  intros Hsep. rewrite !suffix_prefix_reverse, reverse_app, reverse_cons, <- app_assoc.
  apply prefix_before_separator. rewrite elem_of_reverse. exact Hsep.
Qed.

Lemma occursIn_app (pattern s rest : list ascii) :
  occursIn pattern s = true -> occursIn pattern (s ++ rest) = true.
Proof.
  induction s as [|c s IH]; cbn.
  - rewrite orb_false_r. intros Hnil%bool_decide_eq_true.
    apply prefix_nil_inv in Hnil as ->. destruct rest; cbn; rewrite bool_decide_eq_true_2;
      auto using prefix_nil.
  - intros [Hhere%bool_decide_eq_true|Hlater]%orb_true_iff; apply orb_true_iff.
    + left. apply bool_decide_eq_true. apply (prefix_app_r _ _ rest) in Hhere. exact Hhere.
    + right. apply IH, Hlater.
Qed.

(** Where the pattern does not occur before a separator it cannot contain,
    the replacement takes place after that separator. *)
Lemma replaceFirst_after_separator (sep : ascii) (pattern replacement a b : list ascii) :
  sep ∉ pattern -> pattern <> [] -> occursIn pattern a = false ->
  replaceFirst pattern replacement (a ++ sep :: b)
  = a ++ sep :: replaceFirst pattern replacement b.
Proof.
  intros Hsep Hne. induction a as [|c a IH]; intros Hnone.
  - cbn [app replaceFirst]. rewrite bool_decide_eq_false_2; [reflexivity |].
    intros Hprefix. destruct pattern as [|x pattern]; [contradiction |].
    apply prefix_cons_inv_1 in Hprefix. subst x. apply Hsep, list_elem_of_here.
  - cbn [occursIn] in Hnone. apply orb_false_iff in Hnone as [Hhere Hlater].
    apply bool_decide_eq_false in Hhere.
    change ((c :: a) ++ sep :: b) with (c :: (a ++ sep :: b)). cbn [replaceFirst].
    rewrite bool_decide_eq_false_2.
    + rewrite IH by exact Hlater. reflexivity.
    + intros Hprefix. apply Hhere.
      apply (prefix_before_separator sep pattern (c :: a) b Hsep). exact Hprefix.
Qed.

Lemma path_join_chars (dirPath file : string) :
  chars (path_join dirPath file) = joinPrefix dirPath ++ chars file.
Proof.
  unfold path_join, joinPrefix. destruct (bool_decide (dirPath = "")); [reflexivity |].
  destruct (endsWith dirPath "/"); rewrite !chars_app; [reflexivity |].
  rewrite <- app_assoc. reflexivity.
Qed.

Lemma joinPrefix_separator (dirPath : string) :
  joinPrefix dirPath = [] \/ exists d, joinPrefix dirPath = d ++ ["/"%char].
Proof.
  unfold joinPrefix. destruct (bool_decide (dirPath = "")); [by left | right].
  destruct (endsWith dirPath "/") eqn:Hends; [| eauto].
  apply bool_decide_eq_true in Hends as [d Hd]. exists d. exact Hd.
Qed.

Lemma joinPrefix_occursIn (pattern : list ascii) (dirPath : string) :
  occursIn pattern (chars dirPath) = false -> pattern <> [] ->
  joinPrefix dirPath = [] \/
  exists d, joinPrefix dirPath = d ++ ["/"%char] /\ occursIn pattern d = false.
Proof.
  intros Hnone Hne. unfold joinPrefix.
  destruct (bool_decide (dirPath = "")); [by left | right].
  destruct (endsWith dirPath "/") eqn:Hends.
  - apply bool_decide_eq_true in Hends as [d Hd]. exists d. split; [exact Hd |].
    destruct (occursIn pattern d) eqn:Hd'; [| reflexivity].
    apply (occursIn_app _ _ (chars "/")) in Hd'. rewrite <- Hd in Hd'. congruence.
  - eauto.
Qed.

Lemma separator_not_in_js : "/"%char ∉ chars ".js".
Proof. cbn. rewrite !not_elem_of_cons. repeat split; try discriminate. apply not_elem_of_nil. Qed.

(** The test of the source is on the joined path; it is a test on the name. *)
Lemma endsWith_path_join (dirPath file : string) :
  endsWith (path_join dirPath file) ".js" = endsWith file ".js".
Proof.
  unfold endsWith. rewrite path_join_chars.
  destruct (joinPrefix_separator dirPath) as [->|[d ->]]; [reflexivity |].
  rewrite <- app_assoc. cbn [app]. apply bool_decide_ext.
  apply suffix_after_separator, separator_not_in_js.
Qed.

(** Where the directory path has no ".js", the replacement is in the name. *)
Lemma replace_path_join (dirPath file : string) :
  includes dirPath ".js" = false ->
  replace (path_join dirPath file) ".js" ".ts" = path_join dirPath (replace file ".js" ".ts").
Proof.
  intros Hnone. rewrite <- (text_chars (path_join dirPath (replace file ".js" ".ts"))).
  unfold replace. f_equal. rewrite !path_join_chars, chars_text.
  destruct (joinPrefix_occursIn (chars ".js") dirPath Hnone) as [->|(d & -> & Hd)];
    [discriminate | reflexivity |].
  rewrite <- !app_assoc. cbn [app].
  apply replaceFirst_after_separator; [apply separator_not_in_js | discriminate | exact Hd].
Qed.

(** *** The file system *)

Lemma extends_refl (fs : gmap string Entry) : extends fs fs.
Proof. intros path entry H. eauto. Qed.

Lemma extends_trans (a b c : gmap string Entry) : extends a b -> extends b c -> extends a c.
Proof.
  intros Hab Hbc path entry H.
  destruct (Hab _ _ H) as (entry' & H' & Hkind').
  destruct (Hbc _ _ H') as (entry'' & H'' & Hkind''). exists entry''. split; congruence.
Qed.

(** A write that returns has put the file at its path, whatever was there,
    and has changed the kind of nothing. *)
Lemma writeFileSync_returns (fs fs' : gmap string Entry) (path data : string) :
  writeFileSync fs path data = Return fs' ->
  fs' !! path = Some (RegularFile data) /\ extends fs fs'.
Proof.
  unfold writeFileSync. destruct (fs !! path) as [[content|names]|] eqn:Hpath; [| discriminate |].
  - intros [= <-]. split; [apply lookup_insert_eq |].
    intros other entry Hother. destruct (decide (path = other)) as [<-|Hne].
    + rewrite lookup_insert_eq. exists (RegularFile data). split; [reflexivity |].
      rewrite Hpath in Hother. injection Hother as <-. reflexivity.
    + rewrite lookup_insert_ne by exact Hne. eauto.
  - destruct (fs !! (parentOf path).1) as [[content|names]|] eqn:Hparent; try discriminate.
    intros [= <-]. split; [apply lookup_insert_eq |].
    intros other entry Hother. destruct (decide (path = other)) as [<-|Hne]; [congruence |].
    rewrite lookup_insert_ne by exact Hne.
    destruct (decide ((parentOf path).1 = other)) as [<-|Hne'].
    + rewrite lookup_insert_eq. eexists. split; [reflexivity |].
      rewrite Hparent in Hother. injection Hother as <-. reflexivity.
    + rewrite lookup_insert_ne by exact Hne'. eauto.
Qed.

(** *** The run *)

Section DirectoryPass.
Variable parse : string -> Result Node.
Variable generate : Node -> string.

Lemma transformJsFileToTsFile_normal (jsFilePath : string) (w w' : World) :
  transformJsFileToTsFile parse generate jsFilePath w = (w', Normal) ->
  exists jsCode ast ast',
    readFileSync (files w) jsFilePath = Return jsCode /\
    parse jsCode = Return ast /\
    addTypeAnnotations ast = (ast', Normal) /\
    writeFileSync (files w) (replace jsFilePath ".js" ".ts") (generate ast')
    = Return (files w') /\
    console w' = console w ++ [(jsFilePath, replace jsFilePath ".js" ".ts")].
Proof.
  unfold transformJsFileToTsFile, parseJavaScript, generateTypeScript.
  destruct (readFileSync (files w) jsFilePath) as [jsCode|]; [| discriminate].
  destruct (parse jsCode) as [ast|] eqn:Hparse; [| discriminate].
  destruct (addTypeAnnotations ast) as [ast' [|e]] eqn:Hpass; [| discriminate].
  destruct (writeFileSync _ _ _) as [files'|] eqn:Hwrite; [| discriminate].
  intros [= <-]. exists jsCode, ast, ast'. cbn. auto.
Qed.

Lemma forEachEntry_normal (fs0 : gmap string Entry) (dirPath : string)
  (names : list string) (w w' : World) :
  extends fs0 (files w) ->
  (forall file, file ∈ names -> is_Some (fs0 !! path_join dirPath file)) ->
  forEachEntry parse generate dirPath names w = (w', Normal) ->
  console w' = console w ++ map (logged dirPath) (inputFiles fs0 dirPath names) /\
  extends (files w) (files w') /\
  (forall file, file ∈ inputFiles fs0 dirPath names ->
     exists tsCode,
       files w' !! replace (path_join dirPath file) ".js" ".ts" = Some (RegularFile tsCode)).
Proof.
  revert w. induction names as [|file rest IH]; intros w Hextends Hlisted.
  - intros [= <-]. cbn. rewrite app_nil_r. split; [reflexivity |].
    split; [apply extends_refl |]. intros file Hin. inversion Hin.
  - cbn [forEachEntry]. unfold transformEntry, statSync.
    destruct (Hlisted file) as [entry0 Hentry0]; [apply list_elem_of_here |].
    destruct (Hextends _ _ Hentry0) as (entry & -> & Hkind).
    rewrite endsWith_path_join, Hkind.
    unfold inputFiles. cbn [List.filter]. rewrite Hentry0.
    assert (Hselect : match entry0 with
                      | RegularFile _ => endsWith file ".js"
                      | Directory _ => false
                      end = isFile entry0 && endsWith file ".js") by (by destruct entry0).
    rewrite Hselect. clear Hselect.
    assert (Hrest : forall f, f ∈ rest -> is_Some (fs0 !! path_join dirPath f)).
    { intros f Hf. apply Hlisted, list_elem_of_further, Hf. }
    destruct (isFile entry0 && endsWith file ".js").
    + destruct (transformJsFileToTsFile parse generate (path_join dirPath file) w)
        as [w1 [|e]] eqn:Hfile; [| discriminate].
      apply transformJsFileToTsFile_normal in Hfile
        as (jsCode & ast & ast' & _ & _ & _ & Hwrite & Hconsole).
      apply writeFileSync_returns in Hwrite as [Hwritten Hstep].
      intros Hrun.
      destruct (IH w1 (extends_trans _ _ _ Hextends Hstep) Hrest Hrun)
        as (Hlog & Hafter & Houtputs).
      split; [| split].
      * rewrite Hlog, Hconsole, <- app_assoc. reflexivity.
      * eapply extends_trans; eauto.
      * intros f [->|Hf]%elem_of_cons; [| apply Houtputs, Hf].
        destruct (Hafter _ _ Hwritten) as ([tsCode|] & Hthere & Hfile); [eauto | discriminate].
    + intros Hrun. apply (IH w Hextends Hrest Hrun).
Qed.

(** C8, as amended.  When the run completes on a directory whose listed
    entries exist, the files it transforms are exactly the regular files
    of the listing whose names end in ".js", in the order of the listing;
    for each of them a regular file is at the input path with its first
    ".js" replaced by ".ts" afterwards, whatever was there before; and
    when the directory path contains no ".js", that path is the entry of
    the same directory named by the input name with its first ".js"
    replaced. *)
Theorem transformJsFilesInDir_inputs_outputs
  (dirPath : string) (names : list string) (w w' : World) :
  files w !! dirPath = Some (Directory names) ->
  (forall file, file ∈ names -> is_Some (files w !! path_join dirPath file)) ->
  transformJsFilesInDir parse generate dirPath w = (w', Normal) ->
  console w' = console w ++ map (logged dirPath) (inputFiles (files w) dirPath names) /\
  (forall file, file ∈ inputFiles (files w) dirPath names ->
     exists tsCode,
       files w' !! replace (path_join dirPath file) ".js" ".ts" = Some (RegularFile tsCode)) /\
  (includes dirPath ".js" = false ->
   forall file,
     replace (path_join dirPath file) ".js" ".ts"
     = path_join dirPath (replace file ".js" ".ts")).
Proof.
  intros Hdir Hlisted. unfold transformJsFilesInDir, readdirSync. rewrite Hdir.
  intros Hrun.
  destruct (forEachEntry_normal (files w) dirPath names w w' (extends_refl _) Hlisted Hrun)
    as (Hlog & _ & Houtputs).
  split; [exact Hlog |]. split; [exact Houtputs |].
  intros Hnone file. apply replace_path_join, Hnone.
Qed.
End DirectoryPass.

Lemma transformJsFilesInDir_inputs_outputs_witness :
  console (fst (transformJsFilesInDir sampleParse sampleGenerate "src" (mkWorld srcFiles [])))
  = [] ++ map (logged "src")
            (inputFiles srcFiles "src" ["a.js"; "notes.txt"; "lib.js"; "a.ts"]) /\
  (forall file, file ∈ inputFiles srcFiles "src" ["a.js"; "notes.txt"; "lib.js"; "a.ts"] ->
     exists tsCode,
       files (fst (transformJsFilesInDir sampleParse sampleGenerate "src" (mkWorld srcFiles [])))
         !! replace (path_join "src" file) ".js" ".ts" = Some (RegularFile tsCode)) /\
  (includes "src" ".js" = false ->
   forall file,
     replace (path_join "src" file) ".js" ".ts" = path_join "src" (replace file ".js" ".ts")).
Proof.
  apply (transformJsFilesInDir_inputs_outputs sampleParse sampleGenerate "src"
           ["a.js"; "notes.txt"; "lib.js"; "a.ts"] (mkWorld srcFiles [])).
  - vm_compute. reflexivity.
  - intros file Hfile. repeat (apply elem_of_cons in Hfile as [->|Hfile]);
      [vm_compute; eauto .. | inversion Hfile].
  - vm_compute. reflexivity.
Defined.

(** C8, as stated, fails for the directory [vendor/chart.js]: the run
    completes, and the output of [vendor/chart.js/a.js] is
    [vendor/chart.ts/a.js], a file of another directory; nothing is written
    next to the input. *)
Lemma output_not_a_sibling :
  transformJsFilesInDir sampleParse sampleGenerate "vendor/chart.js" (mkWorld chartFiles [])
  = (mkWorld
       (<["vendor/chart.ts/a.js" := RegularFile "const x: number = 5;"]>
          (<["vendor/chart.ts" := Directory ["a.js"]]> chartFiles))
       [("vendor/chart.js/a.js", "vendor/chart.ts/a.js")], Normal) /\
  inputFiles chartFiles "vendor/chart.js" ["a.js"] = ["a.js"] /\
  (forall name, path_join "vendor/chart.js" name <> "vendor/chart.ts/a.js") /\
  (<["vendor/chart.ts/a.js" := RegularFile "const x: number = 5;"]>
     (<["vendor/chart.ts" := Directory ["a.js"]]> chartFiles))
    !! "vendor/chart.js/a.ts" = None.
Proof.
  split; [vm_compute; reflexivity |]. split; [vm_compute; reflexivity |].
  split; [| vm_compute; reflexivity].
  intros name Hname. apply (f_equal chars) in Hname. rewrite path_join_chars in Hname.
  vm_compute in Hname. discriminate Hname.
Qed.

(** * Part IV: further properties of the code *)

(** ** [deduceElementType] and [deduceExpressionType] *)

Ltac in_list := repeat first [apply list_elem_of_here | apply list_elem_of_further].

Lemma elementTypeOf_range (el : option Node) :
  elementTypeOf el = JSUndefined \/ exists name, elementTypeOf el = JSString name /\ name ∈ tagNames.
Proof.
  assert (Hin : forall name, name ∈ tagNames ->
            exists name', JSString name = JSString name' /\ name' ∈ tagNames) by eauto.
  destruct el as [[]|]; cbn; try (right; apply Hin; unfold tagNames; in_list).
  destruct (String.eqb name "undefined"); [right; apply Hin; unfold tagNames; in_list | by left].
Qed.

Lemma deduceElementType_range (elements : list (option Node)) :
  deduceElementType elements = JSUndefined \/
  exists name, deduceElementType elements = JSString name /\ name ∈ tagNames.
Proof.
  unfold deduceElementType. destruct elements as [|el0 rest0].
  { right. exists "any". split; [reflexivity |]. unfold tagNames. in_list. }
  cbn [length Nat.eqb]. set (els := el0 :: rest0).
  destruct (Nat.eqb_spec (size (list_to_set (C := gset JSValue) (map elementTypeOf els))) 1)
    as [Hsize|].
  - destruct (size_1_elem_of _ Hsize) as [v Hv]. apply leibniz_equiv in Hv.
    rewrite Hv, firstOf_singleton.
    assert (elementTypeOf el0 ∈ (list_to_set (map elementTypeOf els) : gset JSValue)) as Hin.
    { apply elem_of_list_to_set, list_elem_of_fmap. exists el0.
      split; [reflexivity | apply list_elem_of_here]. }
    rewrite Hv in Hin. apply elem_of_singleton in Hin. rewrite <- Hin.
    apply elementTypeOf_range.
  - right. exists "any". split; [reflexivity |]. unfold tagNames. in_list.
Qed.

(** X1. [deduceElementType] returns one of the six tag names or the value
    [undefined], and it returns [undefined] exactly on the non-empty lists
    all of whose elements are identifiers with a name other than
    "undefined". *)
Theorem deduceElementType_results (elements : list (option Node)) :
  (deduceElementType elements = JSUndefined \/
   exists name, deduceElementType elements = JSString name /\ name ∈ tagNames) /\
  (deduceElementType elements = JSUndefined <->
   elements <> [] /\ forallb escapes elements = true).
Proof.
  split; [apply deduceElementType_range |].
  split; [apply deduceElementType_undefined |].
  intros [Hne Hall]. apply deduceElementType_all_escape; assumption.
Qed.

(** X2. The result of [deduceElementType] depends on which elements occur,
    not on their order or on how often they occur. *)
Theorem deduceElementType_same_elements (elements elements' : list (option Node)) :
  (forall el, el ∈ elements <-> el ∈ elements') ->
  deduceElementType elements = deduceElementType elements'.
Proof.
  intros Hsame. unfold deduceElementType.
  assert (Hset : list_to_set (C := gset JSValue) (map elementTypeOf elements)
                 = list_to_set (map elementTypeOf elements')).
  { apply set_eq. intros v. rewrite !elem_of_list_to_set, !list_elem_of_fmap.
    split; intros (el & -> & Hel); exists el; (split; [reflexivity | by apply Hsame]). }
  rewrite Hset.
  destruct elements as [|el rest], elements' as [|el' rest']; cbn [length Nat.eqb];
    try reflexivity.
  all: exfalso; eapply not_elem_of_nil, Hsame, list_elem_of_here.
Qed.

Lemma deduceElementType_same_elements_witness :
  deduceElementType [Some (NumericLiteral "1"); None; Some (NumericLiteral "2")]
  = deduceElementType [None; Some (NumericLiteral "2"); Some (NumericLiteral "1"); None].
Proof.
  apply (deduceElementType_same_elements
           [Some (NumericLiteral "1"); None; Some (NumericLiteral "2")]
           [None; Some (NumericLiteral "2"); Some (NumericLiteral "1"); None]).
  intros el. rewrite !elem_of_cons, !elem_of_nil. tauto.
Defined.

(** X3. As soon as two elements of an array literal get different results
    from the callback, the element type is "any" and the deducer returns an
    array of [any]: so a mixed array, and also an array that has an
    identifier such as [x] beside anything else. *)
Theorem deduceExpressionType_mixed (elements : list (option Node)) (a b : option Node) :
  a ∈ elements -> b ∈ elements -> elementTypeOf a <> elementTypeOf b ->
  deduceElementType elements = JSString "any" /\
  deduceExpressionType (Some (ArrayExpression elements))
  = Return (TSArrayType (TSTypeReference "any")).
Proof.
  intros Ha Hb Hdiff.
  assert (Helement : deduceElementType elements = JSString "any").
  { unfold deduceElementType. destruct elements as [|el0 rest0]; [reflexivity |].
    cbn [length Nat.eqb]. set (els := el0 :: rest0) in *.
    destruct (Nat.eqb_spec (size (list_to_set (C := gset JSValue) (map elementTypeOf els))) 1)
      as [Hsize|]; [| reflexivity].
    exfalso. apply Hdiff.
    apply (size_singleton_inv _ _ _ Hsize); apply elem_of_list_to_set, list_elem_of_fmap; eauto. }
  split; [exact Helement |]. cbn [deduceExpressionType]. rewrite Helement. reflexivity.
Qed.

Lemma deduceExpressionType_mixed_witness :
  deduceElementType [Some (Identifier "x"); Some (NumericLiteral "1")] = JSString "any" /\
  deduceExpressionType (Some (ArrayExpression [Some (Identifier "x"); Some (NumericLiteral "1")]))
  = Return (TSArrayType (TSTypeReference "any")).
Proof.
  apply (deduceExpressionType_mixed _ (Some (Identifier "x")) (Some (NumericLiteral "1"))).
  - apply list_elem_of_here.
  - apply list_elem_of_further, list_elem_of_here.
  - discriminate.
Defined.

(** X4. The deducer looks one level deep.  An array literal with an element
    that is itself an array, an object, a call or any node other than a
    literal or an identifier is an array of [any], whatever that element
    and the other elements are. *)
Theorem deduceExpressionType_shallow (elements : list (option Node)) (el : Node) :
  Some el ∈ elements -> nodeType el ∉ scalarShapes \/ nodeType el = "ArrayExpression" ->
  deduceExpressionType (Some (ArrayExpression elements))
  = Return (TSArrayType (TSTypeReference "any")).
Proof.
  intros Hel Hkind.
  assert (Hany : elementTypeOf (Some el) = JSString "any").
  { destruct el; cbn in *; try reflexivity; exfalso;
      destruct Hkind as [Hkind|Hkind]; try discriminate Hkind;
      apply Hkind; unfold scalarShapes; in_list. }
  cbn [deduceExpressionType].
  destruct (deduceElementType_range elements) as [Hundefined|(name & Hname & _)].
  - apply deduceElementType_undefined in Hundefined as [_ Hall].
    apply Is_true_true, forallb_True in Hall. rewrite Forall_forall in Hall.
    specialize (Hall _ Hel). apply Is_true_true in Hall.
    apply elementTypeOf_escapes in Hall. congruence.
  - rewrite Hname. cbn. do 3 f_equal.
    unfold deduceElementType in Hname. destruct elements as [|el0 rest0]; [inversion Hel |].
    cbn [length Nat.eqb] in Hname. set (els := el0 :: rest0) in *.
    destruct (Nat.eqb_spec (size (list_to_set (C := gset JSValue) (map elementTypeOf els))) 1)
      as [Hsize|]; [| congruence].
    destruct (size_1_elem_of _ Hsize) as [v Hv]. apply leibniz_equiv in Hv.
    rewrite Hv, firstOf_singleton in Hname. subst v.
    assert (elementTypeOf (Some el) ∈ (list_to_set (map elementTypeOf els) : gset JSValue))
      as Hin by (apply elem_of_list_to_set, list_elem_of_fmap; eauto).
    rewrite Hv in Hin. apply elem_of_singleton in Hin. congruence.
Qed.

(** [[[1], [2]]] *)
Lemma deduceExpressionType_shallow_witness :
  deduceExpressionType
    (Some (ArrayExpression
             [Some (ArrayExpression [Some (NumericLiteral "1")]);
              Some (ArrayExpression [Some (NumericLiteral "2")])]))
  = Return (TSArrayType (TSTypeReference "any")).
Proof.
  apply (deduceExpressionType_shallow _ (ArrayExpression [Some (NumericLiteral "1")])).
  - apply list_elem_of_here.
  - right. reflexivity.
Defined.

(** X5. Whenever the deducer returns, the type is one of the keywords
    [number], [string], [boolean], [null], [undefined] and [any], or an
    array of a reference to one of the six tag names: never [void], never
    an array of arrays. *)
Theorem deduceExpressionType_range (expression : option Node) (type : TSType) :
  deduceExpressionType expression = Return type ->
  type ∈ [TSNumberKeyword; TSStringKeyword; TSBooleanKeyword; TSNullKeyword;
          TSUndefinedKeyword; TSAnyKeyword] \/
  exists name, type = TSArrayType (TSTypeReference name) /\ name ∈ tagNames.
Proof.
  intros Hreturn.
  destruct expression as [[]|]; cbn in Hreturn;
    try (injection Hreturn as <-; left; in_list).
  - destruct (String.eqb name "undefined"); injection Hreturn as <-; left; in_list.
  - destruct (deduceElementType_range elements) as [Hundefined|(name & Hname & Hin)].
    + rewrite Hundefined in Hreturn. discriminate.
    + rewrite Hname in Hreturn. injection Hreturn as <-. right. eauto.
Qed.

Lemma deduceExpressionType_range_witness :
  TSArrayType (TSTypeReference "number")
    ∈ [TSNumberKeyword; TSStringKeyword; TSBooleanKeyword; TSNullKeyword;
       TSUndefinedKeyword; TSAnyKeyword] \/
  exists name, TSArrayType (TSTypeReference "number") = TSArrayType (TSTypeReference name)
               /\ name ∈ tagNames.
Proof.
  apply (deduceExpressionType_range
           (Some (ArrayExpression [Some (NumericLiteral "1"); Some (NumericLiteral "2")]))).
  reflexivity.
Defined.

(** ** The pass and the tree *)

Lemma traverse_elementTypeOf (fuel : nat) (node node' : Node) (k : completion) :
  traverse fuel node = Some (node', k) ->
  elementTypeOf (Some node') = elementTypeOf (Some node).
Proof.
  destruct fuel as [|fuel]; [discriminate |]. cbn [traverse].
  destruct node; cbn [enter]; try (intros [= <- <-]; reflexivity);
    try (intros (c & _ & ->)%rebuild_Some; reflexivity).
  - destruct (VariableDeclarator_visitor_inv id init) as (id' & k' & -> & _).
    destruct k'; [| intros [= <- <-]; reflexivity].
    intros (c & _ & ->)%rebuild_Some. reflexivity.
  - destruct (FunctionDeclaration_visitor_inv params returnType body)
      as (returnType' & k' & -> & _).
    destruct k'; [| intros [= <- <-]; reflexivity].
    intros (c & _ & ->)%rebuild_Some. reflexivity.
  - destruct (ArrowFunctionExpression_visitor_inv params returnType node)
      as (returnType' & k' & -> & _).
    destruct k'; [| intros [= <- <-]; reflexivity].
    intros (c & _ & ->)%rebuild_Some. reflexivity.
Qed.

Lemma passList_map {A B} (p : Pass A) (g : A -> B) (l l' : list A) (k : completion) :
  (forall a a' k', p a = Some (a', k') -> g a' = g a) ->
  passList p l = Some (l', k) -> map g l' = map g l.
Proof.
  intros Hg H%passList_inv. induction H as [|a a' l l' Ha _ IH]; [reflexivity |].
  cbn. f_equal; [| exact IH]. destruct Ha as [->|[k' Ha]]; eauto.
Qed.

Lemma traverse_deduce (fuel : nat) (node node' : Node) (k : completion) :
  traverse fuel node = Some (node', k) ->
  deduceExpressionType (Some node') = deduceExpressionType (Some node).
Proof.
  intros Htraverse. pose proof (traverse_elementTypeOf _ _ _ _ Htraverse) as Helement.
  destruct fuel as [|fuel]; [discriminate |]. cbn [traverse] in Htraverse.
  destruct node; cbn [enter] in Htraverse;
    try (injection Htraverse as <- <-; reflexivity);
    try (apply rebuild_Some in Htraverse as (c & Hc & ->); reflexivity).
  - apply rebuild_Some in Htraverse as (elements' & Hpass & ->).
    cbn [deduceExpressionType]. unfold deduceElementType.
    assert (Hmap : map elementTypeOf elements' = map elementTypeOf elements).
    { revert Hpass. apply passList_map. intros o o' k' Ho.
      apply passOption_inv in Ho as [(-> & -> & _)|(a & a' & -> & -> & Ha)]; [reflexivity |].
      eapply traverse_elementTypeOf, Ha. }
    rewrite Hmap. apply (f_equal (@length _)) in Hmap. rewrite !length_map in Hmap.
    rewrite Hmap. reflexivity.
  - destruct (VariableDeclarator_visitor_inv id init) as (id' & k' & Hvisit & _).
    rewrite Hvisit in Htraverse. destruct k'; [| injection Htraverse as <- <-; reflexivity].
    apply rebuild_Some in Htraverse as (c & _ & ->). reflexivity.
  - destruct (FunctionDeclaration_visitor_inv params returnType body)
      as (returnType' & k' & Hvisit & _).
    rewrite Hvisit in Htraverse. destruct k'; [| injection Htraverse as <- <-; reflexivity].
    apply rebuild_Some in Htraverse as (c & _ & ->). reflexivity.
  - destruct (ArrowFunctionExpression_visitor_inv params returnType node)
      as (returnType' & k' & Hvisit & _).
    rewrite Hvisit in Htraverse. destruct k'; [| injection Htraverse as <- <-; reflexivity].
    apply rebuild_Some in Htraverse as (c & _ & ->). reflexivity.
Qed.

(** X6. What the deducer says of an expression does not change when the
    expression is traversed: the annotations the pass writes inside an
    expression never change the type deduced for it, before or after, and
    the same holds for the result of the callback of [deduceElementType]. *)
Theorem traverse_keeps_deduction (fuel : nat) (node node' : Node) (k : completion) :
  traverse fuel node = Some (node', k) ->
  deduceExpressionType (Some node') = deduceExpressionType (Some node) /\
  elementTypeOf (Some node') = elementTypeOf (Some node).
Proof.
  intros Htraverse. split; [eapply traverse_deduce | eapply traverse_elementTypeOf]; eauto.
Qed.

(** [[(a) => 1, () => 2]] *)
Lemma traverse_keeps_deduction_witness :
  deduceExpressionType
    (Some (ArrayExpression
             [Some (ArrowFunctionExpression
                      [BindingIdentifier "a" (mkSlot (Some (tsTypeAnnotation TSAnyKeyword)) 1)]
                      (mkSlot (Some (tsTypeAnnotation TSNumberKeyword)) 1) (NumericLiteral "1"));
              Some (ArrowFunctionExpression []
                      (mkSlot (Some (tsTypeAnnotation TSNumberKeyword)) 1) (NumericLiteral "2"))]))
  = deduceExpressionType
      (Some (ArrayExpression
               [Some (ArrowFunctionExpression [BindingIdentifier "a" (parsed None)] (parsed None)
                        (NumericLiteral "1"));
                Some (ArrowFunctionExpression [] (parsed None) (NumericLiteral "2"))])).
Proof.
  apply (traverse_keeps_deduction 3 _ _ Normal). reflexivity.
Defined.

(** *** The pass changes annotation slots only *)

Lemma mapSlotsPattern_set (f : Slot -> Slot) (annotation : TSTypeAnnotation) (p : Pattern) :
  (forall s, f (assign annotation s) = f s) ->
  mapSlotsPattern f (setTypeAnnotation annotation p) = mapSlotsPattern f p.
Proof. intros Hf. destruct p; cbn; rewrite Hf; reflexivity. Qed.

Lemma unannotated_annotateParams (params : list Pattern) :
  map (mapSlotsPattern (fun _ => mkSlot None 0)) (annotateParams params)
  = map (mapSlotsPattern (fun _ => mkSlot None 0)) params.
Proof.
  unfold annotateParams. rewrite map_map. apply map_ext.
  intros p. apply mapSlotsPattern_set. reflexivity.
Qed.

Lemma enter_unannotated (node : Node) : unannotated (fst (enter node)) = unannotated node.
Proof.
  unfold unannotated. destruct node; cbn [enter]; try reflexivity.
  - destruct (VariableDeclarator_visitor_inv id init) as (id' & k & -> & Hid). cbn.
    destruct Hid as [(-> & _)|(_ & annotation & ->)]; [reflexivity |].
    rewrite mapSlotsPattern_set; reflexivity.
  - destruct (FunctionDeclaration_visitor_inv params returnType body)
      as (returnType' & k & -> & _).
    cbn. rewrite unannotated_annotateParams. reflexivity.
  - destruct (ArrowFunctionExpression_visitor_inv params returnType node)
      as (returnType' & k & -> & _).
    cbn. rewrite unannotated_annotateParams. reflexivity.
Qed.

Lemma passOption_map {A B} (p : Pass A) (g : A -> B) (o o' : option A) (k : completion) :
  (forall a a' k', p a = Some (a', k') -> g a' = g a) ->
  passOption p o = Some (o', k) -> option_map g o' = option_map g o.
Proof.
  intros Hg [(-> & -> & _)|(a & a' & -> & -> & Ha)]%passOption_inv; [reflexivity |].
  cbn. f_equal. eauto.
Qed.

Lemma traverse_unannotated (fuel : nat) :
  (forall node node' k, traverse fuel node = Some (node', k) ->
                        unannotated node' = unannotated node) /\
  (forall pattern pattern' k,
     traversePattern fuel pattern = Some (pattern', k) ->
     mapSlotsPattern (fun _ => mkSlot None 0) pattern'
     = mapSlotsPattern (fun _ => mkSlot None 0) pattern).
Proof.
  induction fuel as [|fuel [IHnode IHpattern]]; [split; discriminate |].
  pose proof (fun o o' k => passOption_map (traverse fuel) unannotated o o' k IHnode) as Hoption.
  pose proof (fun l l' k => passList_map (traverse fuel) unannotated l l' k IHnode) as Hnodes.
  pose proof (fun l l' k => passList_map (traversePattern fuel) _ l l' k IHpattern) as Hpatterns.
  assert (Hoptions : forall l l' k,
             passList (passOption (traverse fuel)) l = Some (l', k) ->
             map (option_map unannotated) l' = map (option_map unannotated) l).
  { intros l l' k. apply passList_map. intros o o' k'. apply Hoption. }
  assert (Hboth : forall {A B} (p : Pass A) (q : Pass B) a b a' b' k,
             passBoth p q (a, b) = Some ((a', b'), k) ->
             (exists k1, p a = Some (a', k1)) /\ (b' = b \/ exists k2, q b = Some (b', k2))).
  { intros A B p q a b a' b' k [(e & Ha & -> & _)|[Ha Hb]]%passBoth_inv; eauto. }
  split.
  - intros node node' k Htraverse. rewrite <- (enter_unannotated node).
    cbn [traverse] in Htraverse. destruct (enter node) as [entered [|e]]; cbn [fst];
      [| injection Htraverse as <- <-; reflexivity].
    unfold unannotated in *.
    destruct entered; try (injection Htraverse as <- <-; reflexivity);
      apply rebuild_Some in Htraverse as (c & Hc & ->); cbn [mapSlots].
    + f_equal. eapply Hoptions, Hc.
    + destruct c as [id' init']. apply Hboth in Hc as [[k1 Hid] Hinit]. cbn [fst snd].
      f_equal; [eapply IHpattern, Hid |].
      destruct Hinit as [->|[k2 Hinit]]; [reflexivity | eapply Hoption, Hinit].
    + destruct c as [params' body']. apply Hboth in Hc as [[k1 Hparams] Hbody]. cbn [fst snd].
      f_equal; [eapply Hpatterns, Hparams |].
      destruct Hbody as [->|[k2 Hbody]]; [reflexivity | eapply Hnodes, Hbody].
    + destruct c as [params' body']. apply Hboth in Hc as [[k1 Hparams] Hbody]. cbn [fst snd].
      f_equal; [eapply Hpatterns, Hparams |].
      destruct Hbody as [->|[k2 Hbody]]; [reflexivity | eapply IHnode, Hbody].
    + destruct c as [params' body']. apply Hboth in Hc as [[k1 Hparams] Hbody]. cbn [fst snd].
      f_equal; [eapply Hpatterns, Hparams |].
      destruct Hbody as [->|[k2 Hbody]]; [reflexivity | eapply Hnodes, Hbody].
    + f_equal. eapply Hnodes, Hc.
    + f_equal. eapply Hoption, Hc.
    + f_equal. eapply Hoptions, Hc.
  - intros pattern pattern' k. cbn [traversePattern].
    destruct pattern; [intros [= <- <-]; reflexivity | ..];
      intros (c & Hc & ->)%rebuild_Some; cbn [mapSlotsPattern].
    + destruct c as [target' default']. apply Hboth in Hc as [[k1 Htarget] Hdefault].
      cbn [fst snd]. f_equal; [eapply IHpattern, Htarget |].
      destruct Hdefault as [->|[k2 Hdefault]]; [reflexivity | eapply IHnode, Hdefault].
    + f_equal. eapply IHpattern, Hc.
    + f_equal. revert Hc. apply passList_map. intros o o' k'.
      apply passOption_map. exact IHpattern.
    + f_equal. eapply Hpatterns, Hc.
Qed.

(** X7. However the pass ends, it has changed nothing of the tree but
    annotation slots: with the annotations left out, the tree it returns is
    the tree it was given.  No node is added, removed, moved or renamed. *)
Theorem addTypeAnnotations_unannotated (ast : Node) :
  unannotated (fst (addTypeAnnotations ast)) = unannotated ast.
Proof.
  destruct (isRoot ast) eqn:Hroot.
  - pose proof (addTypeAnnotations_traverse ast Hroot) as Htraverse.
    destruct (addTypeAnnotations ast) as [ast' k].
    eapply traverse_unannotated, Htraverse.
  - unfold addTypeAnnotations.
    destruct ast; try reflexivity. destruct kind; try reflexivity; discriminate Hroot.
Qed.

(** *** The annotations of the tree the pass returns *)

Lemma VariableDeclarator_visitor_normal (id : Pattern) (init : option Node) (node : Node) :
  VariableDeclarator_visitor id init = (node, Normal) ->
  exists annotation,
    declaration init = Some annotation /\
    node = VariableDeclarator (setTypeAnnotation annotation id) init.
Proof.
  unfold VariableDeclarator_visitor, declaration. destruct init as [expression|].
  - destruct (deduceExpressionType (Some expression)); [| discriminate].
    intros [= <-]. eauto.
  - intros [= <-]. eauto.
Qed.

Lemma declaration_traversed (fuel : nat) (init init' : option Node) (k : completion) :
  passOption (traverse fuel) init = Some (init', k) -> declaration init' = declaration init.
Proof.
  intros [(-> & -> & _)|(a & a' & -> & -> & Ha)]%passOption_inv; [reflexivity |].
  unfold declaration. rewrite (traverse_deduce _ _ _ _ Ha). reflexivity.
Qed.

Lemma isAny_annotateParams (params : list Pattern) :
  forallb (fun p => bool_decide (value (typeAnnotationOf p) = Some (tsTypeAnnotation TSAnyKeyword)))
    (annotateParams params) = true.
Proof.
  induction params as [|p l IH]; cbn; [reflexivity |].
  rewrite typeAnnotationOf_set. cbn. exact IH.
Qed.

Lemma traverse_declared (fuel : nat) :
  (forall node node', traverse fuel node = Some (node', Normal) ->
                      declaredAsDeduced node' = true) /\
  (forall pattern pattern', traversePattern fuel pattern = Some (pattern', Normal) ->
                            declaredInPattern pattern' = true).
Proof.
  induction fuel as [|fuel [IHnode IHpattern]]; [split; discriminate |].
  assert (Hoption : forall o o', passOption (traverse fuel) o = Some (o', Normal) ->
                                 allOption declaredAsDeduced o' = true).
  { intros o o'. apply (passOption_normal_all _ (fun _ => true)); [eauto | by destruct o]. }
  assert (Hnodes : forall l l', passList (traverse fuel) l = Some (l', Normal) ->
                                forallb declaredAsDeduced l' = true).
  { intros l l'. apply (passList_normal_all _ (fun _ => true)); [eauto |].
    apply forallb_const_true. }
  assert (Hoptions : forall l l', passList (passOption (traverse fuel)) l = Some (l', Normal) ->
                                  forallb (allOption declaredAsDeduced) l' = true).
  { intros l l'. apply (passList_normal_all _ (fun _ => true)); [eauto |].
    apply forallb_const_true. }
  assert (Hpatterns : forall l l', passList (traversePattern fuel) l = Some (l', Normal) ->
                                   forallb declaredInPattern l' = true).
  { intros l l'. apply (passList_normal_all _ (fun _ => true)); [eauto |].
    apply forallb_const_true. }
  assert (Hany : forall params params' k,
             passList (traversePattern fuel) (annotateParams params) = Some (params', k) ->
             forallb isAny params' = true).
  { intros params params' k Hparams.
    pose proof (forallb_slots
                  (fun s => bool_decide (value s = Some (tsTypeAnnotation TSAnyKeyword)))
                  _ _ (traversePatterns_own _ _ _ _ Hparams)) as Hslots.
    cbn beta in Hslots. unfold isAny. rewrite Hslots. apply isAny_annotateParams. }
  split.
  - intros node node'. cbn [traverse].
    destruct node; cbn [enter]; try (intros [= <-]; reflexivity).
    + intros (c & Hc & ->)%rebuild_Some. cbn. eauto.
    + destruct (VariableDeclarator_visitor id init) as [entered [|e]] eqn:Hvisit;
        [| discriminate].
      apply VariableDeclarator_visitor_normal in Hvisit as (annotation & Hdeclared & ->).
      intros ([id' init'] & Hboth & ->)%rebuild_Some.
      apply passBoth_inv in Hboth as [(e & _ & _ & [=])|[Hpattern Hinit]].
      cbn [declaredAsDeduced fst snd].
      rewrite (traversePattern_own _ _ _ _ Hpattern), typeAnnotationOf_set.
      rewrite (declaration_traversed _ _ _ _ Hinit), Hdeclared.
      rewrite (IHpattern _ _ Hpattern), (Hoption _ _ Hinit).
      cbn. rewrite bool_decide_eq_true_2; reflexivity.
    + destruct (FunctionDeclaration_visitor_inv params returnType body)
        as (returnType' & k & -> & _).
      destruct k; [| discriminate].
      intros ([params' body'] & Hboth & ->)%rebuild_Some.
      apply passBoth_inv in Hboth as [(e & _ & _ & [=])|[Hparams Hbody]].
      cbn [declaredAsDeduced fst snd].
      rewrite (Hany _ _ _ Hparams), (Hpatterns _ _ Hparams), (Hnodes _ _ Hbody). reflexivity.
    + destruct (ArrowFunctionExpression_visitor_inv params returnType node)
        as (returnType' & k & -> & _).
      destruct k; [| discriminate].
      intros ([params' body'] & Hboth & ->)%rebuild_Some.
      apply passBoth_inv in Hboth as [(e & _ & _ & [=])|[Hparams Hbody]].
      cbn [declaredAsDeduced fst snd].
      rewrite (Hany _ _ _ Hparams), (Hpatterns _ _ Hparams), (IHnode _ _ Hbody). reflexivity.
    + intros ([params' body'] & Hboth & ->)%rebuild_Some.
      apply passBoth_inv in Hboth as [(e & _ & _ & [=])|[Hparams Hbody]].
      cbn. rewrite (Hpatterns _ _ Hparams), (Hnodes _ _ Hbody). reflexivity.
    + intros (c & Hc & ->)%rebuild_Some. cbn. eauto.
    + intros (c & Hc & ->)%rebuild_Some. cbn. eauto.
    + intros (c & Hc & ->)%rebuild_Some. cbn. eauto.
  - intros pattern pattern'. cbn [traversePattern].
    destruct pattern; [intros [= <-]; reflexivity | ..].
    + intros ([target' default'] & Hboth & ->)%rebuild_Some.
      apply passBoth_inv in Hboth as [(e & _ & _ & [=])|[Htarget Hdefault]].
      cbn. rewrite (IHpattern _ _ Htarget), (IHnode _ _ Hdefault). reflexivity.
    + intros (c & Hc & ->)%rebuild_Some. cbn. eauto.
    + intros (c & Hc & ->)%rebuild_Some. cbn.
      revert Hc. apply (passList_normal_all _ (fun _ => true)); [| apply forallb_const_true].
      intros o o' _. apply (passOption_normal_all _ (fun _ => true)); [eauto | by destruct o].
    + intros (c & Hc & ->)%rebuild_Some. cbn. eauto.
Qed.

(** X8. When the pass completes, then everywhere in the tree it returns,
    also inside function bodies, default values and nested functions, the
    identifier of each declarator carries the type the deducer gives for
    the initializer beside it ([any] without one) and each parameter of a
    function declaration or arrow function carries [any]. *)
Theorem addTypeAnnotations_declares (ast ast' : Node) :
  addTypeAnnotations ast = (ast', Normal) -> declaredAsDeduced ast' = true.
Proof.
  intros Hpass. destruct (isRoot ast) eqn:Hroot.
  - pose proof (addTypeAnnotations_traverse ast Hroot) as Htraverse.
    rewrite Hpass in Htraverse. eapply traverse_declared, Htraverse.
  - unfold addTypeAnnotations in Hpass.
    destruct ast; try discriminate Hpass. destruct kind; discriminate.
Qed.

Lemma addTypeAnnotations_declares_witness :
  declaredAsDeduced (fst (addTypeAnnotations sampleProgram)) = true.
Proof.
  apply (addTypeAnnotations_declares sampleProgram). vm_compute. reflexivity.
Defined.

(** *** When the pass completes *)

Lemma scanReturns_returns (statements : list Node) (returnType : TSType) :
  (exists type, scanReturns statements returnType = Return type) <->
  forallb deducesb (returnArguments statements) = true.
Proof.
  revert returnType. induction statements as [|statement rest IH]; intros returnType.
  - cbn. split; eauto.
  - rewrite scanReturns_step. unfold returnArguments in *. cbn [omap list_omap].
    destruct (returnArgument statement) as [argument|]; [| apply IH].
    cbn [forallb]. unfold deducesb at 1.
    destruct (deduceExpressionType (Some argument)) as [deduced|e]; cbn; [apply IH |].
    split; [intros [type [=]] | discriminate].
Qed.

Lemma VariableDeclarator_visitor_completion (id : Pattern) (init : option Node) :
  exists id' k,
    VariableDeclarator_visitor id init = (VariableDeclarator id' init, k) /\
    safePattern id' = safePattern id /\
    heightPattern id' = heightPattern id /\
    (k = Normal <-> allOption deducesb init = true).
Proof.
  unfold VariableDeclarator_visitor. destruct init as [expression|]; cbn [allOption].
  - unfold deducesb. destruct (deduceExpressionType (Some expression)).
    + eexists _, Normal. split; [reflexivity |].
      split; [by destruct id |]. split; [by destruct id | tauto].
    + eexists _, (Throw e). split; [reflexivity |]. repeat split; discriminate.
  - eexists _, Normal. split; [reflexivity |].
    split; [by destruct id |]. split; [by destruct id | tauto].
Qed.

Lemma FunctionDeclaration_visitor_completion
  (params : list Pattern) (returnType : Slot) (body : list Node) :
  exists returnType' k,
    FunctionDeclaration_visitor params returnType body
    = (FunctionDeclaration (annotateParams params) returnType' body, k) /\
    (k = Normal <->
     populated returnType || forallb deducesb (returnArguments body) = true).
Proof.
  unfold FunctionDeclaration_visitor, populated. destruct (value returnType).
  { eexists _, Normal. split; [reflexivity |]. cbn. tauto. }
  cbn [orb].
  assert (Hscan : (if Nat.ltb 0 (length body) then scanReturns body TSVoidKeyword
                   else Return TSVoidKeyword) = scanReturns body TSVoidKeyword)
    by (by destruct body).
  rewrite Hscan. pose proof (scanReturns_returns body TSVoidKeyword) as Hiff.
  destruct (scanReturns body TSVoidKeyword) as [type|e].
  - eexists _, Normal. split; [reflexivity |]. split; [intros _; apply Hiff; eauto | reflexivity].
  - eexists _, (Throw e). split; [reflexivity |].
    split; [discriminate |]. intros [type [=]]%Hiff.
Qed.

Lemma ArrowFunctionExpression_visitor_completion
  (params : list Pattern) (returnType : Slot) (body : Node) :
  exists returnType' k,
    ArrowFunctionExpression_visitor params returnType body
    = (ArrowFunctionExpression (annotateParams params) returnType' body, k) /\
    (k = Normal <->
     populated returnType
     || match body with
        | BlockStatement statements => forallb deducesb (returnArguments statements)
        | expression => deducesb expression
        end = true).
Proof.
  unfold ArrowFunctionExpression_visitor, populated. destruct (value returnType).
  { eexists _, Normal. split; [reflexivity |]. cbn. tauto. }
  cbn [orb].
  assert (Hiff : (exists type,
                    match body with
                    | BlockStatement statements => scanReturns statements TSVoidKeyword
                    | expression => deduceExpressionType (Some expression)
                    end = Return type) <->
                 match body with
                 | BlockStatement statements => forallb deducesb (returnArguments statements)
                 | expression => deducesb expression
                 end = true).
  { destruct body; try apply scanReturns_returns; unfold deducesb;
      (destruct (deduceExpressionType _); split; [eauto | eauto | intros [type [=]] | discriminate]). }
  destruct (match body with BlockStatement _ => _ | _ => _ end) as [type|e] in Hiff |- *.
  - eexists _, Normal. split; [reflexivity |]. split; [intros _; apply Hiff; eauto | reflexivity].
  - eexists _, (Throw e). split; [reflexivity |].
    split; [discriminate |]. intros [type [=]]%Hiff.
Qed.

Section NormalIff.
Context {A B : Type}.

Lemma completes_rebuild (f : A -> B) (r : option (A * completion)) :
  completes (rebuild f r) <-> completes r.
Proof.
  unfold completes. destruct r as [[a [|e]]|]; cbn; split; intros [x [=]]; eauto.
Qed.

Lemma completes_passOption (p : Pass A) (s : A -> bool) (o : option A) :
  (forall a, o = Some a -> (completes (p a) <-> s a = true)) ->
  completes (passOption p o) <-> allOption s o = true.
Proof.
  destruct o as [a|]; cbn; intros H; [| split; [reflexivity | intros _; eexists; eauto]].
  rewrite <- (H a eq_refl). unfold completes.
  destruct (p a) as [[a' [|e]]|]; split; intros [x [=]]; eauto.
Qed.

Lemma completes_passList (p : Pass A) (s : A -> bool) (l : list A) :
  (forall a, a ∈ l -> (completes (p a) <-> s a = true)) ->
  completes (passList p l) <-> forallb s l = true.
Proof.
  induction l as [|a l IH]; intros H; cbn.
  - split; [reflexivity | intros _; eexists; eauto].
  - rewrite andb_true_iff, <- (H a) by apply list_elem_of_here.
    rewrite <- IH by (intros b Hb; apply H, list_elem_of_further, Hb).
    unfold completes. destruct (p a) as [[a' [|e]]|].
    + destruct (passList p l) as [[l' [|e]]|]; split;
        try (intros [x [=]]); try (intros [_ [x [=]]]); eauto.
    + split; [intros [x [=]] | intros [[x [=]] _]].
    + split; [intros [x [=]] | intros [[x [=]] _]].
Qed.

Lemma completes_passBoth (p : Pass A) (q : Pass B) (a : A) (b : B) :
  completes (passBoth p q (a, b)) <-> completes (p a) /\ completes (q b).
Proof.
  unfold completes, passBoth. cbn. destruct (p a) as [[a' [|e]]|].
  - destruct (q b) as [[b' [|e]]|]; split;
      try (intros [x [=]]); try (intros [_ [x [=]]]); eauto.
  - split; [intros [x [=]] | intros [[x [=]] _]].
  - split; [intros [x [=]] | intros [[x [=]] _]].
Qed.
End NormalIff.

Lemma safePattern_set (annotation : TSTypeAnnotation) (p : Pattern) :
  safePattern (setTypeAnnotation annotation p) = safePattern p.
Proof. destruct p; reflexivity. Qed.

Lemma safePattern_annotateParams (params : list Pattern) :
  forallb safePattern (annotateParams params) = forallb safePattern params.
Proof.
  unfold annotateParams. induction params as [|p l IH]; cbn; [reflexivity |].
  rewrite safePattern_set, IH. reflexivity.
Qed.

Lemma traverse_completes_iff (fuel : nat) :
  (forall node, height node <= fuel -> (completes (traverse fuel node) <-> safe node = true)) /\
  (forall pattern, heightPattern pattern <= fuel ->
                   (completes (traversePattern fuel pattern) <-> safePattern pattern = true)).
Proof.
  induction fuel as [|fuel [IHnode IHpattern]].
  { split.
    - intros node. pose proof (height_positive node). lia.
    - intros pattern. pose proof (heightPattern_positive pattern). lia. }
  assert (Hoption : forall o, maxOfOption height o <= fuel ->
             (completes (passOption (traverse fuel) o) <-> allOption safe o = true)).
  { intros o Ho. apply completes_passOption. intros a ->. apply IHnode, Ho. }
  assert (Hnodes : forall l, maxOf height l <= fuel ->
             (completes (passList (traverse fuel) l) <-> forallb safe l = true)).
  { intros l Hl. apply completes_passList. intros a Ha. apply IHnode.
    pose proof (maxOf_le height l a Ha). lia. }
  assert (Hoptions : forall l, maxOf (maxOfOption height) l <= fuel ->
             (completes (passList (passOption (traverse fuel)) l)
              <-> forallb (allOption safe) l = true)).
  { intros l Hl. apply completes_passList. intros o Ho. apply Hoption.
    pose proof (maxOf_le (maxOfOption height) l o Ho). lia. }
  assert (Hpatterns : forall l, maxOf heightPattern l <= fuel ->
             (completes (passList (traversePattern fuel) l)
              <-> forallb safePattern l = true)).
  { intros l Hl. apply completes_passList. intros a Ha. apply IHpattern.
    pose proof (maxOf_le heightPattern l a Ha). lia. }
  assert (Hleaf : forall node : Node, completes (Some (node, Normal)) <-> true = true).
  { intros node. split; [reflexivity | intros _; eexists; eauto]. }
  assert (Hthrow : forall (node : Node) e (P : Prop),
             ~ P -> completes (Some (node, Throw e)) <-> P).
  { intros node e P HP. split; [intros [x [=]] | contradiction]. }
  split.
  - intros node Hheight. cbn [traverse].
    destruct node; cbn [enter safe]; try apply Hleaf; cbn [height] in Hheight.
    + rewrite completes_rebuild. apply Hoptions. lia.
    + destruct (VariableDeclarator_visitor_completion id init)
        as (id' & k & -> & Hsafe & Hid & Hk).
      destruct k as [|e].
      * rewrite completes_rebuild, completes_passBoth, !andb_true_iff.
        rewrite IHpattern, Hoption, Hsafe by lia. tauto.
      * apply Hthrow. rewrite !andb_true_iff. intros [[Hinit _] _].
        apply Hk in Hinit. discriminate.
    + destruct (FunctionDeclaration_visitor_completion params returnType body)
        as (returnType' & k & -> & Hk).
      destruct k as [|e].
      * rewrite completes_rebuild, completes_passBoth, !andb_true_iff.
        rewrite Hpatterns, Hnodes, safePattern_annotateParams
          by (rewrite ?height_annotateParams; lia).
        tauto.
      * apply Hthrow. rewrite !andb_true_iff. intros [[Hvisit _] _].
        apply Hk in Hvisit. discriminate.
    + destruct (ArrowFunctionExpression_visitor_completion params returnType node)
        as (returnType' & k & -> & Hk).
      destruct k as [|e].
      * rewrite completes_rebuild, completes_passBoth, !andb_true_iff.
        rewrite Hpatterns, IHnode, safePattern_annotateParams
          by (rewrite ?height_annotateParams; lia).
        tauto.
      * apply Hthrow. rewrite !andb_true_iff. intros [[Hvisit _] _].
        apply Hk in Hvisit. discriminate.
    + rewrite completes_rebuild, completes_passBoth, !andb_true_iff.
      rewrite Hpatterns, Hnodes by lia. tauto.
    + rewrite completes_rebuild. apply Hnodes. lia.
    + rewrite completes_rebuild. apply Hoption. lia.
    + rewrite completes_rebuild. apply Hoptions. lia.
  - intros pattern Hheight. cbn [traversePattern].
    destruct pattern; cbn [safePattern]; cbn [heightPattern] in Hheight.
    + split; [reflexivity | intros _; eexists; eauto].
    + rewrite completes_rebuild, completes_passBoth, !andb_true_iff.
      rewrite IHpattern, IHnode by lia. tauto.
    + rewrite completes_rebuild. apply IHpattern. lia.
    + rewrite completes_rebuild. apply completes_passList. intros o Ho.
      apply completes_passOption. intros a ->. apply IHpattern.
      pose proof (maxOf_le (maxOfOption heightPattern) elements (Some a) Ho). cbn in *. lia.
    + rewrite completes_rebuild. apply Hpatterns. lia.
Qed.

(** X9. The pass on a parsed program completes exactly when the deducer
    returns on every expression a handler gives it: the initializer of
    every declarator and, for every function declaration and arrow function
    that has no return type yet, the argument of every top-level return
    statement of its body, or its body when that is an expression.  In
    every other case it throws. *)
Theorem addTypeAnnotations_completes_iff (ast : Node) :
  isRoot ast = true ->
  (snd (addTypeAnnotations ast) = Normal <-> safe ast = true).
Proof.
  intros Hroot. pose proof (addTypeAnnotations_traverse ast Hroot) as Htraverse.
  rewrite <- (proj1 (traverse_completes_iff (height ast)) ast (le_n _)).
  unfold completes. rewrite Htraverse.
  destruct (addTypeAnnotations ast) as [ast' k]. cbn.
  split; [intros ->; eauto | intros [x [= _ ->]]; reflexivity].
Qed.

Lemma addTypeAnnotations_completes_iff_witness :
  (snd (addTypeAnnotations sampleProgram) = Normal <-> safe sampleProgram = true) /\
  (snd (addTypeAnnotations unknownArrayProgram) = Normal
   <-> safe unknownArrayProgram = true) /\
  safe sampleProgram = true /\ safe unknownArrayProgram = false.
Proof.
  split; [apply (addTypeAnnotations_completes_iff sampleProgram); reflexivity |].
  split; [apply (addTypeAnnotations_completes_iff unknownArrayProgram); reflexivity |].
  split; vm_compute; reflexivity.
Defined.

(** *** A second run *)

Lemma annotations_set (annotation : TSTypeAnnotation) (p : Pattern) :
  value (typeAnnotationOf p) = Some annotation ->
  mapSlotsPattern resetWrites (setTypeAnnotation annotation p)
  = mapSlotsPattern resetWrites p.
Proof. destruct p; cbn; unfold resetWrites; cbn; intros ->; reflexivity. Qed.

Lemma rebuild_rebuild {A B C} (f : A -> B) (g : B -> C) (r : option (A * completion)) :
  rebuild g (rebuild f r) = rebuild (fun a => g (f a)) r.
Proof. by destruct r as [[a k]|]. Qed.

Lemma traversePattern_set (fuel : nat) (annotation : TSTypeAnnotation) (p : Pattern) :
  traversePattern fuel (setTypeAnnotation annotation p)
  = rebuild (setTypeAnnotation annotation) (traversePattern fuel p).
Proof.
  destruct fuel as [|fuel]; [reflexivity |].
  destruct p; cbn [traversePattern setTypeAnnotation]; rewrite ?rebuild_rebuild; reflexivity.
Qed.

Lemma traversePatterns_set (fuel : nat) (annotation : TSTypeAnnotation) (l : list Pattern) :
  passList (traversePattern fuel) (map (setTypeAnnotation annotation) l)
  = rebuild (map (setTypeAnnotation annotation)) (passList (traversePattern fuel) l).
Proof.
  induction l as [|p l IH]; [reflexivity |]. cbn [map passList].
  rewrite traversePattern_set, IH.
  destruct (traversePattern fuel p) as [[p' [|e]]|]; cbn; try reflexivity.
  destruct (passList (traversePattern fuel) l) as [[l' k]|]; reflexivity.
Qed.

Lemma annotations_annotateParams (params params' : list Pattern) :
  map typeAnnotationOf params' = map typeAnnotationOf (annotateParams params) ->
  map (mapSlotsPattern resetWrites) (annotateParams params')
  = map (mapSlotsPattern resetWrites) params'.
Proof.
  unfold annotateParams. revert params'.
  induction params as [|p l IH]; intros [|p' l']; cbn; try discriminate; [reflexivity |].
  intros [= Hp Hl]. rewrite annotations_set, (IH _ Hl); [reflexivity |].
  rewrite Hp, typeAnnotationOf_set. reflexivity.
Qed.

Section Twice.
Context {A B : Type} (p : Pass A) (g : A -> B).
Hypothesis again : forall a a1, p a = Some (a1, Normal) ->
                                exists a2, p a1 = Some (a2, Normal) /\ g a2 = g a1.

Lemma passOption_twice (o o1 : option A) :
  passOption p o = Some (o1, Normal) ->
  exists o2, passOption p o1 = Some (o2, Normal) /\ option_map g o2 = option_map g o1.
Proof.
  intros [(_ & -> & _)|(a & a1 & -> & -> & Ha)]%passOption_inv; [by exists None |].
  destruct (again _ _ Ha) as (a2 & Ha2 & Hg). exists (Some a2). cbn. rewrite Ha2, Hg. eauto.
Qed.

Lemma passList_twice (l l1 : list A) :
  passList p l = Some (l1, Normal) ->
  exists l2, passList p l1 = Some (l2, Normal) /\ map g l2 = map g l1.
Proof.
  intros H%passList_normal. induction H as [|a a1 l l1 Ha _ (l2 & Hl2 & Hg)]; [by exists [] |].
  destruct (again _ _ Ha) as (a2 & Ha2 & Hga). exists (a2 :: l2). cbn.
  rewrite Ha2, Hl2, Hga, Hg. eauto.
Qed.
End Twice.

Lemma VariableDeclarator_visitor_declaration
  (id : Pattern) (init : option Node) (annotation : TSTypeAnnotation) :
  declaration init = Some annotation ->
  VariableDeclarator_visitor id init
  = (VariableDeclarator (setTypeAnnotation annotation id) init, Normal).
Proof.
  unfold declaration, VariableDeclarator_visitor. destruct init as [expression|].
  - destruct (deduceExpressionType (Some expression)); [| discriminate]. by intros [= <-].
  - by intros [= <-].
Qed.

Lemma traverse_twice (fuel : nat) :
  (forall node node1, traverse fuel node = Some (node1, Normal) ->
     exists node2, traverse fuel node1 = Some (node2, Normal) /\
                   mapSlots resetWrites node2 = mapSlots resetWrites node1) /\
  (forall pattern pattern1, traversePattern fuel pattern = Some (pattern1, Normal) ->
     exists pattern2,
       traversePattern fuel pattern1 = Some (pattern2, Normal) /\
       mapSlotsPattern resetWrites pattern2
       = mapSlotsPattern resetWrites pattern1).
Proof.
  induction fuel as [|fuel [IHnode IHpattern]]; [split; discriminate |].
  pose proof (passOption_twice (traverse fuel) (mapSlots resetWrites) IHnode) as Hoption.
  pose proof (passList_twice (traverse fuel) (mapSlots resetWrites) IHnode) as Hnodes.
  pose proof (passList_twice (passOption (traverse fuel))
                (option_map (mapSlots resetWrites)) Hoption) as Hoptions.
  pose proof (passList_twice (traversePattern fuel) _ IHpattern) as Hpatterns.
  split.
  - intros node node1. cbn [traverse].
    destruct node; cbn [enter];
      try (intros [= <-]; eexists; split; reflexivity).
    + intros (c & Hc & ->)%rebuild_Some. destruct (Hoptions _ _ Hc) as (c2 & Hc2 & Hg).
      cbn [enter]. rewrite Hc2. eexists. split; [reflexivity |]. cbn. by rewrite Hg.
    + destruct (VariableDeclarator_visitor id init) as [entered [|e]] eqn:Hvisit;
        [| discriminate].
      apply VariableDeclarator_visitor_normal in Hvisit as (annotation & Hdeclared & ->).
      intros ([id1 init1] & Hboth & ->)%rebuild_Some.
      apply passBoth_inv in Hboth as [(e & _ & _ & [=])|[Hid Hinit]].
      cbn [fst snd enter].
      rewrite (VariableDeclarator_visitor_declaration id1 init1 annotation)
        by (rewrite (declaration_traversed _ _ _ _ Hinit); exact Hdeclared).
      destruct (IHpattern _ _ Hid) as (id2 & Hid2 & Hgid).
      destruct (Hoption _ _ Hinit) as (init2 & Hinit2 & Hginit).
      unfold passBoth. cbn [fst snd]. rewrite traversePattern_set, Hid2. cbn [rebuild].
      rewrite Hinit2. eexists. split; [reflexivity |]. cbn.
      rewrite annotations_set, Hgid, Hginit; [reflexivity |].
      rewrite (traversePattern_own _ _ _ _ Hid2), (traversePattern_own _ _ _ _ Hid).
      rewrite typeAnnotationOf_set. reflexivity.
    + destruct (FunctionDeclaration_visitor_inv params returnType body)
        as (returnType' & k & -> & Hreturn).
      destruct k; [| discriminate].
      intros ([params1 body1] & Hboth & ->)%rebuild_Some.
      apply passBoth_inv in Hboth as [(e & _ & _ & [=])|[Hparams Hbody]].
      cbn [fst snd enter].
      assert (Hvalue : exists annotation, value returnType' = Some annotation).
      { destruct Hreturn as [[-> Hvalue]|(_ & _ & annotation & ->)]; [| by eexists].
        destruct (value returnType); [eauto | by destruct Hvalue]. }
      destruct Hvalue as [annotation Hvalue].
      unfold FunctionDeclaration_visitor. rewrite Hvalue.
      destruct (Hpatterns _ _ Hparams) as (params2 & Hparams2 & Hgparams).
      destruct (Hnodes _ _ Hbody) as (body2 & Hbody2 & Hgbody).
      unfold passBoth. cbn [fst snd]. unfold annotateParams at 1.
      rewrite traversePatterns_set, Hparams2. cbn [rebuild]. rewrite Hbody2.
      eexists. split; [reflexivity |]. cbn.
      rewrite Hgbody, <- Hgparams. f_equal.
      apply (annotations_annotateParams params).
      rewrite (traversePatterns_own _ _ _ _ Hparams2).
      apply (traversePatterns_own _ _ _ _ Hparams).
    + destruct (ArrowFunctionExpression_visitor_inv params returnType node)
        as (returnType' & k & -> & Hreturn).
      destruct k; [| discriminate].
      intros ([params1 body1] & Hboth & ->)%rebuild_Some.
      apply passBoth_inv in Hboth as [(e & _ & _ & [=])|[Hparams Hbody]].
      cbn [fst snd enter].
      assert (Hvalue : exists annotation, value returnType' = Some annotation).
      { destruct Hreturn as [[-> Hvalue]|(_ & _ & annotation & ->)]; [| by eexists].
        destruct (value returnType); [eauto | by destruct Hvalue]. }
      destruct Hvalue as [annotation Hvalue].
      unfold ArrowFunctionExpression_visitor. rewrite Hvalue.
      destruct (Hpatterns _ _ Hparams) as (params2 & Hparams2 & Hgparams).
      destruct (IHnode _ _ Hbody) as (body2 & Hbody2 & Hgbody).
      unfold passBoth. cbn [fst snd]. unfold annotateParams at 1.
      rewrite traversePatterns_set, Hparams2. cbn [rebuild]. rewrite Hbody2.
      eexists. split; [reflexivity |]. cbn.
      rewrite Hgbody, <- Hgparams. f_equal.
      apply (annotations_annotateParams params).
      rewrite (traversePatterns_own _ _ _ _ Hparams2).
      apply (traversePatterns_own _ _ _ _ Hparams).
    + intros ([params1 body1] & Hboth & ->)%rebuild_Some.
      apply passBoth_inv in Hboth as [(e & _ & _ & [=])|[Hparams Hbody]].
      destruct (Hpatterns _ _ Hparams) as (params2 & Hparams2 & Hgparams).
      destruct (Hnodes _ _ Hbody) as (body2 & Hbody2 & Hgbody).
      cbn [fst snd enter]. unfold passBoth. cbn [fst snd]. rewrite Hparams2, Hbody2.
      eexists. split; [reflexivity |]. cbn. by rewrite Hgparams, Hgbody.
    + intros (c & Hc & ->)%rebuild_Some. destruct (Hnodes _ _ Hc) as (c2 & Hc2 & Hg).
      cbn [enter]. rewrite Hc2. eexists. split; [reflexivity |]. cbn. by rewrite Hg.
    + intros (c & Hc & ->)%rebuild_Some. destruct (Hoption _ _ Hc) as (c2 & Hc2 & Hg).
      cbn [enter]. rewrite Hc2. eexists. split; [reflexivity |]. cbn. by rewrite Hg.
    + intros (c & Hc & ->)%rebuild_Some. destruct (Hoptions _ _ Hc) as (c2 & Hc2 & Hg).
      cbn [enter]. rewrite Hc2. eexists. split; [reflexivity |]. cbn. by rewrite Hg.
  - intros pattern pattern1. cbn [traversePattern].
    destruct pattern; [intros [= <-]; eexists; split; reflexivity | ..].
    + intros ([target1 default1] & Hboth & ->)%rebuild_Some.
      apply passBoth_inv in Hboth as [(e & _ & _ & [=])|[Htarget Hdefault]].
      destruct (IHpattern _ _ Htarget) as (target2 & Htarget2 & Hgtarget).
      destruct (IHnode _ _ Hdefault) as (default2 & Hdefault2 & Hgdefault).
      cbn [fst snd]. unfold passBoth. cbn [fst snd]. rewrite Htarget2, Hdefault2.
      eexists. split; [reflexivity |]. cbn. by rewrite Hgtarget, Hgdefault.
    + intros (c & Hc & ->)%rebuild_Some. destruct (IHpattern _ _ Hc) as (c2 & Hc2 & Hg).
      rewrite Hc2. eexists. split; [reflexivity |]. cbn. by rewrite Hg.
    + intros (c & Hc & ->)%rebuild_Some.
      destruct (passList_twice (passOption (traversePattern fuel)) _
                  (passOption_twice (traversePattern fuel) _ IHpattern) _ _ Hc)
        as (c2 & Hc2 & Hg).
      rewrite Hc2. eexists. split; [reflexivity |]. cbn. by rewrite Hg.
    + intros (c & Hc & ->)%rebuild_Some. destruct (Hpatterns _ _ Hc) as (c2 & Hc2 & Hg).
      rewrite Hc2. eexists. split; [reflexivity |]. cbn. by rewrite Hg.
Qed.

Lemma traverse_any_fuel (fuel fuel' : nat) (node : Node) (r r' : Node * completion) :
  traverse fuel node = Some r -> traverse fuel' node = Some r' -> r = r'.
Proof.
  intros H H'.
  apply (proj1 (traverse_more_fuel fuel (Nat.max fuel fuel') (Nat.le_max_l _ _))) in H.
  apply (proj1 (traverse_more_fuel fuel' (Nat.max fuel fuel') (Nat.le_max_r _ _))) in H'.
  congruence.
Qed.

(** X10. When the pass completes, a second run on the tree it returned
    completes too and changes no annotation: parameters and declared
    identifiers are written again with the same types, return types are not
    written again. *)
Theorem addTypeAnnotations_twice (ast ast1 : Node) :
  addTypeAnnotations ast = (ast1, Normal) ->
  exists ast2,
    addTypeAnnotations ast1 = (ast2, Normal) /\ annotations ast2 = annotations ast1.
Proof.
  intros Hpass. destruct (isRoot ast) eqn:Hroot.
  - pose proof (addTypeAnnotations_traverse ast Hroot) as Htraverse.
    rewrite Hpass in Htraverse.
    destruct (proj1 (traverse_twice _) _ _ Htraverse) as (ast2 & Hsecond & Hsame).
    exists ast2. split; [| exact Hsame].
    assert (Hroot1 : isRoot ast1 = true).
    { apply traverse_own in Htraverse as [Htype _].
      destruct ast; try discriminate Hroot. destruct kind; try discriminate Hroot;
        destruct ast1; try discriminate Htype; destruct kind; try discriminate Htype;
        reflexivity. }
    pose proof (addTypeAnnotations_traverse ast1 Hroot1) as Hagain.
    symmetry. eapply traverse_any_fuel; eauto.
  - unfold addTypeAnnotations in Hpass.
    destruct ast; try discriminate Hpass. destruct kind; discriminate.
Qed.

Lemma addTypeAnnotations_twice_witness :
  exists ast2,
    addTypeAnnotations (fst (addTypeAnnotations sampleProgram)) = (ast2, Normal) /\
    annotations ast2 = annotations (fst (addTypeAnnotations sampleProgram)).
Proof.
  apply (addTypeAnnotations_twice sampleProgram). vm_compute. reflexivity.
Defined.

(** ** Files *)

Lemma replaceFirst_absent (pattern replacement s : list ascii) :
  occursIn pattern s = false -> replaceFirst pattern replacement s = s.
Proof.
  induction s as [|c s IH]; cbn; intros [Hhere Hlater]%orb_false_iff; rewrite Hhere;
    [reflexivity |]. rewrite (IH Hlater). reflexivity.
Qed.

Lemma replaceFirst_changes (pattern replacement s : list ascii) :
  replacement <> pattern -> occursIn pattern s = true ->
  replaceFirst pattern replacement s <> s.
Proof.
  intros Hne. induction s as [|c s IH]; cbn.
  - rewrite orb_false_r. intros Hnil%bool_decide_eq_true. rewrite bool_decide_eq_true_2 by done.
    apply prefix_nil_inv in Hnil as ->. cbn. rewrite app_nil_r. exact Hne.
  - destruct (bool_decide (pattern `prefix_of` c :: s)) eqn:Hhere.
    + intros _ Heq. apply bool_decide_eq_true in Hhere as [rest Hrest].
      rewrite Hrest, drop_app_length in Heq. apply app_inv_tail in Heq. contradiction.
    + cbn. intros Hlater [= Heq]. exact (IH Hlater Heq).
Qed.

Lemma replace_absent (path : string) :
  includes path ".js" = false -> replace path ".js" ".ts" = path.
Proof.
  intros Hnone. unfold replace. rewrite replaceFirst_absent by exact Hnone. apply text_chars.
Qed.

Lemma replace_changes (path : string) :
  includes path ".js" = true -> replace path ".js" ".ts" <> path.
Proof.
  intros Hsome Heq. apply (f_equal chars) in Heq. unfold replace in Heq.
  rewrite chars_text in Heq. revert Heq. apply replaceFirst_changes; [discriminate | exact Hsome].
Qed.

(** What a write leaves where it was: every path other than the one written
    that holds a regular file. *)
Lemma writeFileSync_other (fs fs' : gmap string Entry) (path data other content : string) :
  writeFileSync fs path data = Return fs' -> other <> path ->
  fs !! other = Some (RegularFile content) -> fs' !! other = Some (RegularFile content).
Proof.
  unfold writeFileSync. intros Hwrite Hne Hother.
  destruct (fs !! path) as [[old|names]|]; [| discriminate |].
  - injection Hwrite as <-. rewrite lookup_insert_ne by congruence. exact Hother.
  - destruct (fs !! (parentOf path).1) as [[old|names]|] eqn:Hparent; try discriminate.
    injection Hwrite as <-. rewrite !lookup_insert_ne; [exact Hother | | congruence].
    intros Heq. rewrite Heq in Hparent. congruence.
Qed.

Section FileProperties.
Variable parse : string -> Result Node.
Variable generate : Node -> string.

Lemma transformJsFileToTsFile_throw (jsFilePath : string) (w w' : World) (e : JSError) :
  transformJsFileToTsFile parse generate jsFilePath w = (w', Throw e) -> w' = w.
Proof.
  unfold transformJsFileToTsFile, parseJavaScript.
  destruct (readFileSync (files w) jsFilePath) as [jsCode|]; [| by intros [= <-]].
  destruct (parse jsCode) as [ast|]; [| by intros [= <-]].
  destruct (addTypeAnnotations ast) as [ast' [|e']]; [| by intros [= <-]].
  destruct (writeFileSync _ _ _); [discriminate | by intros [= <-]].
Qed.

Lemma transformEntry_throw (dirPath file : string) (w w' : World) (e : JSError) :
  transformEntry parse generate dirPath file w = (w', Throw e) -> w' = w.
Proof.
  unfold transformEntry. destruct (statSync (files w) (path_join dirPath file)) as [stats|];
    [| by intros [= <-]].
  destruct (isFile stats && endsWith (path_join dirPath file) ".js"); [| discriminate].
  apply transformJsFileToTsFile_throw.
Qed.

(** X11. A run that throws has stopped at the first entry that fails: the
    entries listed before it have been handled as in a run that completes,
    the failing entry has changed neither a file nor the log, and no later
    entry has been looked at. *)
Theorem transformJsFilesInDir_stops_at_first_failure
  (dirPath : string) (names : list string) (w w' : World) (e : JSError) :
  files w !! dirPath = Some (Directory names) ->
  transformJsFilesInDir parse generate dirPath w = (w', Throw e) ->
  exists finished failing rest,
    names = finished ++ failing :: rest /\
    forEachEntry parse generate dirPath finished w = (w', Normal) /\
    transformEntry parse generate dirPath failing w' = (w', Throw e).
Proof.
  intros Hdir. unfold transformJsFilesInDir, readdirSync. rewrite Hdir. clear Hdir.
  revert w. induction names as [|file rest IH]; intros w; cbn [forEachEntry]; [discriminate |].
  destruct (transformEntry parse generate dirPath file w) as [w1 [|e1]] eqn:Hentry.
  - intros (finished & failing & rest' & -> & Hfinished & Hfailing)%IH.
    exists (file :: finished), failing, rest'. split; [reflexivity |].
    cbn [forEachEntry]. rewrite Hentry. eauto.
  - intros [= <- <-]. pose proof (transformEntry_throw _ _ _ _ _ Hentry) as ->.
    exists [], file, rest. repeat split. exact Hentry.
Qed.

Lemma transformJsFileToTsFile_keeps_input_aux (jsFilePath : string) (w w' : World) :
  includes jsFilePath ".js" = true ->
  transformJsFileToTsFile parse generate jsFilePath w = (w', Normal) ->
  exists jsCode ast ast',
    files w' !! jsFilePath = Some (RegularFile jsCode) /\
    parse jsCode = Return ast /\
    addTypeAnnotations ast = (ast', Normal) /\
    files w' !! replace jsFilePath ".js" ".ts" = Some (RegularFile (generate ast')).
Proof.
  intros Hjs (jsCode & ast & ast' & Hread & Hparse & Hpass & Hwrite & _)
           %transformJsFileToTsFile_normal.
  exists jsCode, ast, ast'.
  assert (Hinput : files w !! jsFilePath = Some (RegularFile jsCode)).
  { unfold readFileSync in Hread. destruct (files w !! jsFilePath) as [[content|names]|];
      congruence. }
  split; [| split; [exact Hparse | split; [exact Hpass |]]].
  - eapply writeFileSync_other; [exact Hwrite | | exact Hinput].
    intros Heq. symmetry in Heq. revert Heq. apply replace_changes, Hjs.
  - apply writeFileSync_returns in Hwrite as [Hwritten _]. exact Hwritten.
Qed.

(** X12. A file whose path contains ".js" is never overwritten by its own
    conversion: when the conversion completes, the input is still there
    with its text, and the output path holds the text the generator gives
    for the annotated tree of that text. *)
Theorem transformJsFileToTsFile_keeps_input (jsFilePath : string) (w w' : World) :
  includes jsFilePath ".js" = true ->
  transformJsFileToTsFile parse generate jsFilePath w = (w', Normal) ->
  exists jsCode ast ast',
    files w !! jsFilePath = Some (RegularFile jsCode) /\
    files w' !! jsFilePath = Some (RegularFile jsCode) /\
    parse jsCode = Return ast /\
    addTypeAnnotations ast = (ast', Normal) /\
    files w' !! replace jsFilePath ".js" ".ts" = Some (RegularFile (generate ast')).
Proof.
  intros Hjs (jsCode & ast & ast' & Hread & Hparse & Hpass & Hwrite & _)
           %transformJsFileToTsFile_normal.
  exists jsCode, ast, ast'.
  assert (Hinput : files w !! jsFilePath = Some (RegularFile jsCode)).
  { unfold readFileSync in Hread. destruct (files w !! jsFilePath) as [[content|names]|];
      congruence. }
  split; [exact Hinput |]. split; [| split; [exact Hparse | split; [exact Hpass |]]].
  - eapply writeFileSync_other; [exact Hwrite | | exact Hinput].
    intros Heq. symmetry in Heq. revert Heq. apply replace_changes, Hjs.
  - apply writeFileSync_returns in Hwrite as [Hwritten _]. exact Hwritten.
Qed.

(** X13. A file whose path contains no ".js" is its own output: when its
    conversion completes, the generated text has replaced the text of the
    input. *)
Theorem transformJsFileToTsFile_overwrites_input (jsFilePath : string) (w w' : World) :
  includes jsFilePath ".js" = false ->
  transformJsFileToTsFile parse generate jsFilePath w = (w', Normal) ->
  exists jsCode ast ast',
    files w !! jsFilePath = Some (RegularFile jsCode) /\
    parse jsCode = Return ast /\
    addTypeAnnotations ast = (ast', Normal) /\
    files w' = <[jsFilePath := RegularFile (generate ast')]> (files w) /\
    console w' = console w ++ [(jsFilePath, jsFilePath)].
Proof.
  intros Hnone (jsCode & ast & ast' & Hread & Hparse & Hpass & Hwrite & Hlog)
           %transformJsFileToTsFile_normal.
  rewrite (replace_absent _ Hnone) in Hwrite, Hlog.
  exists jsCode, ast, ast'.
  assert (Hinput : files w !! jsFilePath = Some (RegularFile jsCode)).
  { unfold readFileSync in Hread. destruct (files w !! jsFilePath) as [[content|names]|];
      congruence. }
  repeat split; try assumption.
  unfold writeFileSync in Hwrite. rewrite Hinput in Hwrite. congruence.
Qed.

(** X14. Converting the same file again changes no file: when the
    conversion of a path that contains ".js" has completed, a second
    conversion of that path completes, leaves every file as it is and logs
    the same line once more. *)
Theorem transformJsFileToTsFile_again (jsFilePath : string) (w w1 : World) :
  includes jsFilePath ".js" = true ->
  transformJsFileToTsFile parse generate jsFilePath w = (w1, Normal) ->
  transformJsFileToTsFile parse generate jsFilePath w1
  = (mkWorld (files w1) (console w1 ++ [(jsFilePath, replace jsFilePath ".js" ".ts")]), Normal).
Proof.
  intros Hjs Hfirst.
  destruct (transformJsFileToTsFile_keeps_input_aux jsFilePath w w1 Hjs Hfirst)
    as (jsCode & ast & ast' & Hkept & Hparse & Hpass & Hwritten).
  unfold transformJsFileToTsFile, parseJavaScript, generateTypeScript, readFileSync.
  rewrite Hkept, Hparse, Hpass. unfold writeFileSync. rewrite Hwritten.
  rewrite insert_id by exact Hwritten. reflexivity.
Qed.
Lemma transformEntry_skips (dirPath file : string) (w : World) :
  is_Some (files w !! path_join dirPath file) ->
  inputFiles (files w) dirPath [file] = [] ->
  transformEntry parse generate dirPath file w = (w, Normal).
Proof.
  intros [entry Hentry]. unfold inputFiles, transformEntry, statSync. cbn [List.filter].
  rewrite Hentry, endsWith_path_join.
  destruct entry as [content|names]; cbn [isFile andb]; [| reflexivity].
  destruct (endsWith file ".js"); [discriminate | reflexivity].
Qed.

(** X15. A directory in which no regular file has a name ending in ".js"
    is left as it is: the run completes without a write and without a log
    line, whatever the parser and the generator do. *)
Theorem transformJsFilesInDir_no_input (dirPath : string) (names : list string) (w : World) :
  files w !! dirPath = Some (Directory names) ->
  (forall file, file ∈ names -> is_Some (files w !! path_join dirPath file)) ->
  inputFiles (files w) dirPath names = [] ->
  transformJsFilesInDir parse generate dirPath w = (w, Normal).
Proof.
  intros Hdir. unfold transformJsFilesInDir, readdirSync. rewrite Hdir. clear Hdir.
  induction names as [|file rest IH]; intros Hlisted Hnone; cbn [forEachEntry]; [reflexivity |].
  assert (Hfile : inputFiles (files w) dirPath [file] = []
                  /\ inputFiles (files w) dirPath rest = []).
  { unfold inputFiles in *. cbn [List.filter] in *.
    destruct (match files w !! path_join dirPath file with
              | Some (RegularFile _) => endsWith file ".js"
              | _ => false
              end); [discriminate | split; [reflexivity | exact Hnone]]. }
  destruct Hfile as [Hfile Hrest].
  rewrite transformEntry_skips; [| apply Hlisted, list_elem_of_here | exact Hfile].
  apply IH; [| exact Hrest]. intros other Hother. apply Hlisted, list_elem_of_further, Hother.
Qed.
End FileProperties.

(** ** The name of the output *)

Lemma occursIn_length (pattern s : list ascii) :
  occursIn pattern s = true -> length pattern <= length s.
Proof.
  induction s as [|c s IH]; cbn.
  - rewrite orb_false_r. intros Hnil%bool_decide_eq_true. apply prefix_length in Hnil. exact Hnil.
  - intros [Hhere%bool_decide_eq_true|Hlater]%orb_true_iff.
    + apply prefix_length in Hhere. exact Hhere.
    + specialize (IH Hlater). lia.
Qed.

Lemma prefix_of_app_long (pattern s rest : list ascii) :
  length pattern <= length s -> pattern `prefix_of` s ++ rest -> pattern `prefix_of` s.
Proof.
  intros Hlen [k Hk]. apply (f_equal (take (length pattern))) in Hk.
  rewrite take_app_le, take_app_length in Hk by exact Hlen.
  rewrite <- Hk. apply prefix_take.
Qed.

(** An occurrence inside [s] is the first one of [s ++ rest]. *)
Lemma replaceFirst_app (pattern replacement s rest : list ascii) :
  occursIn pattern s = true ->
  replaceFirst pattern replacement (s ++ rest) = replaceFirst pattern replacement s ++ rest.
Proof.
  induction s as [|c s IH]; intros Hsome.
  - cbn in Hsome. rewrite orb_false_r in Hsome. apply bool_decide_eq_true in Hsome.
    apply prefix_nil_inv in Hsome as ->. cbn [app replaceFirst].
    rewrite bool_decide_eq_true_2 by apply prefix_nil. cbn [length drop].
    destruct rest; cbn; rewrite ?bool_decide_eq_true_2 by apply prefix_nil;
      rewrite ?app_nil_r; reflexivity.
  - pose proof (occursIn_length _ _ Hsome) as Hlen. cbn in Hsome. cbn [app replaceFirst].
    destruct (bool_decide (pattern `prefix_of` c :: s)) eqn:Hhere.
    + apply bool_decide_eq_true in Hhere.
      rewrite bool_decide_eq_true_2 by (apply (prefix_app_r _ _ rest) in Hhere; exact Hhere).
      change (c :: s ++ rest) with ((c :: s) ++ rest).
      rewrite drop_app_le by exact Hlen. rewrite app_assoc. reflexivity.
    + cbn [orb] in Hsome. rewrite bool_decide_eq_false_2.
      * rewrite (IH Hsome). reflexivity.
      * intros Hlong. apply bool_decide_eq_false in Hhere. apply Hhere.
        change (c :: s ++ rest) with ((c :: s) ++ rest) in Hlong.
        exact (prefix_of_app_long _ _ _ Hlen Hlong).
Qed.

(** The extension is the first ".js" of a name whose stem has none. *)
Lemma replaceFirst_extension (stem : list ascii) :
  occursIn (chars ".js") stem = false ->
  replaceFirst (chars ".js") (chars ".ts") (stem ++ chars ".js") = stem ++ chars ".ts".
Proof.
  induction stem as [|c stem IH]; [reflexivity |].
  cbn [occursIn]. intros [Hhere Hlater]%orb_false_iff.
  cbn [app replaceFirst]. rewrite bool_decide_eq_false_2; [rewrite (IH Hlater); reflexivity |].
  intros Hprefix. apply bool_decide_eq_false in Hhere. apply Hhere. clear Hhere Hlater IH.
  cbn in Hprefix. pose proof (prefix_cons_inv_1 _ _ _ _ Hprefix) as <-.
  apply prefix_cons_inv_2 in Hprefix.
  destruct stem as [|x [|y stem]]; cbn in Hprefix.
  - apply prefix_cons_inv_1 in Hprefix. discriminate.
  - pose proof (prefix_cons_inv_1 _ _ _ _ Hprefix) as <-.
    apply prefix_cons_inv_2, prefix_cons_inv_1 in Hprefix. discriminate.
  - pose proof (prefix_cons_inv_1 _ _ _ _ Hprefix) as <-.
    apply prefix_cons_inv_2, prefix_cons_inv_1 in Hprefix as <-. cbn.
    do 3 apply prefix_cons. apply prefix_nil.
Qed.

(** X16. In a directory whose path contains no ".js", the output of the
    entry [stem.js] is [stem.ts] in that directory exactly when the stem
    contains no ".js"; with one, that occurrence is replaced and the output
    keeps the extension ".js". *)
Theorem output_changes_extension (dirPath stem : string) :
  includes dirPath ".js" = false ->
  (replace (path_join dirPath (stem +:+ ".js")) ".js" ".ts" = path_join dirPath (stem +:+ ".ts")
   <-> includes stem ".js" = false) /\
  (includes stem ".js" = true ->
   endsWith (replace (path_join dirPath (stem +:+ ".js")) ".js" ".ts") ".js" = true).
Proof.
  intros Hdir. rewrite (replace_path_join _ _ Hdir).
  assert (Hinner : includes stem ".js" = true ->
            chars (replace (stem +:+ ".js") ".js" ".ts")
            = replaceFirst (chars ".js") (chars ".ts") (chars stem) ++ chars ".js").
  { intros Hsome. unfold replace. rewrite chars_text, chars_app.
    apply replaceFirst_app, Hsome. }
  split; [split |].
  - intros Heq. destruct (includes stem ".js") eqn:Hstem; [exfalso | reflexivity].
    apply (f_equal chars) in Heq. rewrite !path_join_chars in Heq.
    apply app_inv_head in Heq. rewrite (Hinner eq_refl), chars_app in Heq.
    apply app_inj_2 in Heq as [_ Heq]; [discriminate | reflexivity].
  - intros Hnone. f_equal. rewrite <- (text_chars (stem +:+ ".ts")). unfold replace.
    f_equal. rewrite !chars_app. apply replaceFirst_extension, Hnone.
  - intros Hsome. rewrite endsWith_path_join. unfold endsWith.
    rewrite (Hinner Hsome). apply bool_decide_eq_true. apply suffix_app_r. reflexivity.
Qed.

Lemma output_changes_extension_witness :
  includes "src" ".js" = false /\
  (replace (path_join "src" ("a" +:+ ".js")) ".js" ".ts" = path_join "src" ("a" +:+ ".ts")
   <-> includes "a" ".js" = false) /\
  (includes "a" ".js" = true ->
   endsWith (replace (path_join "src" ("a" +:+ ".js")) ".js" ".ts") ".js" = true).
Proof. split; [reflexivity | apply (output_changes_extension "src" "a"); reflexivity]. Defined.

(** ** The properties of the files on the sample directories *)

Lemma transformJsFilesInDir_stops_at_first_failure_witness :
  exists finished failing rest,
    ["a.js"; "b.js"; "c.js"] = finished ++ failing :: rest /\
    forEachEntry sampleParse sampleGenerate "src" finished (mkWorld brokenFiles [])
    = (fst (transformJsFilesInDir sampleParse sampleGenerate "src" (mkWorld brokenFiles [])),
       Normal) /\
    transformEntry sampleParse sampleGenerate "src" failing
      (fst (transformJsFilesInDir sampleParse sampleGenerate "src" (mkWorld brokenFiles [])))
    = (fst (transformJsFilesInDir sampleParse sampleGenerate "src" (mkWorld brokenFiles [])),
       Throw (SyntaxError "Unexpected token")).
Proof.
  apply (transformJsFilesInDir_stops_at_first_failure sampleParse sampleGenerate "src"
           ["a.js"; "b.js"; "c.js"] (mkWorld brokenFiles [])).
  - vm_compute. reflexivity.
  - vm_compute. reflexivity.
Defined.

Lemma transformJsFileToTsFile_keeps_input_witness :
  exists jsCode ast ast',
    files (mkWorld srcFiles []) !! "src/a.js" = Some (RegularFile jsCode) /\
    files (fst (transformJsFileToTsFile sampleParse sampleGenerate "src/a.js"
                  (mkWorld srcFiles []))) !! "src/a.js" = Some (RegularFile jsCode) /\
    sampleParse jsCode = Return ast /\
    addTypeAnnotations ast = (ast', Normal) /\
    files (fst (transformJsFileToTsFile sampleParse sampleGenerate "src/a.js"
                  (mkWorld srcFiles []))) !! replace "src/a.js" ".js" ".ts"
    = Some (RegularFile (sampleGenerate ast')).
Proof.
  apply (transformJsFileToTsFile_keeps_input sampleParse sampleGenerate "src/a.js"
           (mkWorld srcFiles [])).
  - vm_compute. reflexivity.
  - vm_compute. reflexivity.
Defined.

Lemma transformJsFileToTsFile_overwrites_input_witness :
  exists jsCode ast ast',
    files (mkWorld notesFiles []) !! "notes" = Some (RegularFile jsCode) /\
    sampleParse jsCode = Return ast /\
    addTypeAnnotations ast = (ast', Normal) /\
    files (fst (transformJsFileToTsFile sampleParse sampleGenerate "notes"
                  (mkWorld notesFiles [])))
    = <["notes" := RegularFile (sampleGenerate ast')]> (files (mkWorld notesFiles [])) /\
    console (fst (transformJsFileToTsFile sampleParse sampleGenerate "notes"
                    (mkWorld notesFiles [])))
    = console (mkWorld notesFiles []) ++ [("notes", "notes")].
Proof.
  apply (transformJsFileToTsFile_overwrites_input sampleParse sampleGenerate "notes"
           (mkWorld notesFiles [])).
  - vm_compute. reflexivity.
  - vm_compute. reflexivity.
Defined.

Lemma transformJsFileToTsFile_again_witness :
  transformJsFileToTsFile sampleParse sampleGenerate "src/a.js"
    (fst (transformJsFileToTsFile sampleParse sampleGenerate "src/a.js" (mkWorld srcFiles [])))
  = (mkWorld
       (files (fst (transformJsFileToTsFile sampleParse sampleGenerate "src/a.js"
                      (mkWorld srcFiles []))))
       (console (fst (transformJsFileToTsFile sampleParse sampleGenerate "src/a.js"
                        (mkWorld srcFiles [])))
        ++ [("src/a.js", replace "src/a.js" ".js" ".ts")]),
     Normal).
Proof.
  apply (transformJsFileToTsFile_again sampleParse sampleGenerate "src/a.js"
           (mkWorld srcFiles [])).
  - vm_compute. reflexivity.
  - vm_compute. reflexivity.
Defined.

Lemma transformJsFilesInDir_no_input_witness :
  transformJsFilesInDir sampleParse sampleGenerate "docs" (mkWorld notesFiles [])
  = (mkWorld notesFiles [], Normal).
Proof.
  apply (transformJsFilesInDir_no_input sampleParse sampleGenerate "docs"
           ["readme.md"; "img"] (mkWorld notesFiles [])).
  - vm_compute. reflexivity.
  - intros file Hfile. repeat (apply elem_of_cons in Hfile as [->|Hfile]);
      [vm_compute; eauto .. | inversion Hfile].
  - vm_compute. reflexivity.
Defined.
